(** * 3I/ATLAS trajectory tools: the ephemeris parsers, the hyperbolic
      fallback propagators and the series operations (merge, prune,
      milestone lookup), embedded from the Python sources

    Sources embedded here:
    - [generate_trajectory.py]: [horizons_to_threejs],
      [parse_horizons_vectors], [kepler_fallback_trajectory],
      [find_position_at_date];
    - [update_trajectory.py]: [merge_trajectory_data], [prune_old_data];
    - [backend/generate_atlas_trajectory.py]:
      [HorizonsAPIClient._parse_vector_data],
      [OrbitalMechanicsCalculator.calculate_position].

    Conventions of the embedding.
    - A Python [str] is a [string]; characters are the code points below 256.
    - A Python [float] obtained by [float(s)] is the rational that the
      decimal literal denotes (type [Q], kept in lowest terms); rounding to
      binary64 and the literals [inf]/[nan] are not modelled, and the range
      of binary64 is modelled where a function computes with the numbers
      ([Binary64]).  The propagators are embedded over the real numbers
      [R].
    - A naive [datetime] is its number of microseconds since
      0001-01-01T00:00:00; the instants are not bounded ([OverflowError]
      at the ends of the years 1 to 9999 is not modelled).
    - Division on [R] is total; for e > 1 and q > 0 no denominator of the
      propagators vanishes, so the Python code raises no
      [ZeroDivisionError] there.
    - The definitions of [Calculator] give the numbers of
      [calculate_position] in exact arithmetic.  The function as it runs
      on binary64, where [math.sinh] and [math.cosh] raise [OverflowError]
      and a product overflows to infinity, is [CalculatorRun]; the two
      agree as long as the Newton iteration stays in the binary64 range.
    - A raised exception is the [Raise] branch of [result]. *)

From Stdlib Require Import Bool Arith ZArith QArith Lia List Ascii String.
From Stdlib Require Import Sorting.Sorted Sorting.Permutation.
From Stdlib Require Import Reals Lra.
Import ListNotations.

Local Close Scope Q_scope.
Local Close Scope R_scope.
Local Open Scope nat_scope.
Local Open Scope string_scope.
Local Open Scope bool_scope.

(** ** Exceptions *)

Inductive exn : Type :=
| ValueError (msg : string)
| IndexError
| KeyError (key : string)
| TypeError
| OverflowError.

Inductive result (A : Type) : Type :=
| Ok (a : A)
| Raise (e : exn).

Arguments Ok {A} a.
Arguments Raise {A} e.

(** ** Python string primitives *)

Module PyStr.

Definition nl : ascii := "010"%char.

(** [str.isspace] on one character (code points below 256): TAB..CR,
    FS..US, SPACE, NEL and NBSP.  The same class is [\s] in [re]. *)
Definition is_space (c : ascii) : bool :=
  let n := N_of_ascii c in
  ((9 <=? n) && (n <=? 13))%N || ((28 <=? n) && (n <=? 32))%N
  || (n =? 133)%N || (n =? 160)%N.

Definition is_digit (c : ascii) : bool :=
  let n := N_of_ascii c in ((48 <=? n) && (n <=? 57))%N.

Definition digit_val (c : ascii) : N := (N_of_ascii c - 48)%N.

Definition is_empty (s : string) : bool :=
  match s with EmptyString => true | String _ _ => false end.

Fixpoint lstrip (s : string) : string :=
  match s with
  | EmptyString => EmptyString
  | String c r => if is_space c then lstrip r else s
  end.

Fixpoint rstrip (s : string) : string :=
  match s with
  | EmptyString => EmptyString
  | String c r =>
      match rstrip r with
      | EmptyString => if is_space c then EmptyString else String c EmptyString
      | r' => String c r'
      end
  end.

(** [s.strip()] *)
Definition strip (s : string) : string := rstrip (lstrip s).

(** [s.startswith(p)] *)
Definition startswith (p s : string) : bool := String.prefix p s.

(** [sub in s] *)
Fixpoint contains (sub s : string) : bool :=
  String.prefix sub s
  || match s with
     | EmptyString => false
     | String _ r => contains sub r
     end.

(** [s.split(sep)] for a one-character separator: never empty. *)
Fixpoint split_char (sep : ascii) (s : string) : list string :=
  match s with
  | EmptyString => [EmptyString]
  | String c r =>
      if Ascii.eqb c sep then EmptyString :: split_char sep r
      else match split_char sep r with
           | w :: ws => String c w :: ws
           | [] => [String c EmptyString]
           end
  end.

(** [s.split()]: the maximal runs of non-whitespace characters. *)
Fixpoint split_ws (s : string) : list string :=
  match s with
  | EmptyString => []
  | String c r =>
      if is_space c then split_ws r
      else match r with
           | EmptyString => [String c EmptyString]
           | String c' _ =>
               if is_space c' then String c EmptyString :: split_ws r
               else match split_ws r with
                    | w :: ws => String c w :: ws
                    | [] => [String c EmptyString]
                    end
           end
  end.

(** [s.split(sep)] for a separator of one character or more, scanning
    left to right; [skip] counts the characters of a separator still to
    be passed over. *)
Fixpoint split_str_from (sep : string) (skip : nat) (s : string) : list string :=
  match s with
  | EmptyString => [EmptyString]
  | String c r =>
      match skip with
      | S k => split_str_from sep k r
      | O =>
          if String.prefix sep s
          then EmptyString :: split_str_from sep (String.length sep - 1) r
          else match split_str_from sep 0 r with
               | w :: ws => String c w :: ws
               | [] => [String c EmptyString]
               end
      end
  end.

Definition split_str (sep s : string) : list string := split_str_from sep 0 s.

(** [s.replace(old, new)] for a non-empty [old]. *)
Fixpoint replace_from (old new : string) (skip : nat) (s : string) : string :=
  match s with
  | EmptyString => EmptyString
  | String c r =>
      match skip with
      | S k => replace_from old new k r
      | O =>
          if String.prefix old s
          then new ++ replace_from old new (String.length old - 1) r
          else String c (replace_from old new 0 r)
      end
  end.

Definition replace (old new s : string) : string := replace_from old new 0 s.

(** The first [n] characters of [s]. *)
Fixpoint take (n : nat) (s : string) : string :=
  match n, s with
  | S k, String c r => String c (take k r)
  | _, _ => EmptyString
  end.

(** [sep.join(l)] for the one-character separator [sep]. *)
Fixpoint join (sep : ascii) (l : list string) : string :=
  match l with
  | [] => EmptyString
  | [x] => x
  | x :: rest => x ++ String sep (join sep rest)
  end.

End PyStr.
Import PyStr.

(** ** The fragment of [re] the parsers use

    A backtracking matcher in continuation-passing style: the
    continuation receives the unread input and the groups captured so far,
    and the first success in priority order is the match, as in [re]. *)

Module Re.

Inductive regex : Type :=
| Eps                              (* the empty pattern *)
| Chr (c : ascii)                  (* a literal character *)
| Cls (p : ascii -> bool)          (* a character class *)
| Cat (r1 r2 : regex)
| Opt (r : regex)                  (* r?   greedy *)
| Star (p : ascii -> bool)         (* [p]*  greedy *)
| LazyStar (p : ascii -> bool)     (* [p]*? *)
| Grp (r : regex).                 (* ( r ) *)

Definition Plus (p : ascii -> bool) : regex := Cat (Cls p) (Star p).

Fixpoint lits (s : string) (tail : regex) : regex :=
  match s with
  | EmptyString => tail
  | String c r => Cat (Chr c) (lits r tail)
  end.

Section Matcher.
Context {A : Type}.

Fixpoint star_greedy (p : ascii -> bool) (s : string)
         (k : string -> option A) : option A :=
  match s with
  | EmptyString => k EmptyString
  | String c r =>
      if p c
      then match star_greedy p r k with
           | Some x => Some x
           | None => k s
           end
      else k s
  end.

Fixpoint star_lazy (p : ascii -> bool) (s : string)
         (k : string -> option A) : option A :=
  match k s with
  | Some x => Some x
  | None =>
      match s with
      | EmptyString => None
      | String c r => if p c then star_lazy p r k else None
      end
  end.

Fixpoint rmatch (r : regex) (s : string) (caps : list string)
         (k : string -> list string -> option A) {struct r} : option A :=
  match r with
  | Eps => k s caps
  | Chr c =>
      match s with
      | String c' rest => if Ascii.eqb c' c then k rest caps else None
      | EmptyString => None
      end
  | Cls p =>
      match s with
      | String c' rest => if p c' then k rest caps else None
      | EmptyString => None
      end
  | Cat r1 r2 => rmatch r1 s caps (fun s' caps' => rmatch r2 s' caps' k)
  | Opt r1 =>
      match rmatch r1 s caps k with
      | Some x => Some x
      | None => k s caps
      end
  | Star p => star_greedy p s (fun s' => k s' caps)
  | LazyStar p => star_lazy p s (fun s' => k s' caps)
  | Grp r1 =>
      rmatch r1 s caps
        (fun s' caps' =>
           k s' (caps' ++ [take (String.length s - String.length s') s])%list)
  end.
End Matcher.

(** [re.search(r, s)]: the groups of the leftmost match. *)
Fixpoint search (r : regex) (s : string) : option (list string) :=
  match rmatch r s [] (fun _ caps => Some caps) with
  | Some caps => Some caps
  | None =>
      match s with
      | EmptyString => None
      | String _ rest => search r rest
      end
  end.

(** [m.group(1)] *)
Definition group1 (caps : list string) : string := nth 0 caps EmptyString.

Definition any_char (_ : ascii) : bool := true.
Definition is_sign (c : ascii) : bool := Ascii.eqb c "-" || Ascii.eqb c "+".
Definition is_e (c : ascii) : bool := Ascii.eqb c "e" || Ascii.eqb c "E".

(** [[-+]?[0-9]*\.?[0-9]+(?:[eE][-+]?[0-9]+)?] *)
Definition num_re : regex :=
  Cat (Opt (Cls is_sign))
    (Cat (Star is_digit)
       (Cat (Opt (Chr "."))
          (Cat (Plus is_digit)
             (Opt (Cat (Cls is_e) (Cat (Opt (Cls is_sign)) (Plus is_digit))))))).

(** [<label>\s*=\s*(<num_re>)], for the labels X, Y, Z, VX, VY, VZ *)
Definition label_re (label : string) : regex :=
  lits label (Cat (Star is_space) (Cat (Chr "=") (Cat (Star is_space) (Grp num_re)))).

(** [\$\$SOE\s*\n(.*?)\$\$EOE] with [re.DOTALL] *)
Definition soe_re : regex :=
  lits "$$SOE"
    (Cat (Star is_space)
       (Cat (Chr nl) (Cat (Grp (LazyStar any_char)) (lits "$$EOE" Eps)))).

End Re.

(** ** [float(s)] on decimal literals *)

Module PyFloat.

(** A digit part [digit (["_"] digit)*]: reads it greedily from [s] with
    the value [acc] and the digit count [cnt] so far; an underscore that
    no digit follows is left unread. *)
Fixpoint digitpart (s : string) (acc : N) (cnt : nat) : N * nat * string :=
  match s with
  | EmptyString => (acc, cnt, s)
  | String c r =>
      if is_digit c then digitpart r (10 * acc + digit_val c)%N (S cnt)
      else if Ascii.eqb c "_" then
        match cnt, r with
        | S _, String c' r' =>
            if is_digit c'
            then digitpart r' (10 * acc + digit_val c')%N (S cnt)
            else (acc, cnt, s)
        | _, _ => (acc, cnt, s)
        end
      else (acc, cnt, s)
  end.

Definition sign_of (s : string) : bool * string :=
  match s with
  | String "-" r => (true, r)
  | String "+" r => (false, r)
  | _ => (false, s)
  end.

(** m * 10^e as a rational in lowest terms *)
Definition scale10 (m : Z) (e : Z) : Q :=
  Qred (if (0 <=? e)%Z then Qmake (m * 10 ^ e)%Z 1
        else Qmake m (Z.to_pos (10 ^ (- e))%Z)).

(** The optional exponent [(e|E) [sign] digitpart]; [None] when an
    exponent marker has no digits. *)
Definition exponent_of (s : string) : option (Z * string) :=
  match s with
  | String c r =>
      if Re.is_e c then
        let '(neg, r1) := sign_of r in
        let '(ev, n, r2) := digitpart r1 0%N 0 in
        match n with
        | O => None
        | S _ => Some (if neg then (- Z.of_N ev)%Z else Z.of_N ev, r2)
        end
      else Some (0%Z, s)
  | EmptyString => Some (0%Z, s)
  end.

(** [float(s)]: [None] stands for [ValueError]. *)
Definition float_of_string (s : string) : option Q :=
  let s0 := strip s in
  let '(neg, s1) := sign_of s0 in
  let '(iv, icnt, s2) := digitpart s1 0%N 0 in
  let '(mv, fcnt, s3) :=
    match s2 with
    | String "." r =>
        let '(v, cnt, r') := digitpart r iv 0 in (v, cnt, r')
    | _ => (iv, 0, s2)
    end in
  match (icnt + fcnt)%nat with
  | O => None
  | S _ =>
      match exponent_of s3 with
      | Some (ev, EmptyString) =>
          let m := if neg then (- Z.of_N mv)%Z else Z.of_N mv in
          Some (scale10 m (ev - Z.of_nat fcnt))
      | _ => None
      end
  end.

End PyFloat.
Import PyFloat.

(** ** Data model *)

Definition vec3 : Type := (Q * Q * Q)%type.

(** A trajectory point: the dict with the keys ['jd'], ['date'],
    ['position'] and ['velocity'].  ['jd'] and ['date'] are read with
    [.get] and a default or under [try], and may be absent; every producer
    in the repository writes ['position'] and ['velocity'] (a list of three
    floats in [generate_trajectory.py], a dict with the keys x, y, z in
    [generate_atlas_trajectory.py]: three floats here). *)
Record point : Type := mkPoint {
  jd : option Q;
  date : option string;
  position : vec3;
  velocity : vec3
}.

(** ** [generate_trajectory.py]: the labeled-block parser *)

(** Three.js [x, y, z] = Horizons [x, z, -y] *)
Definition horizons_to_threejs (x y z : Q) : vec3 := (x, z, Qopp y).

(** [float(re.search(label_re, line).group(1))] for one label: [None] when
    the pattern is not found, [Some None] when [float] raises. *)
Definition labelled (label line : string) : option (option Q) :=
  match Re.search (Re.label_re label) line with
  | None => None
  | Some caps => Some (float_of_string (Re.group1 caps))
  end.

(** The loop [while i < len(lines)] of [parse_horizons_vectors]: [lines]
    is [lines[i:]] and [data_points] the list built so far. *)
Fixpoint parse_blocks (lines : list string) (data_points : list point)
  : list point :=
  match lines with
  | [] => data_points
  | l0 :: rest =>
      let line := strip l0 in
      if is_empty line then parse_blocks rest data_points
      else if contains "=" line && contains "A.D." line then
        let parts := split_char "=" line in
        match float_of_string (strip (nth 0 parts "")), nth_error parts 1 with
        | Some jdv, Some p1 =>
            let date_str :=
              strip (replace " TDB" "" (replace "A.D. " "" (strip p1))) in
            match rest with
            | [] => data_points                              (* break *)
            | l1 :: rest1 =>
                let pos_line := strip l1 in
                match labelled "X" pos_line, labelled "Y" pos_line,
                      labelled "Z" pos_line with
                | Some (Some x), Some (Some y), Some (Some z) =>
                    match rest1 with
                    | [] => data_points                      (* break *)
                    | l2 :: rest2 =>
                        let vel_line := strip l2 in
                        match labelled "VX" vel_line, labelled "VY" vel_line,
                              labelled "VZ" vel_line with
                        | Some (Some vx), Some (Some vy), Some (Some vz) =>
                            parse_blocks rest2
                              (data_points ++
                               [mkPoint (Some jdv) (Some date_str)
                                  (horizons_to_threejs x y z)
                                  (horizons_to_threejs vx vy vz)])%list
                        | _, _, _ =>
                            (* a label is missing: i += 1; continue.
                               [float] raised: except, then i += 1 *)
                            parse_blocks rest2 data_points
                        end
                    end
                | _, _, _ =>
                    (* a label is missing: i += 1; continue.
                       [float] raised: except, then i += 1 *)
                    parse_blocks rest1 data_points
                end
            end
        | _, _ =>
            (* [float(parts[0])] raised: except, then i += 1 *)
            parse_blocks rest data_points
        end
      else parse_blocks rest data_points
  end.

Definition parse_horizons_vectors (result_text : string) : result (list point) :=
  match Re.search Re.soe_re result_text with
  | None => Raise (ValueError "Could not find data section in Horizons result")
  | Some caps =>
      let data_section := Re.group1 caps in
      let lines := split_char nl (strip data_section) in
      Ok (parse_blocks lines [])
  end.

(** ** [generate_atlas_trajectory.py]: the CSV parser *)

(** The body of the [try] of [_parse_vector_data] on the stripped fields
    [parts] of one row; [None] when it raises. *)
Definition csv_record (parts : list string) : option point :=
  match parts with
  | p0 :: date_field :: p2 :: p3 :: p4 :: p5 :: p6 :: p7 :: _ =>
      match float_of_string p0 with
      | None => None
      | Some jd_val =>
          let date_iso :=
            if contains "A.D." date_field
            then strip (last (split_str "A.D." date_field) "")
            else date_field in
          match float_of_string p2, float_of_string p3, float_of_string p4,
                float_of_string p5, float_of_string p6, float_of_string p7 with
          | Some x, Some y, Some z, Some vx, Some vy, Some vz =>
              Some (mkPoint (Some jd_val) (Some date_iso) (x, y, z) (vx, vy, vz))
          | _, _, _, _, _, _ => None
          end
      end
  | _ => None
  end.

(** The loop [for raw_line in lines] with its flag [in_data]. *)
Fixpoint csv_rows (lines : list string) (in_data : bool) (vectors : list point)
  : list point :=
  match lines with
  | [] => vectors
  | raw_line :: rest =>
      let line := strip raw_line in
      if startswith "$$SOE" line then csv_rows rest true vectors
      else if startswith "$$EOE" line then vectors            (* break *)
      else if negb in_data || is_empty line || negb (contains "," line)
      then csv_rows rest in_data vectors
      else
        let parts := map strip (split_char "," line) in
        if Nat.ltb (List.length parts) 8 then csv_rows rest in_data vectors
        else match csv_record parts with
             | Some v => csv_rows rest in_data (vectors ++ [v])%list
             | None => csv_rows rest in_data vectors
             end
  end.

(** The function has no [raise] and every exception of a row is caught:
    it always returns a list. *)
Definition _parse_vector_data (text : string) : result (list point) :=
  Ok (csv_rows (split_char nl text) false []).

(** ** [datetime]: naive instants and [datetime.fromisoformat] *)

Module PyDatetime.

Local Open Scope Z_scope.

(** A naive [datetime]: microseconds since 0001-01-01T00:00:00. *)
Definition datetime : Type := Z.

Definition is_leap (y : Z) : bool :=
  (y mod 4 =? 0) && (negb (y mod 100 =? 0) || (y mod 400 =? 0)).

Definition days_in_month (y m : Z) : Z :=
  if m =? 2 then (if is_leap y then 29 else 28)
  else if (m =? 4) || (m =? 6) || (m =? 9) || (m =? 11) then 30
  else 31.

Definition days_before_year (y : Z) : Z :=
  let y1 := y - 1 in y1 * 365 + y1 / 4 - y1 / 100 + y1 / 400.

Fixpoint days_before_month_from (y : Z) (m : nat) : Z :=
  match m with
  | O => 0
  | S k => days_before_month_from y k + days_in_month y (Z.of_nat m)
  end.

Definition days_before_month (y m : Z) : Z :=
  days_before_month_from y (Z.to_nat (m - 1)).

(** [date(y, m, d).toordinal()] *)
Definition ymd2ord (y m d : Z) : Z :=
  days_before_year y + days_before_month y m + d.

Definition us_per_second : Z := 1000000.
Definition us_per_day : Z := 86400 * us_per_second.

(** [timedelta(days=n)] in microseconds *)
Definition timedelta_days (n : Z) : Z := n * us_per_day.

(** [datetime(y, mo, d, h, mi, s, us)]; [None] for [ValueError]. *)
Definition mk_datetime (y mo d h mi s us : Z) : option datetime :=
  if (1 <=? y) && (y <=? 9999) && (1 <=? mo) && (mo <=? 12)
     && (1 <=? d) && (d <=? days_in_month y mo)
     && (h <=? 23) && (mi <=? 59) && (s <=? 59)
  then Some (((ymd2ord y mo d - 1) * 86400 + h * 3600 + mi * 60 + s)
             * us_per_second + us)
  else None.

(** Exactly [n] decimal digits at the head of [s]. *)
Fixpoint digits (n : nat) (s : string) (acc : Z) : option (Z * string) :=
  match n with
  | O => Some (acc, s)
  | S k =>
      match s with
      | String c r =>
          if is_digit c then digits k r (10 * acc + Z.of_N (digit_val c))
          else None
      | EmptyString => None
      end
  end.

Definition expect (c : ascii) (s : string) : option string :=
  match s with
  | String c' r => if Ascii.eqb c' c then Some r else None
  | EmptyString => None
  end.

(** The fraction of a second: three or six digits. *)
Definition fraction (s : string) : option Z :=
  match digits 6 s 0 with
  | Some (us, EmptyString) => Some us
  | _ =>
      match digits 3 s 0 with
      | Some (ms, EmptyString) => Some (ms * 1000)
      | _ => None
      end
  end.

(** [HH[:MM[:SS[.fff[fff]]]]] up to the end of the string, as
    (hour, minute, second, microsecond). *)
Definition time_of (s : string) : option (Z * Z * Z * Z) :=
  match digits 2 s 0 with
  | None => None
  | Some (h, EmptyString) => Some (h, 0, 0, 0)
  | Some (h, s1) =>
      match expect ":" s1 with
      | None => None
      | Some s2 =>
          match digits 2 s2 0 with
          | None => None
          | Some (mi, EmptyString) => Some (h, mi, 0, 0)
          | Some (mi, s3) =>
              match expect ":" s3 with
              | None => None
              | Some s4 =>
                  match digits 2 s4 0 with
                  | None => None
                  | Some (sec, EmptyString) => Some (h, mi, sec, 0)
                  | Some (sec, s5) =>
                      match expect "." s5 with
                      | None => None
                      | Some s6 =>
                          match fraction s6 with
                          | Some us => Some (h, mi, sec, us)
                          | None => None
                          end
                      end
                  end
              end
          end
      end
  end.

(** [datetime.fromisoformat(s)] for [YYYY-MM-DD] and
    [YYYY-MM-DD*HH[:MM[:SS[.fff[fff]]]]] ([*] any one character), the
    format of Python 3.7 to 3.10 without a UTC offset.  [None] stands for
    [ValueError]; a string with an offset gives an aware [datetime] in
    Python, whose difference with or comparison to a naive one raises
    [TypeError] under the same [try] of the callers embedded here, and is
    [None] as well. *)
Definition fromisoformat (s : string) : option datetime :=
  match digits 4 s 0 with
  | None => None
  | Some (y, s1) =>
      match expect "-" s1 with
      | None => None
      | Some s2 =>
          match digits 2 s2 0 with
          | None => None
          | Some (mo, s3) =>
              match expect "-" s3 with
              | None => None
              | Some s4 =>
                  match digits 2 s4 0 with
                  | None => None
                  | Some (d, EmptyString) => mk_datetime y mo d 0 0 0 0
                  | Some (d, String _ tstr) =>
                      match time_of tstr with
                      | Some (h, mi, sec, us) => mk_datetime y mo d h mi sec us
                      | None => None
                      end
                  end
              end
          end
      end
  end.

End PyDatetime.
Import PyDatetime.

(** ** [update_trajectory.py]: merge and prune *)

(** [point.get('date', '').split()[0]]: [IndexError] when the date is
    missing or blank. *)
Definition date_key (p : point) : result string :=
  match split_ws (match date p with Some d => d | None => "" end) with
  | [] => Raise IndexError
  | k :: _ => Ok k
  end.

(** A [dict] keyed by strings, in insertion order: assigning to a key that
    is present keeps its place. *)
Definition dict (V : Type) : Type := list (string * V).

Fixpoint dict_set {V : Type} (k : string) (v : V) (d : dict V) : dict V :=
  match d with
  | [] => [(k, v)]
  | (k', v') :: rest =>
      if String.eqb k' k then (k, v) :: rest else (k', v') :: dict_set k v rest
  end.

Fixpoint dict_get {V : Type} (k : string) (d : dict V) : option V :=
  match d with
  | [] => None
  | (k', v') :: rest => if String.eqb k' k then Some v' else dict_get k rest
  end.

(** [list(merged.values())] *)
Definition dict_values {V : Type} (d : dict V) : list V := map snd d.

(** One of the loops [for point in ...: merged[date_key] = point]. *)
Fixpoint add_points (points : list point) (merged : dict point)
  : result (dict point) :=
  match points with
  | [] => Ok merged
  | p :: rest =>
      match date_key p with
      | Raise e => Raise e
      | Ok k =>
          if negb (is_empty k) then add_points rest (dict_set k p merged)
          else add_points rest merged
      end
  end.

(** [x.get('jd', 0)] *)
Definition jd_key (p : point) : Q :=
  match jd p with Some q => q | None => 0%Q end.

(** [list.sort(key=...)] is stable, and on keys that are totally
    preordered the stable sorted permutation is unique: a stable insertion
    sort gives it. *)
Fixpoint insert_by_jd (x : point) (l : list point) : list point :=
  match l with
  | [] => [x]
  | y :: r =>
      if Qle_bool (jd_key x) (jd_key y) then x :: l
      else y :: insert_by_jd x r
  end.

Definition sort_by_jd (l : list point) : list point :=
  fold_right insert_by_jd [] l.

Definition merge_trajectory_data (existing new : list point)
  : result (list point) :=
  match existing, new with
  | [], _ => Ok new
  | _, [] => Ok existing
  | _, _ =>
      match add_points existing [] with
      | Raise e => Raise e
      | Ok merged =>
          match add_points new merged with
          | Raise e => Raise e
          | Ok merged' => Ok (sort_by_jd (dict_values merged'))
          end
      end
  end.

(** ** The operations that read dates

    [datetime.fromisoformat] is a library function whose accepted formats
    depend on the Python version: the operations take it as a parameter
    ([None] when it raises, or when it returns an aware [datetime], whose
    difference with or comparison to a naive one raises [TypeError] under
    the same [try]); [PyDatetime.fromisoformat] is the instance used on
    concrete inputs. *)

Section DateOperations.

Variable fromisoformat : string -> option datetime.

(** The [try] body of the loops of [prune_old_data] and
    [find_position_at_date]: [datetime.fromisoformat(point['date'].split()[0])],
    [None] when it raises ([KeyError], [IndexError] or [ValueError]). *)
Definition point_datetime (p : point) : option datetime :=
  match date p with
  | None => None
  | Some d =>
      match split_ws d with
      | [] => None
      | date_str :: _ => fromisoformat date_str
      end
  end.

Fixpoint prune_loop (historical_cutoff : datetime) (trajectory pruned : list point)
  : list point :=
  match trajectory with
  | [] => pruned
  | p :: rest =>
      match point_datetime p with
      | Some point_dt =>
          if (historical_cutoff <=? point_dt)%Z
          then prune_loop historical_cutoff rest (pruned ++ [p])%list
          else prune_loop historical_cutoff rest pruned
      | None => prune_loop historical_cutoff rest (pruned ++ [p])%list
      end
  end.

Definition prune_old_data (trajectory : list point) (cutoff_date : datetime)
  : list point :=
  let historical_cutoff := (cutoff_date - timedelta_days 30)%Z in
  prune_loop historical_cutoff trajectory [].

(** [generate_trajectory.py]: the milestone locator *)

(** The state of the scan: [min_diff] ([None] for [float('inf')]) and
    [best_match].  The difference is kept in microseconds;
    [total_seconds()] divides it by 10^6, which keeps the order. *)
Definition scan_state : Type := (option Z * option vec3)%type.

Definition scan_step (target_dt : datetime) (st : scan_state) (p : point)
  : scan_state :=
  match point_datetime p with
  | None => st
  | Some point_dt =>
      let diff := Z.abs (point_dt - target_dt) in
      match fst st with
      | None => (Some diff, Some (position p))
      | Some min_diff =>
          if (diff <? min_diff)%Z then (Some diff, Some (position p)) else st
      end
  end.

Definition find_position_at_date (trajectory : list point) (target_date : string)
  : result (option vec3) :=
  match fromisoformat target_date with
  | None => Raise (ValueError "Invalid isoformat string")
  | Some target_dt =>
      Ok (snd (fold_left (scan_step target_dt) trajectory (None, None)))
  end.

End DateOperations.

(** ** The hyperbolic fallback propagators, over the real numbers *)

(** A state vector in the orbital plane or in space. *)
Definition rvec2 : Type := (R * R)%type.
Definition rvec3 : Type := (R * R * R)%type.

Definition norm2 (v : rvec2) : R := sqrt (fst v * fst v + snd v * snd v).

(** [math.radians] *)
Definition radians (deg : R) : R := (deg * PI / 180)%R.

(** The rotation from the orbital plane applied by both propagators:
    [om] is the angle whose cosine multiplies [x_orb] first (the ascending
    node), [w] the argument of perihelion, [i] the inclination. *)
Definition rotate (om w i : R) (v : rvec2) : rvec3 :=
  let '(x_orb, y_orb) := v in
  ((cos om * cos w - sin om * sin w * cos i) * x_orb
   + (- cos om * sin w - sin om * cos w * cos i) * y_orb,
   (sin om * cos w + cos om * sin w * cos i) * x_orb
   + (- sin om * sin w + cos om * cos w * cos i) * y_orb,
   (sin w * sin i) * x_orb + (cos w * sin i) * y_orb)%R.

(** *** [OrbitalMechanicsCalculator.calculate_position] *)

Module Calculator.

Local Open Scope R_scope.

Record elements : Type := mkElements {
  eccentricity : R;
  perihelion_au : R;
  ascending_node : R;     (* degrees *)
  arg_perihelion : R;     (* degrees *)
  inclination : R         (* degrees *)
}.

Definition ATLAS_ELEMENTS : elements :=
  {| eccentricity := 6.139587836355706;
     perihelion_au := 1.356419039495192;
     ascending_node := 322.1568699043938;
     arg_perihelion := 128.0099421020839;
     inclination := 175.1131015287974 |}.

(** Gravitational parameter for Sun (AU^3/day^2) *)
Definition MU_SUN : R := 2.959122083e-4.

Record state : Type := mkState {
  st_position : rvec3;
  st_velocity : rvec3;
  distance_au : R
}.

Section Position.
(** The function reads [cls.ATLAS_ELEMENTS]; the elements are a
    parameter here, and [t] is the time since perihelion in days,
    [(dt - perihelion_dt).total_seconds() / 86400.0].  The numbers are
    those of exact arithmetic: [CalculatorRun] adds the range of
    binary64, beyond which the function raises or returns nan. *)
Variable el : elements.
Variable t : R.

Let e := eccentricity el.
Let q := perihelion_au el.

(** Semi-major axis (negative for hyperbolic orbit) *)
Definition semi_major_axis : R := q / (1 - e).

(** Mean motion (rad/day): [math.sqrt(cls.MU_SUN / abs(a**3))] *)
Definition mean_motion : R := sqrt (MU_SUN / Rabs (semi_major_axis ^ 3)).

Definition mean_anomaly : R := mean_motion * t.

(** One Newton step on [M = e sinh F - F]. *)
Definition newton_step (M F : R) : R :=
  F - (e * sinh F - F - M) / (e * cosh F - 1).

(** [for _ in range(n): F = newton_step F] *)
Fixpoint newton_loop (n : nat) (M F : R) : R :=
  match n with
  | O => F
  | S k => newton_loop k M (newton_step M F)
  end.

Definition eccentric_anomaly : R :=
  let M := mean_anomaly in newton_loop 10 M M.

Definition true_anomaly : R :=
  2 * atan (sqrt ((e + 1) / (e - 1)) * tanh (eccentric_anomaly / 2)).

(** Distance from Sun *)
Definition radius : R := semi_major_axis * (1 - e * cosh eccentric_anomaly).

Definition position_orb : rvec2 :=
  (radius * cos true_anomaly, radius * sin true_anomaly).

Definition speed : R :=
  sqrt (MU_SUN * (2 / Rabs radius - 1 / semi_major_axis)).

(** Velocity direction (perpendicular to position in simplified
    model): [v_angle = nu + pi / 2]. *)
Definition velocity_direction (v_mag nu : R) : rvec2 :=
  let v_angle := nu + PI / 2 in
  (v_mag * cos v_angle, v_mag * sin v_angle).

Definition velocity_orb : rvec2 := velocity_direction speed true_anomaly.

Definition calculate_position : state :=
  let omega := radians (ascending_node el) in
  let w := radians (arg_perihelion el) in
  let i := radians (inclination el) in
  {| st_position := rotate omega w i position_orb;
     st_velocity := rotate omega w i velocity_orb;
     distance_au := Rabs radius |}.
End Position.

End Calculator.

(** *** [kepler_fallback_trajectory] *)

Module Kepler.

Local Open Scope R_scope.

(** [np.sign] *)
Definition sign (x : R) : R :=
  if Rlt_dec x 0 then -1 else if Rlt_dec 0 x then 1 else 0.

(** Gravitational parameter (AU^3/day^2): GM_sun from NASA *)
Definition mu : R := 0.000295912208286.

(** [ATLAS_ELEMENTS] of [generate_trajectory.py]: e, q and i (degrees);
    the argument of periapsis and the ascending node are fixed at 90 and
    180 degrees in the function. *)
Record elements : Type := mkElements {
  el_e : R;
  el_q : R;
  el_i : R
}.

Definition ATLAS_ELEMENTS : elements :=
  {| el_e := 6.14; el_q := 1.36; el_i := 175.0 |}.

Record state : Type := mkState {
  st_position : rvec3;
  st_velocity : rvec3
}.

(** Three.js [x, y, z] = Horizons [x, z, -y] *)
Definition horizons_to_threejs (v : rvec3) : rvec3 :=
  let '(x, y, z) := v in (x, z, - y).

Section Point.
(** [scipy.optimize.newton(func, x0, maxiter=20)] is a library call:
    the solver is a parameter, [None] when it raises. *)
Variable newton : (R -> R) -> R -> option R.
Variable el : elements.
(** Time since perihelion (in days), [dt_days] of the loop body. *)
Variable dt_days : R.

Let e := el_e el.
Let q := el_q el.

(** negative semimajor axis for hyperbolic orbit *)
Definition semi_major_axis : R := - q / (e - 1).

(** Mean motion for hyperbolic orbit: [np.sqrt(mu / abs(a)**3)] *)
Definition mean_motion : R := sqrt (mu / Rabs semi_major_axis ^ 3).

Definition mean_anomaly : R := mean_motion * dt_days.

Definition eccentric_anomaly : R :=
  let M := mean_anomaly in
  if Rlt_dec 50 (Rabs M) then
    sign M * (ln (2 * Rabs M / e)
              + ln (1 + sqrt (1 + (2 * Rabs M / e) ^ 2)))
  else
    let F_guess := sign M * ln (Rabs M + 1) in
    match newton (fun f => e * sinh f - f - M) F_guess with
    | Some F => F
    | None => sign M * ln (Rabs M + 1)
    end.

Definition true_anomaly : R :=
  let tan_half_nu := sqrt ((e + 1) / (e - 1)) * tanh (eccentric_anomaly / 2) in
  2 * atan tan_half_nu.

(** Distance from sun (radius) *)
Definition radius : R := semi_major_axis * (1 - e * cosh eccentric_anomaly).

Definition position_orb : rvec2 :=
  (radius * cos true_anomaly, radius * sin true_anomaly).

Definition speed : R :=
  if Req_dec_T radius 0 then 0
  else sqrt (mu * (2 / Rabs radius - 1 / semi_major_axis)).

(** Velocity direction: [(-sin nu, e + cos nu)] scaled by [v_mag],
    then normalized and scaled to [v_mag] again. *)
Definition velocity_direction (v_mag nu : R) : rvec2 :=
  let vx_orb := - v_mag * sin nu in
  let vy_orb := v_mag * (e + cos nu) in
  let v_norm := sqrt (vx_orb ^ 2 + vy_orb ^ 2) in
  if Rlt_dec 0 v_norm
  then (vx_orb / v_norm * v_mag, vy_orb / v_norm * v_mag)
  else (vx_orb, vy_orb).

Definition velocity_orb : rvec2 := velocity_direction speed true_anomaly.

(** The point appended for one [current_dt] (position and velocity). *)
Definition kepler_point : state :=
  let i := radians (el_i el) in
  let omega := radians 90 in
  let OMEGA := radians 180 in
  {| st_position := horizons_to_threejs (rotate OMEGA omega i position_orb);
     st_velocity := horizons_to_threejs (rotate OMEGA omega i velocity_orb) |}.
End Point.

(** The secant iteration of [scipy.optimize.newton] when no derivative is
    given (tol = 1.48e-8, rtol = 0), a model of the library used to
    instantiate the solver: [None] when it raises [RuntimeError]. *)
Definition isclose (p p1 : R) : bool :=
  if Rle_dec (Rabs (p - p1)) 1.48e-8 then true else false.

Fixpoint secant_loop (func : R -> R) (maxiter : nat) (p0 q0 p1 q1 : R)
  : option R :=
  match maxiter with
  | O => None
  | S k =>
      if Req_dec_T q1 q0 then
        (if Req_dec_T p1 p0 then Some ((p1 + p0) / 2) else None)
      else
        let p :=
          if Rlt_dec (Rabs q0) (Rabs q1)
          then (- q0 / q1 * p1 + p0) / (1 - q0 / q1)
          else (- q1 / q0 * p0 + p1) / (1 - q1 / q0) in
        if isclose p p1 then Some p
        else secant_loop func k p1 q1 p (func p)
  end.

Definition scipy_newton (func : R -> R) (x0 : R) : option R :=
  let eps := 1e-4 in
  let p0 := x0 in
  let p1 := x0 * (1 + eps) in
  let p1 := if Rle_dec 0 p1 then p1 + eps else p1 - eps in
  let q0 := func p0 in
  let q1 := func p1 in
  if Rlt_dec (Rabs q1) (Rabs q0)
  then secant_loop func 20 p1 q1 p0 q0
  else secant_loop func 20 p0 q0 p1 q1.

End Kepler.

(** ** Inputs and row predicates used by the parser properties *)

(** Componentwise equality of the values of two triples of floats. *)
Definition vec3_eq (a b : vec3) : Prop :=
  let '(a1, a2, a3) := a in
  let '(b1, b2, b3) := b in
  (a1 == b1)%Q /\ (a2 == b2)%Q /\ (a3 == b3)%Q.

(** A data section with one labeled block. *)
Definition labeled_block_text : string :=
  join nl ["$$SOE";
           "2460857.500000000 = A.D. 2025-Jul-01 00:00:00.0000 TDB";
           "X = 1.6E-01 Y =-1.0E+00 Z = 5.8E-05";
           "VX= 1.6E-02 VY= 2.6E-03 VZ= 3.6E-07";
           "$$EOE"].

(** The stripped comma-separated fields of a CSV row. *)
Definition row_fields (row : string) : list string :=
  map strip (split_char "," (strip row)).

(** [float(f)] succeeds. *)
Definition numeric (f : string) : bool :=
  match float_of_string f with Some _ => true | None => false end.

(** A well-formed row: at least 8 fields, numeric in the columns JD, X, Y,
    Z, VX, VY, VZ (the second column is the calendar date). *)
Definition well_formed_row (row : string) : bool :=
  let fs := row_fields row in
  Nat.leb 8 (List.length fs)
  && forallb (fun i => numeric (nth i fs "")) [0; 2; 3; 4; 5; 6; 7].

(** A malformed row of 7 fields (one that is not an end-marker line). *)
Definition malformed_row (row : string) : bool :=
  Nat.eqb (List.length (row_fields row)) 7
  && negb (startswith "$$EOE" (strip row)).

(** The record the parser builds for a row. *)
Definition row_record (row : string) : option point := csv_record (row_fields row).

Definition one_line (s : string) : bool := negb (contains (String nl "") s).

(** A line that is neither marker. *)
Definition plain_line (s : string) : bool :=
  one_line s && negb (startswith "$$SOE" (strip s))
  && negb (startswith "$$EOE" (strip s)).

(** A response text: lines before the data block, the block between the
    markers, lines after it. *)
Definition csv_text (before rows after : list string) : string :=
  join nl (before ++ ["$$SOE"] ++ rows ++ ["$$EOE"] ++ after)%list.

(** The records of the well-formed rows of [rows], in order. *)
Definition rows_records (rows : list string) (pts : list point) : Prop :=
  Forall2 (fun row p => row_record row = Some p)
          (filter well_formed_row rows) pts.

(** ** Predicates used by the series properties *)

(** The point's date parses to an instant strictly before [limit]. *)
Definition parses_before (fromisoformat : string -> option datetime)
           (limit : datetime) (p : point) : bool :=
  match point_datetime fromisoformat p with
  | Some point_dt => (point_dt <? limit)%Z
  | None => false
  end.

(** Distance in time from the point's date to the target, in microseconds. *)
Definition time_distance (fromisoformat : string -> option datetime)
           (target_dt : datetime) (p : point) : option Z :=
  match point_datetime fromisoformat p with
  | Some point_dt => Some (Z.abs (point_dt - target_dt))
  | None => None
  end.

(** The last point of [l] whose date key is [k]. *)
Definition has_key (k : string) (p : point) : bool :=
  match date_key p with
  | Ok k' => String.eqb k' k
  | Raise _ => false
  end.

Definition last_with_key (k : string) (l : list point) : option point :=
  find (has_key k) (rev l).

(** Ascending by Julian Date. *)
Definition jd_le (a b : point) : Prop := (jd_key a <= jd_key b)%Q.

(** A point with a date key. *)
Definition keyed (p : point) : bool :=
  match date_key p with Ok _ => true | Raise _ => false end.

(** What the scan holds after the points [done]. *)
Definition scanned (fromisoformat : string -> option datetime)
           (target_dt : datetime) (done : list point) (st : scan_state) : Prop :=
  match st with
  | (None, None) => forall p, In p done -> point_datetime fromisoformat p = None
  | (Some d, Some pos) =>
      exists pre p post,
        done = (pre ++ p :: post)%list
        /\ pos = position p
        /\ time_distance fromisoformat target_dt p = Some d
        /\ (forall p' d', In p' pre ->
              time_distance fromisoformat target_dt p' = Some d' -> (d < d')%Z)
        /\ (forall p' d', In p' post ->
              time_distance fromisoformat target_dt p' = Some d' -> (d <= d')%Z)
  | _ => False
  end.


(** [merged[date_key] = point] for a point with a date key. *)
Definition dict_put (d : dict point) (p : point) : dict point :=
  match date_key p with
  | Ok k => dict_set k p d
  | Raise _ => d
  end.

(** A dictionary whose keys are distinct and are the date keys of its
    points. *)
Definition keyed_dict (d : dict point) : Prop :=
  NoDup (map fst d) /\ forall k p, In (k, p) d -> date_key p = Ok k.


(** The solver's answer when started on a root. *)
Definition keeps_root (newton : (R -> R) -> R -> option R) : Prop :=
  forall func x0 x, func x0 = 0%R -> newton func x0 = Some x -> x = x0.

(** * More of the sources

    Further functions of the same scripts, and of
    [backend/check_current_positions.py] and
    [backend/update_all_planets.py]:
    - [generate_trajectory.py]: [fetch_horizons_data], the sampling loop
      of [kepler_fallback_trajectory], the milestone loop of
      [generate_trajectory_data];
    - [update_trajectory.py]: the merge-then-prune step and the milestone
      loop of [update_trajectory_data];
    - [backend/generate_atlas_trajectory.py]: the command normalisation
      of [HorizonsAPIClient.fetch_vectors],
      [OrbitalMechanicsCalculator.generate_planet_orbit],
      [OrbitalMechanicsCalculator.calculate_position] with the range of
      binary64, the cache test of
      [TrajectoryDataGenerator.generate_static_data];
    - [backend/check_current_positions.py]: [fetch_position];
    - [backend/update_all_planets.py]: the step size in hours of [main].

    The network is an oracle that gives the outcome of each request.  A
    loop that may not end runs on fuel.  [strftime] is a parameter. *)

(** ** [int(s)] and [str] tests *)

Module PyInt.

(** [c.isdigit()] on a character below 256: the decimal digits and the
    superscripts two, three and one, which [int] refuses. *)
Definition isdigit_char (c : ascii) : bool :=
  let n := N_of_ascii c in
  is_digit c || (n =? 178)%N || (n =? 179)%N || (n =? 185)%N.

Fixpoint all_chars (p : ascii -> bool) (s : string) : bool :=
  match s with
  | EmptyString => true
  | String c r => p c && all_chars p r
  end.

(** [s.isdigit()] *)
Definition isdigit (s : string) : bool :=
  negb (is_empty s) && all_chars isdigit_char s.

(** [int(s)] in base 10: surrounding whitespace, a sign, decimal digits
    with single underscores between them; [None] stands for [ValueError].
    The limit of Python 3.11 on the number of digits is not modelled. *)
Definition int_of_string (s : string) : option Z :=
  let '(neg, s1) := sign_of (strip s) in
  match digitpart s1 0%N 0 with
  | (v, S _, EmptyString) => Some (if neg then (- Z.of_N v)%Z else Z.of_N v)
  | _ => None
  end.

(** [s.lower()] on characters below 256. *)
Definition lower_char (c : ascii) : ascii :=
  let n := N_of_ascii c in
  if ((65 <=? n) && (n <=? 90))%N
     || ((192 <=? n) && (n <=? 222) && negb (n =? 215))%N
  then ascii_of_N (n + 32) else c.

Fixpoint lower (s : string) : string :=
  match s with
  | EmptyString => EmptyString
  | String c r => String (lower_char c) (lower r)
  end.

End PyInt.
Import PyInt.

(** ** [generate_trajectory.py]: [fetch_horizons_data] *)

Definition MAX_RETRIES : nat := 3.
Definition RETRY_DELAY : Z := 2.

(** The [try] body of one attempt, given the outcome [response] of the
    request: [Some text] is [result['result']], [None] stands for an
    exception of [requests.get], [raise_for_status] or [json()] or for a
    JSON without the key ['result'].  [None] as a result: the body
    raised. *)
Definition fetch_attempt (response : option string) : option (list point) :=
  match response with
  | None => None
  | Some result_text =>
      match parse_horizons_vectors result_text with
      | Ok (p :: ps) => Some (p :: ps)
      | Ok [] => None         (* ValueError: no data points extracted *)
      | Raise _ => None
      end
  end.

(** [for attempt in range(MAX_RETRIES)], from [attempt] with [todo]
    attempts left: the value returned and the arguments of [time.sleep], in
    order.  [responses attempt] is the outcome of the request of that
    attempt. *)
Fixpoint fetch_loop (responses : nat -> option string) (todo attempt : nat)
  : option (list point) * list Z :=
  match todo with
  | O => (None, [])
  | S k =>
      match fetch_attempt (responses attempt) with
      | Some data_points => (Some data_points, [])
      | None =>
          if Nat.ltb attempt (MAX_RETRIES - 1) then
            let wait_time := (RETRY_DELAY * 2 ^ Z.of_nat attempt)%Z in
            let '(r, slept) := fetch_loop responses k (S attempt) in
            (r, wait_time :: slept)
          else (None, [])
      end
  end.

Definition fetch_horizons_data (responses : nat -> option string)
  : option (list point) * list Z :=
  fetch_loop responses MAX_RETRIES 0.

(** ** [generate_trajectory.py], [update_trajectory.py]: the milestones *)

Record milestone : Type := mkMilestone {
  ms_name : string;
  ms_date : string;
  ms_description : string
}.

Definition MILESTONES : list milestone :=
  [ mkMilestone "Discovery" "2025-07-01"
      "3I/ATLAS discovered - first interstellar visitor of 2025";
    mkMilestone "Mars Flyby" "2025-10-03"
      "Closest approach to Mars at 0.19 AU";
    mkMilestone "Perihelion" "2025-10-29"
      "Closest approach to Sun at 1.36 AU, traveling at ~68 km/s";
    mkMilestone "Jupiter Approach" "2026-03-16"
      "Approach to Jupiter at 0.36 AU before exiting solar system" ].

(** A milestone with the position found for it. *)
Record located : Type := mkLocated {
  lm_milestone : milestone;
  lm_position : vec3
}.

Section Milestones.

Variable fromisoformat : string -> option datetime.

(** [for milestone in ...: position = find_position_at_date(...);
    if position: append]: a position is a list of three floats, true
    when it is not [None]. *)
Fixpoint locate_milestones (atlas_trajectory : list point)
         (milestones : list milestone) (found : list located)
  : result (list located) :=
  match milestones with
  | [] => Ok found
  | m :: rest =>
      match find_position_at_date fromisoformat atlas_trajectory (ms_date m) with
      | Raise e => Raise e
      | Ok (Some position) =>
          locate_milestones atlas_trajectory rest
            (found ++ [mkLocated m position])%list
      | Ok None => locate_milestones atlas_trajectory rest found
      end
  end.

Definition milestones_with_positions (atlas_trajectory : list point)
           (milestones : list milestone) : result (list located) :=
  locate_milestones atlas_trajectory milestones [].

End Milestones.

(** ** [update_trajectory.py]: the update of one object

    [merged_trajectory = merge_trajectory_data(existing_trajectory, new_data)]
    then [merged_trajectory = prune_old_data(merged_trajectory, datetime.now())]
    in [update_trajectory_data]; [now] is the value of [datetime.now()]. *)
Definition update_object (fromisoformat : string -> option datetime)
           (existing_trajectory new_data : list point) (now : datetime)
  : result (list point) :=
  match merge_trajectory_data existing_trajectory new_data with
  | Raise e => Raise e
  | Ok merged_trajectory =>
      Ok (prune_old_data fromisoformat merged_trajectory now)
  end.

(** ** [generate_atlas_trajectory.py]: [fetch_vectors] and
       [check_current_positions.py]: [fetch_position] *)

(** The command sent by [fetch_vectors]: [int] raising is caught and
    leaves the command as it is. *)
Definition normalize_command (command : string) : string :=
  if isdigit command then
    match int_of_string command with
    | Some n => if (1000000 <=? n)%Z then "'DES=" ++ command ++ "'" else command
    | None => command
    end
  else command.

(** The command sent by [fetch_position]: the same test outside any
    [try], so [int] raising leaves the function. *)
Definition position_command (object_id : string) : result string :=
  if isdigit object_id then
    match int_of_string object_id with
    | Some n =>
        Ok (if (1000000 <=? n)%Z then "'DES=" ++ object_id ++ "'" else object_id)
    | None => Raise (ValueError "invalid literal for int() with base 10")
    end
  else Ok object_id.

(** ** The range of binary64

    The largest finite binary64 number is 2^1024 - 2^971.  An exact result
    whose magnitude is beyond it overflows: an arithmetic operation then
    gives an infinity, and [math.sinh], [math.cosh] and [**] raise
    [OverflowError].  Rounding is not modelled. *)

Module Binary64.

Definition float_max_z : Z := (2 ^ 1024 - 2 ^ 971)%Z.
Definition float_max : R := IZR float_max_z.
Definition float_max_q : Q := inject_Z float_max_z.

(** A [float]: a finite number, plus infinity or nan. *)
Inductive value : Type :=
| Finite (x : R)
| PlusInf
| NaN.

Definition overflows (x : R) : bool :=
  if Rlt_dec float_max (Rabs x) then true else false.

Definition fits_q (x : Q) : bool :=
  Qle_bool x float_max_q && Qle_bool (- x)%Q float_max_q.

End Binary64.

(** What [fetch_position] returns for a row. *)
Record reading : Type := mkReading {
  rd_position : vec3;
  rd_velocity : vec3;
  rd_distance_au : Binary64.value
}.

(** [x**2]: [OverflowError], here [None], when the square of a finite
    number leaves the range; the square of an infinity is an infinity. *)
Definition square (x : Q) : option Q :=
  if Binary64.fits_q x && negb (Binary64.fits_q (x * x)%Q) then None
  else Some (x * x)%Q.

(** The length of a vector in exact arithmetic. *)
Definition euclid (v : vec3) : R :=
  let '(x, y, z) := v in sqrt (Q2R (x * x + y * y + z * z)).

(** [(x**2 + y**2 + z**2)**0.5]: a sum beyond the range is an infinity,
    and so is its square root. *)
Definition distance_of (v : vec3) : option Binary64.value :=
  let '(x, y, z) := v in
  match square x, square y, square z with
  | Some x2, Some y2, Some z2 =>
      if Binary64.fits_q (x2 + y2 + z2)%Q then Some (Binary64.Finite (euclid v))
      else Some Binary64.PlusInf
  | _, _, _ => None
  end.

(** The body of [if len(parts) >= 8] on the stripped fields [parts] of a
    row; [None] when [float] or [**] raises, which the [except] of the
    function answers by returning [None]. *)
Definition position_record (parts : list string) : option reading :=
  match float_of_string (nth 2 parts ""), float_of_string (nth 3 parts ""),
        float_of_string (nth 4 parts ""), float_of_string (nth 5 parts ""),
        float_of_string (nth 6 parts ""), float_of_string (nth 7 parts "") with
  | Some x, Some y, Some z, Some vx, Some vy, Some vz =>
      match distance_of (x, y, z) with
      | Some distance => Some (mkReading (x, y, z) (vx, vy, vz) distance)
      | None => None
      end
  | _, _, _, _, _, _ => None
  end.

(** The loop [for line in lines] of [fetch_position] with its flag
    [in_data]; [None] is the value returned at the end of the loop, at
    [break], and by the [except]. *)
Fixpoint position_scan (lines : list string) (in_data : bool) : option reading :=
  match lines with
  | [] => None
  | line :: rest =>
      if contains "$$SOE" line then position_scan rest true
      else if contains "$$EOE" line then None
      else if in_data && contains "," line then
        let parts := map strip (split_char "," line) in
        if Nat.leb 8 (List.length parts) then position_record parts
        else position_scan rest in_data
      else position_scan rest in_data
  end.

(** The part of [fetch_position] after [data.get('result', '')]. *)
Definition parse_position (result_text : string) : option reading :=
  position_scan (split_char nl result_text) false.

(** ** [update_all_planets.py]: the step size in hours *)

(** [int(step_size.replace('d', '')) * 24 if 'd' in step_size
     else int(step_size.replace('h', ''))] *)
Definition step_hours (step_size : string) : option Z :=
  if contains "d" step_size then
    match int_of_string (replace "d" "" step_size) with
    | Some n => Some (n * 24)%Z
    | None => None
    end
  else int_of_string (replace "h" "" step_size).

(** ** The sampling loops of the fallback generators *)

(** [(a - b).total_seconds() / 86400.0] *)
Definition days_between (a b : datetime) : R :=
  (IZR (a - b) / 1000000 / 86400)%R.

(** [timedelta(hours=n)] in microseconds *)
Definition timedelta_hours (n : Z) : Z := (n * 3600 * us_per_second)%Z.

(** A loop that may not end is run on [fuel]: [None] when the fuel runs
    out, [Some] of what the function returns or raises otherwise. *)
Definition run (A : Type) : Type := option (result A).

(** The values [current] takes in [while current <= end: ...;
    current += delta]. *)
Fixpoint sample_times (fuel : nat) (current end_ delta : Z) : option (list Z) :=
  match fuel with
  | O => None
  | S k =>
      if (current <=? end_)%Z
      then match sample_times k (current + delta)%Z end_ delta with
           | Some ts => Some (current :: ts)
           | None => None
           end
      else Some []
  end.

(** The number of turns of that loop for a positive [delta]. *)
Definition sample_count (current end_ delta : Z) : nat :=
  if (current <=? end_)%Z then Z.to_nat ((end_ - current) / delta + 1) else 0.

(** [datetime.max], 9999-12-31T23:59:59.999999: [current += delta] raises
    [OverflowError] beyond it. *)
Definition datetime_max : datetime := 315537897599999999%Z.

Definition dot3 (u v : rvec3) : R :=
  let '(u1, u2, u3) := u in
  let '(v1, v2, v3) := v in
  (u1 * v1 + u2 * v2 + u3 * v3)%R.

Definition norm3 (v : rvec3) : R := sqrt (dot3 v v).

(** *** [OrbitalMechanicsCalculator.generate_planet_orbit] *)

Module PlanetOrbit.

Local Open Scope R_scope.

Record params : Type := mkParams {
  radius : R;
  period : R;
  phase : R
}.

(** Simplified orbital parameters (circular approximation) *)
Definition planet_params (name : string) : option params :=
  if String.eqb name "earth" then Some (mkParams 1.0 365.25 0)
  else if String.eqb name "mars" then Some (mkParams 1.524 687.0 120)
  else if String.eqb name "jupiter" then Some (mkParams 5.203 4332.6 240)
  else None.

Record sample : Type := mkSample {
  sm_date : string;
  sm_position : rvec3;
  sm_velocity : rvec3
}.

(** Reference date for phase calculation: [datetime(2025, 7, 1)] *)
Definition ref_date : datetime := 63886924800000000%Z.

(** Position and velocity at [t] days since the reference date. *)
Definition orbit_state (p : params) (t : R) : rvec3 * rvec3 :=
  let theta := (2 * PI * t / period p) + radians (phase p) in
  let x := radius p * cos theta in
  let y := radius p * sin theta in
  let z := 0 in
  let v_mag := 2 * PI * radius p / period p in
  let vx := - v_mag * sin theta in
  let vy := v_mag * cos theta in
  let vz := 0 in
  ((x, y, z), (vx, vy, vz)).

Section Orbit.
Variable fromisoformat : string -> option datetime.
(** [current.strftime('%Y-%m-%d %H:%M:%S')] *)
Variable strftime : datetime -> string.

Definition orbit_sample (p : params) (current : datetime) : sample :=
  let t := days_between current ref_date in
  let '(pos, vel) := orbit_state p t in
  mkSample (strftime current) pos vel.

Fixpoint orbit_loop (fuel : nat) (p : params) (current end_ : datetime)
         (delta : Z) (trajectory : list sample) : option (list sample) :=
  match fuel with
  | O => None
  | S k =>
      if (current <=? end_)%Z
      then orbit_loop k p (current + delta)%Z end_ delta
             (trajectory ++ [orbit_sample p current])%list
      else Some trajectory
  end.

Definition generate_planet_orbit (fuel : nat) (planet_name : string)
           (start_date end_date : string) (hours_step : Z)
  : run (list sample) :=
  match planet_params (lower planet_name) with
  | None => Some (Ok [])
  | Some p =>
      match fromisoformat start_date with
      | None => Some (Raise (ValueError "Invalid isoformat string"))
      | Some current =>
          match fromisoformat end_date with
          | None => Some (Raise (ValueError "Invalid isoformat string"))
          | Some end_ =>
              match orbit_loop fuel p current end_
                      (timedelta_hours hours_step) [] with
              | Some trajectory => Some (Ok trajectory)
              | None => None
              end
          end
      end
  end.
End Orbit.

End PlanetOrbit.

(** *** [kepler_fallback_trajectory], the whole function *)

Module KeplerTrajectory.

Local Open Scope R_scope.

Record sample : Type := mkSample {
  sm_jd : R;
  sm_date : string;
  sm_state : Kepler.state
}.

(** [ATLAS_ELEMENTS['perihelion_date']] *)
Definition perihelion_date : string := "2025-10-29".

(** [datetime(2000, 1, 1, 12, 0, 0)] *)
Definition j2000 : datetime := 63082324800000000%Z.

Section Trajectory.
Variable fromisoformat : string -> option datetime.
Variable strftime : datetime -> string.
Variable newton : (R -> R) -> R -> option R.
Variable el : Kepler.elements.

(** The body of the loop for one [current_dt]. *)
Definition kepler_sample (perihelion_dt current_dt : datetime) : sample :=
  let dt_days := days_between current_dt perihelion_dt in
  let jd := 2451545.0 + days_between current_dt j2000 in
  mkSample jd (strftime current_dt) (Kepler.kepler_point newton el dt_days).

Fixpoint kepler_loop (fuel : nat) (perihelion_dt current_dt end_dt : datetime)
         (delta : Z) (data_points : list sample) : option (list sample) :=
  match fuel with
  | O => None
  | S k =>
      if (current_dt <=? end_dt)%Z
      then kepler_loop k perihelion_dt (current_dt + delta)%Z end_dt delta
             (data_points ++ [kepler_sample perihelion_dt current_dt])%list
      else Some data_points
  end.

Definition kepler_fallback_trajectory (fuel : nat)
           (start_date end_date : string) (step_hours : Z)
  : run (list sample) :=
  match fromisoformat start_date with
  | None => Some (Raise (ValueError "Invalid isoformat string"))
  | Some start_dt =>
      match fromisoformat end_date with
      | None => Some (Raise (ValueError "Invalid isoformat string"))
      | Some end_dt =>
          match fromisoformat perihelion_date with
          | None => Some (Raise (ValueError "Invalid isoformat string"))
          | Some perihelion_dt =>
              match kepler_loop fuel perihelion_dt start_dt end_dt
                      (timedelta_hours step_hours) [] with
              | Some data_points => Some (Ok data_points)
              | None => None
              end
          end
      end
  end.
End Trajectory.

End KeplerTrajectory.

(** ** [OrbitalMechanicsCalculator.calculate_position] on binary64

    The function as it runs: [math.sinh] and [math.cosh] raise
    [OverflowError] when their result leaves the range of binary64, and a
    product beyond the range is an infinity, after which the Newton
    quotient is nan.  The elements are those of the class, or elements
    like them: finite numbers with e > 1 and q > 0 for which the
    semi-major axis, its cube and the mean motion are ordinary numbers, so
    that no other operation of the function leaves the range, no
    denominator vanishes and no square root has a negative argument. *)

Module CalculatorRun.

Import Binary64.
Local Open Scope R_scope.

(** [perihelion_dt = datetime(2025, 10, 29, 11, 33, 16)] *)
Definition perihelion_dt : datetime := 63897334396000000%Z.

Section Run.
Variable el : Calculator.elements.

Let e := Calculator.eccentricity el.
Let a := Calculator.semi_major_axis el.

(** One turn of the loop,
    [F = F - (e * math.sinh(F) - F - M) / (e * math.cosh(F) - 1)]:
    - [math.sinh(F)] or [math.cosh(F)] out of range: [OverflowError];
    - [e * math.sinh(F)] out of range: an infinity, and then
      [e * math.cosh(F)] is one too and the quotient is nan;
    - only [e * math.cosh(F)] out of range: the quotient is 0;
    - a nan or infinite [F]: nan. *)
Definition newton_turn (M : R) (F : value) : result value :=
  match F with
  | Finite f =>
      if overflows (sinh f) || overflows (cosh f) then Raise OverflowError
      else if overflows (e * sinh f) then Ok NaN
      else if overflows (e * cosh f) then Ok (Finite f)
      else Ok (Finite (Calculator.newton_step el M f))
  | PlusInf | NaN => Ok NaN
  end.

(** [for _ in range(n): ...] *)
Fixpoint newton_run (n : nat) (M : R) (F : value) : result value :=
  match n with
  | O => Ok F
  | S k =>
      match newton_turn M F with
      | Ok F' => newton_run k M F'
      | Raise x => Raise x
      end
  end.

(** The state computed from a finite [F], when every number of it is
    finite. *)
Definition state_at (F : R) : Calculator.state :=
  let nu := 2 * atan (sqrt ((e + 1) / (e - 1)) * tanh (F / 2)) in
  let r := a * (1 - e * cosh F) in
  let position_orb := (r * cos nu, r * sin nu) in
  let v_mag := sqrt (Calculator.MU_SUN * (2 / Rabs r - 1 / a)) in
  let velocity_orb := Calculator.velocity_direction v_mag nu in
  let omega := radians (Calculator.ascending_node el) in
  let w := radians (Calculator.arg_perihelion el) in
  let i := radians (Calculator.inclination el) in
  {| Calculator.st_position := rotate omega w i position_orb;
     Calculator.st_velocity := rotate omega w i velocity_orb;
     Calculator.distance_au := Rabs r |}.

(** [calculate_position] at [t] days from perihelion: [Raise] when it
    raises, [Ok None] when it returns a state that holds a nan or an
    infinity, [Ok (Some st)] when it returns the finite state [st].
    After the loop, [r = a * (1 - e * math.cosh(F))] calls
    [math.cosh] once more; a nan [F] makes every number that depends
    on it nan, and no later call raises on a nan. *)
Definition calculate_position (t : R) : result (option Calculator.state) :=
  let M := Calculator.mean_anomaly el t in
  match newton_run 10 M (Finite M) with
  | Raise x => Raise x
  | Ok (Finite F) =>
      if overflows (cosh F) then Raise OverflowError
      else if overflows (e * cosh F) || overflows (a * (1 - e * cosh F))
      then Ok None
      else Ok (Some (state_at F))
  | Ok _ => Ok None
  end.
End Run.


End CalculatorRun.

(** ** [TrajectoryDataGenerator.generate_static_data]: the cache test *)

(** [td.days] of a [timedelta] given in microseconds: the floor. *)
Definition days_of (td : Z) : Z := (td / us_per_day)%Z.

(** The [try] that decides whether the cached file is used, when
    [force_api] is false and the file exists: [generated] is
    [cached_data['metadata']['generated']] ([None] when a key is missing)
    and [now] is [datetime.now()]; an exception in the [try] answers
    "regenerate", like an expired cache. *)
Definition cache_valid (fromisoformat : string -> option datetime)
           (generated : option string) (now : datetime) : bool :=
  match generated with
  | None => false
  | Some g =>
      match fromisoformat g with
      | None => false
      | Some generated_time =>
          let cache_age := (now - generated_time)%Z in
          (days_of cache_age <? 7)%Z
      end
  end.

(** ** Notions used by the further properties *)

(** The continuation that ends a search: the groups captured. *)
Definition groups_found : string -> list string -> option (list string) :=
  fun _ caps => Some caps.

(** The data-section pattern after the whitespace that follows the start
    marker, and after the line break. *)
Definition section_re : Re.regex :=
  Re.Cat (Re.Grp (Re.LazyStar Re.any_char)) (Re.lits "$$EOE" Re.Eps).

Definition after_space (s : string) : option (list string) :=
  Re.rmatch (Re.Cat (Re.Chr nl) section_re) s [] groups_found.

(** A date string without a time part: at most 10 characters.  It cannot
    carry a UTC offset, so [datetime.fromisoformat] returns no aware
    [datetime] for it: when the parser gives [None] for such a string,
    Python raises [ValueError]. *)
Definition date_only (s : string) : bool := Nat.leb (String.length s) 10.

(** The coordinates of a row are well within the range when the sum of
    their squares is at most 2^1023, half the largest power of two of
    binary64: then no square raises, and the sum and the distance are
    finite, whatever the rounding. *)
Definition row_in_range (row : string) : bool :=
  match csv_record (row_fields row) with
  | Some p =>
      let '(x, y, z) := position p in
      Qle_bool (x * x + y * y + z * z)%Q (inject_Z (2 ^ 1023))
  | None => false
  end.

(** A line that holds neither marker anywhere, as [fetch_position] tests
    it ([in], not [startswith]). *)
Definition no_marker (line : string) : bool :=
  one_line line && negb (contains "$$SOE" line) && negb (contains "$$EOE" line).

(** A line without markers of fewer than 8 comma-separated fields, and one
    of at least 8. *)
Definition short_row (line : string) : bool :=
  no_marker line && Nat.ltb (List.length (split_char "," line)) 8.

Definition full_row (line : string) : bool :=
  no_marker line && Nat.leb 8 (List.length (split_char "," line)).

(** * Properties *)

(** ** The library models on concrete inputs *)

Example strip_example : strip "  a b  " = "a b".
Proof. reflexivity. Qed.

Example split_ws_example : split_ws "  2025-07-01   06:00:00 " = ["2025-07-01"; "06:00:00"].
Proof. reflexivity. Qed.

Example split_char_example : split_char "," "1,,2," = ["1"; ""; "2"; ""].
Proof. reflexivity. Qed.

Example split_str_example : split_str "A.D." "xA.D.yA.D." = ["x"; "y"; ""].
Proof. reflexivity. Qed.

Example replace_example :
  replace " TDB" "" (replace "A.D. " "" "A.D. 2025-Jul-01 00:00:00.0000 TDB")
  = "2025-Jul-01 00:00:00.0000".
Proof. reflexivity. Qed.

Example float_examples :
  float_of_string " 1.6E-01 " = Some (4 # 25)%Q
  /\ float_of_string "-1.0E+00" = Some (-1 # 1)%Q
  /\ float_of_string "2460857.500000000" = Some (4921715 # 2)%Q
  /\ float_of_string ".5e2" = Some (50 # 1)%Q
  /\ float_of_string "1_000.5" = Some (2001 # 2)%Q
  /\ float_of_string "1_" = None
  /\ float_of_string "." = None
  /\ float_of_string "1e" = None
  /\ float_of_string "A.D. 2025" = None
  /\ float_of_string "" = None.
Proof. repeat split; reflexivity. Qed.

Example label_search_example :
  Re.search (Re.label_re "Y") "X = 1.6E-01 Y =-1.0E+00 Z = 5.8E-05"
  = Some ["-1.0E+00"]
  /\ Re.search (Re.label_re "Z") "X = 1.6E-01 Y =-1.0E+00" = None.
Proof. split; reflexivity. Qed.

Example soe_search_example :
  Re.search Re.soe_re (join nl ["header"; "$$SOE  "; "a"; "b"; "$$EOE"; "c"; "$$EOE"])
  = Some [join nl ["a"; "b"; ""]].
Proof. reflexivity. Qed.

Example fromisoformat_examples :
  PyDatetime.fromisoformat "2025-07-01" = Some (739432 * us_per_day)%Z
  /\ PyDatetime.fromisoformat "2025-07-01 06:00:00"
     = Some (739432 * us_per_day + 6 * 3600 * us_per_second)%Z
  /\ PyDatetime.fromisoformat "0001-01-01" = Some 0%Z
  /\ PyDatetime.fromisoformat "2024-02-29" <> None
  /\ PyDatetime.fromisoformat "2025-02-29" = None
  /\ PyDatetime.fromisoformat "2025-Jul-01" = None.
Proof. repeat split; try reflexivity. discriminate. Qed.

(** The sort is stable: points with equal Julian Dates keep their order. *)
Example sort_stable_example :
  sort_by_jd
    [mkPoint (Some 2%Q) (Some "b") (0, 0, 0)%Q (0, 0, 0)%Q;
     mkPoint (Some 1%Q) (Some "a1") (0, 0, 0)%Q (0, 0, 0)%Q;
     mkPoint (Some 1%Q) (Some "a2") (0, 0, 0)%Q (0, 0, 0)%Q]
  = [mkPoint (Some 1%Q) (Some "a1") (0, 0, 0)%Q (0, 0, 0)%Q;
     mkPoint (Some 1%Q) (Some "a2") (0, 0, 0)%Q (0, 0, 0)%Q;
     mkPoint (Some 2%Q) (Some "b") (0, 0, 0)%Q (0, 0, 0)%Q].
Proof. reflexivity. Qed.

(** ** Substrings *)

Section Substrings.

Lemma prefix_app (p s : string) :
  String.prefix p s = true <-> exists b, s = p ++ b.
Proof.
  revert s; induction p as [|c p IH]; intros s.
  - destruct s; simpl; split; eauto.
  - destruct s as [|c' s]; simpl;
      [split; [discriminate | intros [b Hb]; discriminate]|].
    destruct (ascii_dec c c') as [->|Hne].
    + rewrite IH. split; intros [b Hb]; exists b; simpl; congruence.
    + split; [discriminate | intros [b Hb]; simpl in Hb; congruence].
Qed.

Lemma contains_iff (sub s : string) :
  contains sub s = true <-> exists a b, s = a ++ sub ++ b.
Proof.
  induction s as [|c s IH]; cbn [contains].
  - rewrite orb_false_r, prefix_app. split.
    + intros [b Hb]. now exists "", b.
    + intros [a [b Hb]]. destruct a; simpl in Hb; [now exists b | discriminate].
  - rewrite orb_true_iff, IH, prefix_app. split.
    + intros [[b Hb]|[a [b Hb]]].
      * now exists "", b.
      * exists (String c a), b. simpl. now rewrite Hb.
    + intros [a [b Hb]]. destruct a as [|c' a]; simpl in Hb.
      * left. now exists b.
      * right. exists a, b. congruence.
Qed.

Lemma append_assoc (a b c : string) : (a ++ b) ++ c = a ++ (b ++ c).
Proof. induction a; simpl; congruence. Qed.

(** A substring of a piece is a substring of the whole. *)
Lemma contains_piece (sub l s a b : string) :
  s = a ++ l ++ b -> contains sub l = true -> contains sub s = true.
Proof.
  intros -> H. apply contains_iff in H as [a' [b' ->]].
  apply contains_iff. exists (a ++ a'), (b' ++ b).
  now rewrite !append_assoc.
Qed.

Lemma lstrip_piece (s : string) : exists a, s = a ++ lstrip s.
Proof.
  induction s as [|c s [a IH]]; simpl.
  - now exists "".
  - destruct (is_space c).
    + exists (String c a). simpl. congruence.
    + now exists "".
Qed.

Lemma rstrip_piece (s : string) : exists b, s = rstrip s ++ b.
Proof.
  induction s as [|c s [b IH]]; simpl.
  - now exists "".
  - destruct (rstrip s) as [|c' r'] eqn:E.
    + destruct (is_space c).
      * exists (String c s). reflexivity.
      * exists b. simpl in *. congruence.
    + exists b. simpl in *. congruence.
Qed.

Lemma strip_piece (s : string) : exists a b, s = a ++ strip s ++ b.
Proof.
  unfold strip. destruct (lstrip_piece s) as [a Ha].
  destruct (rstrip_piece (lstrip s)) as [b Hb].
  exists a, b. congruence.
Qed.

Lemma split_char_pieces (sep : ascii) (s : string) :
  exists w ws, split_char sep s = w :: ws
               /\ (exists b, s = w ++ b)
               /\ forall l, In l ws -> exists a b, s = a ++ l ++ b.
Proof.
  induction s as [|c s (w & ws & E & [b Hb] & Hws)]; simpl.
  - exists "", []. repeat split; [now exists "" | intros l []].
  - destruct (Ascii.eqb c sep).
    + exists "", (split_char sep s). repeat split; [now exists (String c s)|].
      rewrite E. intros l [<-|H].
      * exists (String c ""), b. simpl. congruence.
      * destruct (Hws l H) as [a' [b' ->]]. now exists (String c a'), b'.
    + rewrite E. exists (String c w), ws. repeat split.
      * exists b. simpl. congruence.
      * intros l H. destruct (Hws l H) as [a' [b' ->]]. now exists (String c a'), b'.
Qed.

Lemma split_char_piece (sep : ascii) (s l : string) :
  In l (split_char sep s) -> exists a b, s = a ++ l ++ b.
Proof.
  destruct (split_char_pieces sep s) as (w & ws & -> & [b Hb] & Hws).
  intros [<-|H]; [now exists "", b | now apply Hws].
Qed.

(** A line of a text, stripped, contains only what the text contains. *)
Lemma contains_stripped_line (sub text l : string) :
  In l (split_char nl text) ->
  contains sub (strip l) = true -> contains sub text = true.
Proof.
  intros Hin Hc.
  destruct (split_char_piece _ _ _ Hin) as [a [b Hs]].
  destruct (strip_piece l) as [a' [b' Hl]].
  eapply contains_piece; [exact Hs|].
  eapply contains_piece; [exact Hl | exact Hc].
Qed.

Lemma prefix_contains (p s : string) :
  String.prefix p s = true -> contains p s = true.
Proof. intros H. destruct s; cbn [contains]; now rewrite H. Qed.

End Substrings.

(** ** No start marker *)

Section NoMarker.

Lemma rmatch_lits {A : Type} (p : string) (tail : Re.regex) (s : string)
      (caps : list string) (k : string -> list string -> option A) (x : A) :
  Re.rmatch (Re.lits p tail) s caps k = Some x -> String.prefix p s = true.
Proof.
  revert s; induction p as [|c p IH]; intros s H.
  - now destruct s.
  - destruct s as [|c' s]; simpl in H; [discriminate|].
    destruct (Ascii.eqb_spec c' c) as [->|Hne]; [|discriminate].
    simpl. destruct (ascii_dec c c); [eauto | congruence].
Qed.

Lemma search_soe_marker (s : string) (caps : list string) :
  Re.search Re.soe_re s = Some caps -> contains "$$SOE" s = true.
Proof.
  induction s as [|c s IH]; cbn [Re.search];
    destruct (Re.rmatch Re.soe_re _ [] _) eqn:E.
  - intros _. apply prefix_contains. eapply rmatch_lits. exact E.
  - discriminate.
  - intros _. apply prefix_contains. eapply rmatch_lits. exact E.
  - intros H. cbn [contains]. rewrite (IH H). apply orb_true_r.
Qed.

Lemma csv_rows_outside (lines : list string) (vectors : list point) :
  (forall l, In l lines -> startswith "$$SOE" (strip l) = false) ->
  csv_rows lines false vectors = vectors.
Proof.
  induction lines as [|l lines IH]; intros H; cbn [csv_rows]; [reflexivity|].
  rewrite (H l (or_introl eq_refl)).
  destruct (startswith "$$EOE" (strip l)); [reflexivity|].
  cbn [negb orb]. apply IH. intros l' Hl'. apply H. now right.
Qed.

End NoMarker.

(** C1, as stated, fails for the CSV parser: on a text without the start
    marker (here the empty text) it returns the empty list and raises
    nothing. *)
Lemma C1_csv_no_marker_returns :
  contains "$$SOE" "" = false
  /\ _parse_vector_data "" = Ok []
  /\ ~ (exists e, _parse_vector_data "" = Raise e).
Proof.
  repeat split. intros [e H]. discriminate H.
Qed.

(** C1 (amended): on every text in which the start marker [$$SOE] never
    occurs, the labeled-block parser [parse_horizons_vectors] raises
    [ValueError] (no data section), and the CSV parser [_parse_vector_data]
    returns the empty list. *)
Theorem C1_no_start_marker (text : string) :
  contains "$$SOE" text = false ->
  parse_horizons_vectors text
  = Raise (ValueError "Could not find data section in Horizons result")
  /\ _parse_vector_data text = Ok [].
Proof.
  intros Hno. split.
  - unfold parse_horizons_vectors.
    destruct (Re.search Re.soe_re text) as [caps|] eqn:E; [|reflexivity].
    apply search_soe_marker in E. congruence.
  - unfold _parse_vector_data. f_equal. apply csv_rows_outside.
    intros l Hl. unfold startswith.
    destruct (String.prefix "$$SOE" (strip l)) eqn:E; [|reflexivity].
    apply prefix_contains in E.
    apply (contains_stripped_line _ _ _ Hl) in E. congruence.
Qed.

Lemma C1_no_start_marker_witness :
  parse_horizons_vectors "no data here $$EOE"
  = Raise (ValueError "Could not find data section in Horizons result")
  /\ _parse_vector_data "no data here $$EOE" = Ok [].
Proof.
  apply (C1_no_start_marker "no data here $$EOE"). reflexivity.
Defined.

(** ** The labeled block of the specification *)

(** C2, as stated, fails: the record's position is not
    (0.16, -1.0, 0.000058) and its velocity is not
    (0.016, 0.0026, 0.00000036), because the parser stores the Three.js
    triple [x, z, -y]. *)
Lemma C2_position_not_as_stated :
  exists p,
    parse_horizons_vectors labeled_block_text = Ok [p]
    /\ ~ vec3_eq (position p) (0.16, -1.0, 0.000058)%Q
    /\ ~ vec3_eq (velocity p) (0.016, 0.0026, 0.00000036)%Q.
Proof.
  eexists. split; [vm_compute; reflexivity|].
  split; intros (_ & H & _); vm_compute in H; discriminate H.
Qed.

(** C2 (amended): on the data section with the header line, the position
    line and the velocity line of the claim, the labeled-block parser
    returns exactly one record; its position is (0.16, 0.000058, 1.0) and
    its velocity is (0.016, 0.00000036, -0.0026), the parsed (x, y, z)
    through [horizons_to_threejs], that is [x, z, -y]. *)
Theorem C2_labeled_block :
  exists p,
    parse_horizons_vectors labeled_block_text = Ok [p]
    /\ vec3_eq (position p) (0.16, 0.000058, 1.0)%Q
    /\ vec3_eq (velocity p) (0.016, 0.00000036, -0.0026)%Q
    /\ position p = horizons_to_threejs (4 # 25) (-1 # 1) (29 # 500000)
    /\ velocity p = horizons_to_threejs (2 # 125) (13 # 5000) (9 # 25000000)
    /\ date p = Some "2025-Jul-01 00:00:00.0000".
Proof.
  eexists. split; [vm_compute; reflexivity|].
  repeat split; vm_compute; congruence.
Qed.

(** ** The CSV block *)

Section CsvBlock.

Lemma contains_char_cons (c a : ascii) (s : string) :
  contains (String c "") (String a s)
  = Ascii.eqb a c || contains (String c "") s.
Proof.
  cbn [contains String.prefix].
  destruct (ascii_dec c a) as [->|Hne].
  - rewrite Ascii.eqb_refl. now destruct s.
  - destruct (Ascii.eqb_spec a c); [congruence | reflexivity].
Qed.

Lemma split_char_app (c : ascii) (x t : string) :
  contains (String c "") x = false ->
  split_char c (x ++ String c t) = x :: split_char c t.
Proof.
  induction x as [|a x IH]; intros H.
  - simpl. now rewrite Ascii.eqb_refl.
  - rewrite contains_char_cons in H. apply orb_false_elim in H as [Ha Hx].
    simpl. rewrite Ha, (IH Hx). reflexivity.
Qed.

Lemma split_char_none (c : ascii) (x : string) :
  contains (String c "") x = false -> split_char c x = [x].
Proof.
  induction x as [|a x IH]; intros H; [reflexivity|].
  rewrite contains_char_cons in H. apply orb_false_elim in H as [Ha Hx].
  simpl. rewrite Ha, (IH Hx). reflexivity.
Qed.

Lemma split_join (ls : list string) :
  ls <> [] -> forallb one_line ls = true -> split_char nl (join nl ls) = ls.
Proof.
  induction ls as [|x ls IH]; [congruence|]. intros _ H.
  cbn [forallb] in H. apply andb_prop in H as [Hx Hls].
  unfold one_line in Hx. apply negb_true_iff in Hx.
  destruct ls as [|y ls].
  - simpl. now apply split_char_none.
  - change (join nl (x :: y :: ls)) with (x ++ String nl (join nl (y :: ls))).
    rewrite (split_char_app _ _ _ Hx), IH; [reflexivity | discriminate | exact Hls].
Qed.

Lemma split_char_length_contains (c : ascii) (s : string) :
  2 <= List.length (split_char c s) -> contains (String c "") s = true.
Proof.
  induction s as [|a s IH]; [simpl; lia|].
  rewrite contains_char_cons. simpl.
  destruct (Ascii.eqb a c); [reflexivity|].
  destruct (split_char c s) as [|w ws]; simpl in *; [lia|]. exact IH.
Qed.

(** A numeric field does not start with a dollar sign. *)
Lemma numeric_not_dollar (f r : string) :
  strip f = String "$" r -> float_of_string f = None.
Proof.
  intros H. unfold float_of_string. rewrite H. reflexivity.
Qed.

Lemma rstrip_head (c : ascii) (s : string) :
  is_space c = false -> exists r, rstrip (String c s) = String c r.
Proof.
  intros H. simpl. destruct (rstrip s); rewrite ?H; eauto.
Qed.

(** A stripped string that starts with a non-space character [c]:
    stripping any prefix of it that holds [c] keeps [c] in front. *)
Lemma strip_head (c : ascii) (s : string) :
  is_space c = false -> exists r, strip (String c s) = String c r.
Proof.
  intros H. unfold strip. simpl. rewrite H. now apply rstrip_head.
Qed.

Lemma split_char_head (sep c : ascii) (s : string) :
  Ascii.eqb c sep = false ->
  exists w ws, split_char sep (String c s) = String c w :: ws.
Proof.
  intros H. simpl. rewrite H. destruct (split_char sep s); eauto.
Qed.

(** The first field of a line that starts with a marker is not numeric. *)
Lemma marker_row_not_numeric (line r : string) :
  line = String "$" r -> numeric (nth 0 (map strip (split_char "," line)) "") = false.
Proof.
  intros ->.
  destruct (split_char_head "," "$" r eq_refl) as (w & ws & ->).
  cbn [map nth]. destruct (strip_head "$" w eq_refl) as [r' Hr'].
  rewrite Hr'. destruct (strip_head "$" r' eq_refl) as [r2 Hr2].
  unfold numeric. now rewrite (numeric_not_dollar _ _ Hr2).
Qed.

Lemma prefix_dollar (p line : string) :
  String.prefix (String "$" p) line = true -> exists r, line = String "$" r.
Proof.
  intros H. apply prefix_app in H as [b ->]. simpl. eauto.
Qed.

Lemma well_formed_not_marker (row : string) :
  well_formed_row row = true ->
  startswith "$$SOE" (strip row) = false
  /\ startswith "$$EOE" (strip row) = false.
Proof.
  unfold well_formed_row, row_fields, startswith. intros H.
  apply andb_prop in H as [_ H]. cbn [forallb] in H.
  apply andb_prop in H as [H0 _].
  split.
  - destruct (String.prefix "$$SOE" (strip row)) eqn:E; [|reflexivity].
    apply prefix_dollar in E as [r Hr].
    rewrite (marker_row_not_numeric _ _ Hr) in H0. discriminate.
  - destruct (String.prefix "$$EOE" (strip row)) eqn:E; [|reflexivity].
    apply prefix_dollar in E as [r Hr].
    rewrite (marker_row_not_numeric _ _ Hr) in H0. discriminate.
Qed.

Lemma well_formed_record (row : string) :
  well_formed_row row = true -> exists p, row_record row = Some p.
Proof.
  unfold well_formed_row, row_record. intros H.
  apply andb_prop in H as [Hlen H].
  apply Nat.leb_le in Hlen.
  destruct (row_fields row) as [|f0 [|f1 [|f2 [|f3 [|f4 [|f5 [|f6 [|f7 fs]]]]]]]];
    simpl in Hlen; try lia.
  cbn [forallb nth] in H. unfold numeric in H. unfold csv_record.
  destruct (float_of_string f0); [|discriminate].
  destruct (float_of_string f2); [|discriminate].
  destruct (float_of_string f3); [|discriminate].
  destruct (float_of_string f4); [|discriminate].
  destruct (float_of_string f5); [|discriminate].
  destruct (float_of_string f6); [|discriminate].
  destruct (float_of_string f7); [|discriminate].
  eauto.
Qed.

(** One turn of the loop on a well-formed row, inside the block. *)
Lemma csv_rows_well_formed (row : string) (rest : list string)
      (vectors : list point) (p : point) :
  well_formed_row row = true -> row_record row = Some p ->
  csv_rows (row :: rest) true vectors = csv_rows rest true (vectors ++ [p]).
Proof.
  intros Hwf Hrec. destruct (well_formed_not_marker _ Hwf) as [Hs He].
  cbn [csv_rows]. rewrite Hs, He. cbn [negb orb].
  unfold well_formed_row in Hwf. apply andb_prop in Hwf as [Hlen _].
  apply Nat.leb_le in Hlen. unfold row_fields in Hlen.
  assert (Hc : contains "," (strip row) = true).
  { apply split_char_length_contains. rewrite length_map in Hlen. lia. }
  rewrite Hc. cbn [negb orb].
  destruct (strip row) eqn:E; [discriminate Hc|]. cbn [is_empty].
  unfold row_record, row_fields in Hrec. rewrite E in Hrec.
  destruct (Nat.ltb_spec (List.length (map strip (split_char "," (String a s)))) 8);
    [lia|].
  now rewrite Hrec.
Qed.

(** One turn of the loop on a malformed row, inside the block. *)
Lemma csv_rows_malformed (row : string) (rest : list string)
      (vectors : list point) :
  malformed_row row = true ->
  csv_rows (row :: rest) true vectors = csv_rows rest true vectors.
Proof.
  unfold malformed_row, row_fields. intros H.
  apply andb_prop in H as [Hlen He].
  apply Nat.eqb_eq in Hlen. apply negb_true_iff in He.
  cbn [csv_rows]. rewrite He.
  destruct (startswith "$$SOE" (strip row)); [reflexivity|].
  destruct (negb true || is_empty (strip row) || negb (contains "," (strip row)));
    [reflexivity|].
  rewrite Hlen. reflexivity.
Qed.

Lemma csv_rows_block (rows tail : list string) (vectors : list point) :
  forallb (fun r => well_formed_row r || malformed_row r) rows = true ->
  exists pts,
    rows_records rows pts
    /\ csv_rows (rows ++ tail) true vectors = csv_rows tail true (vectors ++ pts).
Proof.
  revert vectors; induction rows as [|row rows IH]; intros vectors H.
  - exists []. split; [constructor | now rewrite app_nil_r].
  - cbn [forallb] in H. apply andb_prop in H as [Hrow Hrows].
    unfold rows_records. cbn [filter].
    destruct (well_formed_row row) eqn:Hwf.
    + destruct (well_formed_record _ Hwf) as [p Hp].
      destruct (IH (vectors ++ [p])%list Hrows) as (pts & Hpts & Heq).
      exists (p :: pts). split; [now constructor|].
      cbn [app]. rewrite (csv_rows_well_formed _ _ _ _ Hwf Hp), Heq.
      now rewrite <- app_assoc.
    + cbn [orb] in Hrow.
      destruct (IH vectors Hrows) as (pts & Hpts & Heq).
      exists pts. split; [exact Hpts|].
      cbn [app]. now rewrite (csv_rows_malformed _ _ _ Hrow).
Qed.

Lemma csv_rows_before (before rest : list string) (vectors : list point) :
  forallb plain_line before = true ->
  csv_rows (before ++ rest) false vectors = csv_rows rest false vectors.
Proof.
  induction before as [|l before IH]; intros H; [reflexivity|].
  cbn [forallb] in H. apply andb_prop in H as [Hl Hb].
  unfold plain_line in Hl. apply andb_prop in Hl as [Hl He].
  apply andb_prop in Hl as [_ Hs].
  apply negb_true_iff in He, Hs.
  cbn [app csv_rows]. rewrite Hs, He. cbn [negb orb]. now apply IH.
Qed.

End CsvBlock.

(** C5: for a response whose data block, between the markers, holds
    well-formed rows (at least 8 fields, numeric in the columns the parser
    converts) and malformed rows of 7 fields, the CSV parser returns one
    record per well-formed row, in the order of the rows; with 3
    well-formed rows and 1 malformed row it returns exactly 3 records. *)
Theorem C5_csv_block (before rows after : list string) :
  forallb plain_line before = true ->
  forallb one_line rows = true ->
  forallb one_line after = true ->
  forallb (fun r => well_formed_row r || malformed_row r) rows = true ->
  List.length (filter well_formed_row rows) = 3 ->
  List.length (filter malformed_row rows) = 1 ->
  exists p1 p2 p3,
    _parse_vector_data (csv_text before rows after) = Ok [p1; p2; p3]
    /\ Forall2 (fun row p => row_record row = Some p)
               (filter well_formed_row rows) [p1; p2; p3].
Proof.
  intros Hb Hr Ha Hrows H3 _.
  destruct (csv_rows_block rows (["$$EOE"] ++ after)%list [] Hrows) as (pts & Hpts & Heq).
  assert (Hlen : List.length pts = 3).
  { unfold rows_records in Hpts. apply Forall2_length in Hpts. lia. }
  destruct pts as [|p1 [|p2 [|p3 [|p4 pts]]]]; simpl in Hlen; try lia.
  exists p1, p2, p3. split; [|exact Hpts].
  unfold _parse_vector_data, csv_text. f_equal.
  rewrite split_join.
  - rewrite csv_rows_before by exact Hb.
    change (csv_rows (["$$SOE"] ++ rows ++ ["$$EOE"] ++ after)%list false [])
      with (csv_rows (rows ++ ["$$EOE"] ++ after)%list true []).
    rewrite Heq. reflexivity.
  - destruct before; discriminate.
  - rewrite !forallb_app. rewrite Hr, Ha.
    assert (Hbl : forallb one_line before = true).
    { clear -Hb. induction before as [|l before IH]; [reflexivity|].
      cbn [forallb] in *. apply andb_prop in Hb as [Hl Hb].
      unfold plain_line in Hl. apply andb_prop in Hl as [Hl _].
      apply andb_prop in Hl as [Hl _]. now rewrite Hl, IH. }
    rewrite Hbl. reflexivity.
Qed.

Lemma C5_csv_block_witness :
  exists p1 p2 p3,
    _parse_vector_data
      (csv_text
         ["JDTDB, Calendar Date (TDB), X, Y, Z, VX, VY, VZ,"]
         ["2460857.5, A.D. 2025-Jul-01 00:00:00.0000, 1.6E-01, -1.0E+00, 5.8E-05, 1.6E-02, 2.6E-03, 3.6E-07,";
          "2460858.5, A.D. 2025-Jul-02 00:00:00.0000, 1.7E-01, -1.0E+00, 5.9E-05, 1.6E-02, 2.7E-03";
          "2460859.5, A.D. 2025-Jul-03 00:00:00.0000, 1.9E-01, -9.9E-01, 6.0E-05, 1.6E-02, 3.0E-03, 3.7E-07,";
          "2460860.5, A.D. 2025-Jul-04 00:00:00.0000, 2.1E-01, -9.9E-01, 6.1E-05, 1.6E-02, 3.2E-03, 3.8E-07,"]
         [""])
    = Ok [p1; p2; p3]
    /\ Forall2 (fun row p => row_record row = Some p)
         ["2460857.5, A.D. 2025-Jul-01 00:00:00.0000, 1.6E-01, -1.0E+00, 5.8E-05, 1.6E-02, 2.6E-03, 3.6E-07,";
          "2460859.5, A.D. 2025-Jul-03 00:00:00.0000, 1.9E-01, -9.9E-01, 6.0E-05, 1.6E-02, 3.0E-03, 3.7E-07,";
          "2460860.5, A.D. 2025-Jul-04 00:00:00.0000, 2.1E-01, -9.9E-01, 6.1E-05, 1.6E-02, 3.2E-03, 3.8E-07,"]
         [p1; p2; p3].
Proof.
  apply (C5_csv_block
           ["JDTDB, Calendar Date (TDB), X, Y, Z, VX, VY, VZ,"]
           ["2460857.5, A.D. 2025-Jul-01 00:00:00.0000, 1.6E-01, -1.0E+00, 5.8E-05, 1.6E-02, 2.6E-03, 3.6E-07,";
            "2460858.5, A.D. 2025-Jul-02 00:00:00.0000, 1.7E-01, -1.0E+00, 5.9E-05, 1.6E-02, 2.7E-03";
            "2460859.5, A.D. 2025-Jul-03 00:00:00.0000, 1.9E-01, -9.9E-01, 6.0E-05, 1.6E-02, 3.0E-03, 3.7E-07,";
            "2460860.5, A.D. 2025-Jul-04 00:00:00.0000, 2.1E-01, -9.9E-01, 6.1E-05, 1.6E-02, 3.2E-03, 3.8E-07,"]
           [""]); vm_compute; reflexivity.
Defined.

(** ** Pruning and the milestone locator, for any date parser *)

Section DateProperties.

Variable fromisoformat : string -> option datetime.

(** *** Pruning *)

Section Prune.

Variable historical_cutoff : datetime.

Lemma prune_loop_filter (trajectory pruned : list point) :
  prune_loop fromisoformat historical_cutoff trajectory pruned
  = (pruned ++ filter (fun p => negb (parses_before fromisoformat historical_cutoff p)) trajectory)%list.
Proof.
  revert pruned; induction trajectory as [|p rest IH]; intros pruned;
    cbn [prune_loop filter].
  - now rewrite app_nil_r.
  - unfold parses_before.
    destruct (point_datetime fromisoformat p) as [dt|]; cbn [negb].
    + destruct (Z.leb_spec historical_cutoff dt), (Z.ltb_spec dt historical_cutoff);
        try lia; cbn [negb]; rewrite IH; [now rewrite <- app_assoc | reflexivity].
    + rewrite IH. now rewrite <- app_assoc.
Qed.

End Prune.

(** C10: pruning keeps the points of the trajectory, in their order and
    unchanged, except those whose date string parses to an instant
    strictly earlier than the cutoff minus 30 days; a point whose date is
    missing or does not parse is kept. *)
Theorem C10_prune_old_data (trajectory : list point) (cutoff_date : datetime) :
  let limit := (cutoff_date - timedelta_days 30)%Z in
  prune_old_data fromisoformat trajectory cutoff_date
  = filter (fun p => negb (parses_before fromisoformat limit p)) trajectory
  /\ (forall p, In p trajectory ->
        (~ In p (prune_old_data fromisoformat trajectory cutoff_date)
         <-> exists point_dt,
             point_datetime fromisoformat p = Some point_dt /\ (point_dt < limit)%Z))
  /\ (forall p, In p trajectory -> point_datetime fromisoformat p = None ->
        In p (prune_old_data fromisoformat trajectory cutoff_date)).
Proof.
  intros limit.
  assert (E : prune_old_data fromisoformat trajectory cutoff_date
              = filter (fun p => negb (parses_before fromisoformat limit p)) trajectory).
  { unfold prune_old_data. now rewrite prune_loop_filter. }
  split; [exact E|]. rewrite E. split.
  - intros p Hin. rewrite filter_In. unfold parses_before. split.
    + intros Hn. destruct (point_datetime fromisoformat p) as [dt|].
      * exists dt. split; [reflexivity|].
        destruct (Z.ltb_spec dt limit); [assumption|].
        exfalso. apply Hn. now split.
      * exfalso. apply Hn. now split.
    + intros [dt [Hdt Hlt]] [_ H]. rewrite Hdt in H.
      apply Z.ltb_lt in Hlt. rewrite Hlt in H. discriminate.
  - intros p Hin Hnone. apply filter_In. split; [assumption|].
    unfold parses_before. now rewrite Hnone.
Qed.

(** *** The milestone locator *)

Section Locator.

Variable target_dt : datetime.

Lemma scanned_step (done : list point) (st : scan_state) (p : point) :
  scanned fromisoformat target_dt done st ->
  scanned fromisoformat target_dt (done ++ [p]) (scan_step fromisoformat target_dt st p).
Proof.
  unfold scan_step. destruct st as [[d|] [pos|]]; cbn [scanned fst]; try tauto.
  - intros (pre & b & post & -> & -> & Hb & Hpre & Hpost).
    destruct (point_datetime fromisoformat p) as [dt|] eqn:Hp.
    + destruct (Z.ltb_spec (Z.abs (dt - target_dt)) d) as [Hlt|Hge]; cbn [scanned].
      * exists (pre ++ b :: post)%list, p, []. repeat split.
        -- unfold time_distance. now rewrite Hp.
        -- intros p' d' Hin Hd'. apply in_app_or in Hin as [Hin|[<-|Hin]].
           ++ specialize (Hpre _ _ Hin Hd'). lia.
           ++ rewrite Hb in Hd'. injection Hd' as <-. exact Hlt.
           ++ specialize (Hpost _ _ Hin Hd'). lia.
        -- intros p' d' [].
      * exists pre, b, (post ++ [p])%list. repeat split.
        -- now rewrite <- app_assoc.
        -- exact Hb.
        -- exact Hpre.
        -- intros p' d' Hin Hd'. apply in_app_or in Hin as [Hin|[<-|[]]].
           ++ exact (Hpost _ _ Hin Hd').
           ++ unfold time_distance in Hd'. rewrite Hp in Hd'.
              injection Hd' as <-. exact Hge.
    + exists pre, b, (post ++ [p])%list. repeat split.
      * now rewrite <- app_assoc.
      * exact Hb.
      * exact Hpre.
      * intros p' d' Hin Hd'. apply in_app_or in Hin as [Hin|[<-|[]]].
        -- exact (Hpost _ _ Hin Hd').
        -- unfold time_distance in Hd'. rewrite Hp in Hd'. discriminate.
  - intros Hnone. destruct (point_datetime fromisoformat p) as [dt|] eqn:Hp; cbn [scanned].
    + exists done, p, []. repeat split.
      * unfold time_distance. now rewrite Hp.
      * intros p' d' Hin Hd'. unfold time_distance in Hd'.
        rewrite (Hnone _ Hin) in Hd'. discriminate.
      * intros p' d' [].
    + intros p' Hin. apply in_app_or in Hin as [Hin|[<-|[]]]; auto.
Qed.

Lemma scanned_fold (todo done : list point) (st : scan_state) :
  scanned fromisoformat target_dt done st ->
  scanned fromisoformat target_dt (done ++ todo) (fold_left (scan_step fromisoformat target_dt) todo st).
Proof.
  revert done st; induction todo as [|p todo IH]; intros done st H.
  - now rewrite app_nil_r.
  - cbn [fold_left].
    replace (done ++ p :: todo)%list with ((done ++ [p]) ++ todo)%list
      by now rewrite <- app_assoc.
    apply IH. now apply scanned_step.
Qed.

Lemma scanned_all (trajectory : list point) :
  scanned fromisoformat target_dt trajectory
          (fold_left (scan_step fromisoformat target_dt) trajectory (None, None)).
Proof.
  apply (scanned_fold trajectory [] (None, None)). intros p [].
Qed.

End Locator.

Lemma split_ws_first_token (day rest : string) (c : ascii) :
  split_ws day = [day] -> is_space c = true ->
  exists toks, split_ws (day ++ String c rest) = day :: toks.
Proof.
  revert rest. induction day as [|a day IH]; intros rest Hd Hc; [discriminate|].
  cbn [split_ws] in Hd. cbn [append split_ws].
  destruct (is_space a) eqn:Ha.
  - exfalso. clear -Hd.
    assert (Hlen : forall s l, split_ws s = l ->
                     forall t, In t l -> String.length t <= String.length s).
    { clear. induction s as [|a s IHs]; intros l <- t; cbn [split_ws].
      - intros [].
      - destruct (is_space a).
        + intros Hin. specialize (IHs _ eq_refl t Hin). simpl. lia.
        + destruct s as [|b s'].
          * intros [<-|[]]. simpl. lia.
          * destruct (is_space b).
            -- intros [<-|Hin]; [simpl; lia|].
               specialize (IHs _ eq_refl t Hin). simpl in *. lia.
            -- destruct (split_ws (String b s')) as [|w ws] eqn:E.
               ++ intros [<-|[]]. simpl. lia.
               ++ intros [<-|Hin].
                  ** specialize (IHs _ eq_refl w (or_introl eq_refl)). simpl in *. lia.
                  ** specialize (IHs _ eq_refl t (or_intror Hin)). simpl in *. lia. }
    specialize (Hlen day _ Hd (String a day) (or_introl eq_refl)). simpl in Hlen. lia.
  - destruct day as [|b day'].
    + cbn [append]. rewrite Hc. eauto.
    + cbn [append]. destruct (is_space b) eqn:Hb.
      * injection Hd as Hd. discriminate.
      * destruct (split_ws (String b day')) as [|w ws] eqn:E; [discriminate Hd|].
        injection Hd as -> ->.
        destruct (IH rest eq_refl Hc) as [toks Ht].
        cbn [append] in Ht. rewrite Ht. eauto.
Qed.

(** C9: with a target date that parses, the milestone locator returns the
    position of the first point, in scan order, whose date (the first
    token of its date string, so without the time of day) is at the least
    absolute distance in time from the target; it returns [None] when the
    list is empty or no point's date parses; on a single point with a date
    that parses it returns that point's position, whatever the distance. *)
Theorem C9_find_position_at_date
        (trajectory : list point) (target_date : string) (target_dt : datetime) :
  fromisoformat target_date = Some target_dt ->
  (* empty list, or no date parses *)
  (find_position_at_date fromisoformat [] target_date = Ok None)
  /\ ((forall p, In p trajectory -> point_datetime fromisoformat p = None) ->
      find_position_at_date fromisoformat trajectory target_date = Ok None)
  (* the closest point, the first one among equals *)
  /\ ((exists p, In p trajectory /\ point_datetime fromisoformat p <> None) ->
      exists pre p post d,
        trajectory = (pre ++ p :: post)%list
        /\ find_position_at_date fromisoformat trajectory target_date = Ok (Some (position p))
        /\ time_distance fromisoformat target_dt p = Some d
        /\ (forall p' d', In p' pre ->
              time_distance fromisoformat target_dt p' = Some d' -> (d < d')%Z)
        /\ (forall p' d', In p' post ->
              time_distance fromisoformat target_dt p' = Some d' -> (d <= d')%Z))
  (* a single point *)
  /\ (forall p, point_datetime fromisoformat p <> None ->
      find_position_at_date fromisoformat [p] target_date = Ok (Some (position p)))
  (* the time of day of a point's date is dropped *)
  /\ (forall p day time_of_day,
        date p = Some (day ++ String " " time_of_day) ->
        split_ws day = [day] ->
        point_datetime fromisoformat p = fromisoformat day).
Proof.
  intros Ht. unfold find_position_at_date. rewrite Ht.
  repeat split.
  - intros Hnone. pose proof (scanned_all target_dt trajectory) as H.
    destruct (fold_left _ trajectory _) as [[d|] [pos|]]; cbn [scanned snd] in *;
      try tauto.
    destruct H as (pre & p & post & -> & _ & Hp & _).
    unfold time_distance in Hp.
    rewrite (Hnone p) in Hp; [discriminate | apply in_elt].
  - intros (p0 & Hin & Hp0). pose proof (scanned_all target_dt trajectory) as H.
    destruct (fold_left _ trajectory _) as [[d|] [pos|]]; cbn [scanned snd] in *;
      try tauto.
    + destruct H as (pre & p & post & E & -> & Hp & Hpre & Hpost).
      exists pre, p, post, d. auto.
    + exfalso. apply Hp0. now apply H.
  - intros p Hp. cbn [fold_left]. unfold scan_step. cbn [fst snd].
    destruct (point_datetime fromisoformat p); [reflexivity | congruence].
  - intros p day tod Hdate Hday. unfold point_datetime. rewrite Hdate.
    destruct (split_ws_first_token day tod " " Hday eq_refl) as [toks ->].
    reflexivity.
Qed.

End DateProperties.

Lemma C9_find_position_at_date_witness :
  PyDatetime.fromisoformat "2025-07-01" = Some 63886924800000000%Z
  /\ exists pre p post d,
      [mkPoint None (Some "2025-07-03 06:00:00") (3, 0, 0)%Q (0, 0, 0)%Q;
       mkPoint None (Some "2025-Jul-01 00:00") (9, 9, 9)%Q (0, 0, 0)%Q;
       mkPoint None (Some "2025-06-30 18:00:00") (1, 0, 0)%Q (0, 0, 0)%Q;
       mkPoint None (Some "2025-07-02 00:00:00") (2, 0, 0)%Q (0, 0, 0)%Q]
      = (pre ++ p :: post)%list
      /\ find_position_at_date PyDatetime.fromisoformat
           [mkPoint None (Some "2025-07-03 06:00:00") (3, 0, 0)%Q (0, 0, 0)%Q;
            mkPoint None (Some "2025-Jul-01 00:00") (9, 9, 9)%Q (0, 0, 0)%Q;
            mkPoint None (Some "2025-06-30 18:00:00") (1, 0, 0)%Q (0, 0, 0)%Q;
            mkPoint None (Some "2025-07-02 00:00:00") (2, 0, 0)%Q (0, 0, 0)%Q]
           "2025-07-01"
         = Ok (Some (position p))
      /\ time_distance PyDatetime.fromisoformat 63886924800000000%Z p = Some d
      /\ (forall p' d', In p' pre ->
            time_distance PyDatetime.fromisoformat 63886924800000000%Z p' = Some d' -> (d < d')%Z)
      /\ (forall p' d', In p' post ->
            time_distance PyDatetime.fromisoformat 63886924800000000%Z p' = Some d' -> (d <= d')%Z).
Proof.
  split; [reflexivity|].
  apply (C9_find_position_at_date PyDatetime.fromisoformat _ "2025-07-01"
           63886924800000000%Z eq_refl).
  eexists. split; [left; reflexivity | vm_compute; discriminate].
Defined.

(** ** Merging *)

Section Dict.

Context {V : Type}.

Lemma dict_get_set (k k' : string) (v : V) (d : dict V) :
  dict_get k' (dict_set k v d)
  = if String.eqb k k' then Some v else dict_get k' d.
Proof.
  induction d as [|[k0 v0] d IH]; cbn [dict_set dict_get].
  - destruct (String.eqb_spec k k'); reflexivity.
  - destruct (String.eqb_spec k0 k) as [->|Hne]; cbn [dict_get].
    + destruct (String.eqb_spec k k'); reflexivity.
    + rewrite IH. destruct (String.eqb_spec k0 k') as [->|Hne'].
      * destruct (String.eqb_spec k k'); [congruence | reflexivity].
      * reflexivity.
Qed.

Lemma dict_set_keys (k : string) (v : V) (d : dict V) :
  map fst (dict_set k v d) = map fst d
  \/ (~ In k (map fst d) /\ map fst (dict_set k v d) = (map fst d ++ [k])%list).
Proof.
  induction d as [|[k0 v0] d IH]; cbn [dict_set map fst].
  - right. split; [intros [] | reflexivity].
  - destruct (String.eqb_spec k0 k) as [->|Hne]; cbn [map fst].
    + now left.
    + destruct IH as [->|[Hnot ->]]; [now left|].
      right. split; [intros [?|?]; congruence | reflexivity].
Qed.

Lemma dict_set_nodup (k : string) (v : V) (d : dict V) :
  NoDup (map fst d) -> NoDup (map fst (dict_set k v d)).
Proof.
  intros H. destruct (dict_set_keys k v d) as [->|[Hnot ->]]; [exact H|].
  apply NoDup_app; [exact H | repeat constructor; intros [] |].
  intros x Hx [<-|[]]. contradiction.
Qed.

Lemma dict_get_in (k : string) (v : V) (d : dict V) :
  NoDup (map fst d) -> (In (k, v) d <-> dict_get k d = Some v).
Proof.
  induction d as [|[k0 v0] d IH]; cbn [map fst dict_get]; intros Hnd.
  - split; [intros [] | discriminate].
  - inversion Hnd as [|? ? Hnot Hnd']; subst.
    destruct (String.eqb_spec k0 k) as [->|Hne].
    + split.
      * intros [E|Hin]; [congruence|].
        exfalso. apply Hnot. apply (in_map fst) in Hin. exact Hin.
      * intros E. left. congruence.
    + rewrite <- (IH Hnd'). split; [intros [E|Hin]; [congruence | exact Hin] | now right].
Qed.

End Dict.

Section Merge.

Lemma split_ws_nonempty (s t : string) :
  In t (split_ws s) -> is_empty t = false.
Proof.
  revert t; induction s as [|a s IH]; intros t; cbn [split_ws]; [intros []|].
  destruct (is_space a); [apply IH|].
  destruct s as [|b s'].
  - intros [<-|[]]. reflexivity.
  - destruct (is_space b).
    + intros [<-|Hin]; [reflexivity | now apply IH].
    + destruct (split_ws (String b s')) as [|w ws].
      * intros [<-|[]]. reflexivity.
      * intros [<-|Hin]; [reflexivity|]. apply IH. now right.
Qed.

Lemma date_key_nonempty (p : point) (k : string) :
  date_key p = Ok k -> is_empty k = false.
Proof.
  unfold date_key. destruct (split_ws _) as [|t ts] eqn:E; [discriminate|].
  intros [= <-]. apply (split_ws_nonempty (match date p with Some d => d | None => "" end)).
  rewrite E. now left.
Qed.

Lemma add_points_keyed (points : list point) (merged : dict point) :
  forallb keyed points = true ->
  add_points points merged = Ok (fold_left dict_put points merged).
Proof.
  revert merged; induction points as [|p rest IH]; intros merged H; [reflexivity|].
  cbn [forallb] in H. apply andb_prop in H as [Hp Hrest].
  cbn [add_points fold_left]. unfold keyed in Hp. unfold dict_put at 2.
  destruct (date_key p) as [k|e] eqn:E; [|discriminate].
  rewrite (date_key_nonempty _ _ E). cbn [negb]. now apply IH.
Qed.

Lemma dict_put_keyed (d : dict point) (p : point) :
  keyed_dict d -> keyed_dict (dict_put d p).
Proof.
  intros [Hnd Hk]. unfold dict_put.
  destruct (date_key p) as [k|e] eqn:E; [|now split].
  split; [now apply dict_set_nodup|].
  intros k' p' Hin.
  apply dict_get_in in Hin; [|now apply dict_set_nodup].
  rewrite dict_get_set in Hin.
  destruct (String.eqb_spec k k') as [->|Hne].
  - congruence.
  - apply Hk. now apply dict_get_in.
Qed.

Lemma fold_put_keyed (l : list point) (d : dict point) :
  keyed_dict d -> keyed_dict (fold_left dict_put l d).
Proof.
  revert d; induction l as [|p l IH]; intros d H; [exact H|].
  cbn [fold_left]. apply IH. now apply dict_put_keyed.
Qed.

Lemma find_app_first {A : Type} (f : A -> bool) (l1 l2 : list A) :
  find f (l1 ++ l2)
  = match find f l1 with Some x => Some x | None => find f l2 end.
Proof.
  induction l1 as [|a l1 IH]; [reflexivity|]. cbn [app find].
  destruct (f a); [reflexivity | exact IH].
Qed.

Lemma last_with_key_cons (k : string) (p : point) (l : list point) :
  last_with_key k (p :: l)
  = match last_with_key k l with
    | Some x => Some x
    | None => if has_key k p then Some p else None
    end.
Proof.
  unfold last_with_key. cbn [rev]. rewrite find_app_first.
  destruct (find (has_key k) (rev l)); [reflexivity|].
  cbn [find]. destruct (has_key k p); reflexivity.
Qed.

Lemma last_with_key_app (k : string) (l1 l2 : list point) :
  last_with_key k (l1 ++ l2)
  = match last_with_key k l2 with
    | Some x => Some x
    | None => last_with_key k l1
    end.
Proof.
  unfold last_with_key. rewrite rev_app_distr, find_app_first.
  destruct (find (has_key k) (rev l2)); reflexivity.
Qed.

Lemma dict_get_put (k : string) (d : dict point) (p : point) :
  keyed p = true ->
  dict_get k (dict_put d p) = if has_key k p then Some p else dict_get k d.
Proof.
  unfold keyed, dict_put, has_key. destruct (date_key p) as [k0|e]; [|discriminate].
  intros _. apply dict_get_set.
Qed.

Lemma dict_get_fold_put (k : string) (l : list point) (d : dict point) :
  forallb keyed l = true ->
  dict_get k (fold_left dict_put l d)
  = match last_with_key k l with
    | Some p => Some p
    | None => dict_get k d
    end.
Proof.
  revert d; induction l as [|p l IH]; intros d H; [reflexivity|].
  cbn [forallb] in H. apply andb_prop in H as [Hp Hl].
  cbn [fold_left]. rewrite (IH _ Hl), last_with_key_cons.
  destruct (last_with_key k l); [reflexivity|].
  rewrite (dict_get_put _ _ _ Hp). now destruct (has_key k p).
Qed.

(** The sort: a sorted permutation. *)

Lemma insert_by_jd_perm (x : point) (l : list point) :
  Permutation (x :: l) (insert_by_jd x l).
Proof.
  induction l as [|y r IH]; cbn [insert_by_jd]; [reflexivity|].
  destruct (Qle_bool (jd_key x) (jd_key y)); [reflexivity|].
  rewrite perm_swap. now constructor.
Qed.

Lemma sort_by_jd_perm (l : list point) : Permutation l (sort_by_jd l).
Proof.
  induction l as [|x l IH]; [constructor|].
  cbn [sort_by_jd fold_right]. fold (sort_by_jd l).
  rewrite <- insert_by_jd_perm. now constructor.
Qed.

Lemma insert_by_jd_sorted (x : point) (l : list point) :
  StronglySorted jd_le l -> StronglySorted jd_le (insert_by_jd x l).
Proof.
  induction l as [|y r IH]; cbn [insert_by_jd]; intros H.
  - repeat constructor.
  - inversion H as [|? ? Hr Hy]; subst.
    destruct (Qle_bool (jd_key x) (jd_key y)) eqn:E.
    + apply Qle_bool_iff in E. constructor; [exact H|].
      constructor; [exact E|].
      eapply Forall_impl; [|exact Hy]. intros z Hz. unfold jd_le in *.
      eapply Qle_trans; eassumption.
    + constructor; [now apply IH|].
      eapply Permutation_Forall; [apply insert_by_jd_perm|].
      constructor; [|exact Hy]. unfold jd_le.
      apply Qlt_le_weak, Qnot_le_lt. intros Hle.
      apply Qle_bool_iff in Hle. congruence.
Qed.

Lemma sort_by_jd_sorted (l : list point) : StronglySorted jd_le (sort_by_jd l).
Proof.
  induction l as [|x l IH]; [constructor|].
  cbn [sort_by_jd fold_right]. now apply insert_by_jd_sorted.
Qed.

Lemma keyed_dict_values_keys (d : dict point) :
  keyed_dict d -> map date_key (dict_values d) = map (@Ok string) (map fst d).
Proof.
  intros [_ Hk]. unfold dict_values.
  induction d as [|[k p] d IH]; [reflexivity|]. cbn [map fst snd].
  rewrite (Hk k p (or_introl eq_refl)), IH; [reflexivity|].
  intros k' p' Hin. apply Hk. now right.
Qed.

End Merge.

(** C6, as stated, fails: when the existing list is empty the new list is
    returned as it is, here not in ascending Julian Date. *)
Lemma C6_unsorted_when_existing_empty :
  merge_trajectory_data
    []
    [mkPoint (Some 2%Q) (Some "2025-07-02") (0, 0, 0)%Q (0, 0, 0)%Q;
     mkPoint (Some 1%Q) (Some "2025-07-01") (0, 0, 0)%Q (0, 0, 0)%Q]
  = Ok [mkPoint (Some 2%Q) (Some "2025-07-02") (0, 0, 0)%Q (0, 0, 0)%Q;
        mkPoint (Some 1%Q) (Some "2025-07-01") (0, 0, 0)%Q (0, 0, 0)%Q]
  /\ ~ StronglySorted jd_le
       [mkPoint (Some 2%Q) (Some "2025-07-02") (0, 0, 0)%Q (0, 0, 0)%Q;
        mkPoint (Some 1%Q) (Some "2025-07-01") (0, 0, 0)%Q (0, 0, 0)%Q].
Proof.
  split; [reflexivity|]. intros H.
  inversion H as [|? ? _ Hall]; subst.
  inversion Hall as [|? ? Hle _]; subst.
  unfold jd_le in Hle. vm_compute in Hle. apply Hle. reflexivity.
Qed.

(** C6 (amended): when either list is empty the other one is returned
    unchanged.  When both lists are non-empty and every point has a
    non-blank date, the points are keyed by the first token of the date
    string (the date, without the time of day), the result holds for each
    date key exactly the last point with that key in existing-then-new (a
    new point overwrites an existing one with the same key), and it is
    sorted ascending by Julian Date.  In particular merging
    [{date:2025-07-01, v1}] with [{date:2025-07-01, v2}] yields
    [{date:2025-07-01, v2}]. *)
Theorem C6_merge_trajectory_data (existing new : list point) :
  merge_trajectory_data [] new = Ok new
  /\ merge_trajectory_data existing [] = Ok existing
  /\ (existing <> [] -> new <> [] ->
      forallb keyed (existing ++ new) = true ->
      exists merged,
        merge_trajectory_data existing new = Ok merged
        /\ StronglySorted jd_le merged
        /\ NoDup (map date_key merged)
        /\ (forall p, In p merged
                      <-> exists k, last_with_key k (existing ++ new)%list = Some p)
        /\ (forall k p, last_with_key k new = Some p -> In p merged))
  /\ (forall jd1 v1 w1 jd2 v2 w2,
        merge_trajectory_data
          [mkPoint jd1 (Some "2025-07-01") v1 w1]
          [mkPoint jd2 (Some "2025-07-01") v2 w2]
        = Ok [mkPoint jd2 (Some "2025-07-01") v2 w2]).
Proof.
  split; [reflexivity|].
  split; [now destruct existing|].
  split; [|reflexivity].
  intros He Hn Hkeyed.
  set (d := fold_left dict_put (existing ++ new)%list []).
  assert (Hd : keyed_dict d).
  { apply fold_put_keyed. split; [constructor | intros k p []]. }
  assert (Hmerge : merge_trajectory_data existing new
                   = Ok (sort_by_jd (dict_values d))).
  { rewrite forallb_app in Hkeyed. apply andb_prop in Hkeyed as [Hke Hkn].
    unfold merge_trajectory_data.
    destruct existing as [|e0 existing']; [congruence|].
    destruct new as [|n0 new']; [congruence|].
    rewrite (add_points_keyed _ _ Hke), (add_points_keyed _ _ Hkn).
    unfold d. now rewrite fold_left_app. }
  assert (Hin : forall p, In p (sort_by_jd (dict_values d))
                          <-> exists k, last_with_key k (existing ++ new)%list = Some p).
  { intros p. split.
    - intros H. apply (Permutation_in _ (Permutation_sym (sort_by_jd_perm _))) in H.
      unfold dict_values in H. apply in_map_iff in H as [[k p'] [Hp H]].
      cbn [snd] in Hp. subst p'. exists k.
      apply dict_get_in in H; [|apply Hd].
      unfold d in H. rewrite (dict_get_fold_put _ _ _ Hkeyed) in H.
      destruct (last_with_key k (existing ++ new)%list); [exact H | discriminate H].
    - intros [k Hk]. apply (Permutation_in _ (sort_by_jd_perm _)).
      unfold dict_values. apply in_map_iff. exists (k, p). split; [reflexivity|].
      apply dict_get_in; [apply Hd|].
      unfold d. now rewrite (dict_get_fold_put _ _ _ Hkeyed), Hk. }
  exists (sort_by_jd (dict_values d)). repeat split.
  - exact Hmerge.
  - apply sort_by_jd_sorted.
  - eapply Permutation_NoDup.
    + apply Permutation_map. apply sort_by_jd_perm.
    + rewrite (keyed_dict_values_keys _ Hd).
      apply Finite.Injective_map_NoDup; [intros a b; congruence | apply Hd].
  - apply Hin.
  - apply Hin.
  - intros k p Hk. apply Hin. exists k.
    now rewrite last_with_key_app, Hk.
Qed.

Lemma C6_merge_trajectory_data_witness :
  exists merged,
    merge_trajectory_data
      [mkPoint (Some 2%Q) (Some "2025-07-02 00:00:00") (2, 0, 0)%Q (0, 0, 0)%Q;
       mkPoint (Some 1%Q) (Some "2025-07-01 00:00:00") (1, 0, 0)%Q (0, 0, 0)%Q]
      [mkPoint (Some 2.25%Q) (Some "2025-07-02 06:00:00") (7, 0, 0)%Q (0, 0, 0)%Q]
    = Ok merged
    /\ StronglySorted jd_le merged
    /\ NoDup (map date_key merged)
    /\ (forall p, In p merged
                  <-> exists k,
                    last_with_key k
                      ([mkPoint (Some 2%Q) (Some "2025-07-02 00:00:00") (2, 0, 0)%Q (0, 0, 0)%Q;
                        mkPoint (Some 1%Q) (Some "2025-07-01 00:00:00") (1, 0, 0)%Q (0, 0, 0)%Q]
                       ++ [mkPoint (Some 2.25%Q) (Some "2025-07-02 06:00:00") (7, 0, 0)%Q (0, 0, 0)%Q])%list
                    = Some p)
    /\ (forall k p,
          last_with_key k
            [mkPoint (Some 2.25%Q) (Some "2025-07-02 06:00:00") (7, 0, 0)%Q (0, 0, 0)%Q]
          = Some p -> In p merged).
Proof.
  apply (C6_merge_trajectory_data
           [mkPoint (Some 2%Q) (Some "2025-07-02 00:00:00") (2, 0, 0)%Q (0, 0, 0)%Q;
            mkPoint (Some 1%Q) (Some "2025-07-01 00:00:00") (1, 0, 0)%Q (0, 0, 0)%Q]
           [mkPoint (Some 2.25%Q) (Some "2025-07-02 06:00:00") (7, 0, 0)%Q (0, 0, 0)%Q]);
    [discriminate | discriminate | reflexivity].
Defined.

(** ** The hyperbolic propagators *)

Section Hyperbolic.

Local Open Scope R_scope.

Lemma cosh_ge_1 (x : R) : 1 <= cosh x.
Proof.
  unfold cosh. pose proof (exp_ineq1_le x). pose proof (exp_ineq1_le (- x)). lra.
Qed.

Lemma sinh_opp (x : R) : sinh (- x) = - sinh x.
Proof. unfold sinh. rewrite Ropp_involutive. lra. Qed.

Lemma cosh_opp (x : R) : cosh (- x) = cosh x.
Proof. unfold cosh. rewrite Ropp_involutive. lra. Qed.

Lemma sinh_pos (x : R) : 0 < x -> 0 < sinh x.
Proof. intros H. rewrite <- sinh_0. now apply sinh_lt. Qed.

(** The semi-major axis is negative on a hyperbola. *)
Lemma calculator_axis_negative (el : Calculator.elements) :
  1 < Calculator.eccentricity el -> 0 < Calculator.perihelion_au el ->
  Calculator.semi_major_axis el < 0.
Proof.
  intros He Hq. unfold Calculator.semi_major_axis.
  replace (Calculator.perihelion_au el / (1 - Calculator.eccentricity el))
    with (- (Calculator.perihelion_au el / (Calculator.eccentricity el - 1)))
    by (field; lra).
  apply Ropp_lt_gt_0_contravar. apply Rdiv_lt_0_compat; lra.
Qed.

(** The Newton iteration is odd in the mean anomaly. *)
Lemma newton_step_opp (el : Calculator.elements) (M F : R) :
  Calculator.newton_step el (- M) (- F) = - Calculator.newton_step el M F.
Proof.
  unfold Calculator.newton_step. rewrite sinh_opp, cosh_opp.
  unfold Rdiv. ring.
Qed.

Lemma newton_loop_opp (el : Calculator.elements) (n : nat) (M F : R) :
  Calculator.newton_loop el n (- M) (- F) = - Calculator.newton_loop el n M F.
Proof.
  revert F; induction n as [|n IH]; intros F; cbn [Calculator.newton_loop].
  - reflexivity.
  - now rewrite newton_step_opp, IH.
Qed.


(** At a zero mean anomaly the iteration stays at zero. *)
Lemma newton_loop_zero (el : Calculator.elements) (n : nat) :
  Calculator.newton_loop el n 0 0 = 0.
Proof.
  induction n as [|n IH]; cbn [Calculator.newton_loop]; [reflexivity|].
  replace (Calculator.newton_step el 0 0) with 0; [exact IH|].
  unfold Calculator.newton_step. rewrite sinh_0. unfold Rdiv. ring.
Qed.

Lemma sign_0 : Kepler.sign 0 = 0.
Proof.
  unfold Kepler.sign. destruct (Rlt_dec 0 0) as [H|H]; [lra | reflexivity].
Qed.

Lemma secant_loop_turn (func : R -> R) (k : nat) (p0 q0 p1 q1 : R) :
  Kepler.secant_loop func (S k) p0 q0 p1 q1
  = if Req_dec_T q1 q0 then
      (if Req_dec_T p1 p0 then Some ((p1 + p0) / 2) else None)
    else
      let p :=
        if Rlt_dec (Rabs q0) (Rabs q1)
        then (- q0 / q1 * p1 + p0) / (1 - q0 / q1)
        else (- q1 / q0 * p0 + p1) / (1 - q1 / q0) in
      if Kepler.isclose p p1 then Some p
      else Kepler.secant_loop func k p1 q1 p (func p).
Proof. reflexivity. Qed.

Lemma secant_second_turn (func : R -> R) (k : nat) (p0 p1 q1 : R) :
  q1 <> 0 -> func p0 = 0 ->
  Kepler.secant_loop func (S k) p1 q1 p0 (func p0) = Some p0.
Proof.
  intros Hq1 Hf. rewrite secant_loop_turn. cbv zeta. rewrite Hf.
  destruct (Req_dec_T 0 q1) as [E|_]; [congruence|].
  destruct (Rlt_dec (Rabs q1) (Rabs 0)) as [H|_].
  { rewrite Rabs_R0 in H. pose proof (Rabs_pos q1). lra. }
  replace ((- 0 / q1 * p1 + p0) / (1 - 0 / q1)) with p0 by (field; exact Hq1).
  unfold Kepler.isclose.
  destruct (Rle_dec _ _) as [_|H]; [reflexivity|].
  exfalso. apply H. replace (p0 - p0) with 0 by ring. rewrite Rabs_R0. lra.
Qed.

Lemma secant_first_turn (func : R -> R) (k : nat) (p0 p1 x : R) :
  func p0 = 0 ->
  Kepler.secant_loop func (S (S k)) p0 (func p0) p1 (func p1) = Some x ->
  x = p0.
Proof.
  intros Hf. rewrite secant_loop_turn. cbv zeta. rewrite Hf.
  destruct (Req_dec_T (func p1) 0) as [E|Hq1].
  - destruct (Req_dec_T p1 p0) as [->|_]; [|discriminate].
    intros [= <-]. field.
  - destruct (Rlt_dec (Rabs 0) (Rabs (func p1))) as [_|H].
    2:{ exfalso. apply H. rewrite Rabs_R0. now apply Rabs_pos_lt. }
    replace ((- 0 / func p1 * p1 + p0) / (1 - 0 / func p1)) with p0
      by (field; exact Hq1).
    destruct (Kepler.isclose p0 p1); [now intros [= <-]|].
    rewrite (secant_second_turn func k p0 p1 _ Hq1 Hf).
    now intros [= <-].
Qed.

Lemma scipy_newton_keeps_root : keeps_root Kepler.scipy_newton.
Proof.
  intros func x0 x Hf. unfold Kepler.scipy_newton.
  destruct (Rlt_dec _ _) as [H|_].
  { rewrite Hf, Rabs_R0 in H.
    match type of H with Rabs ?y < 0 => pose proof (Rabs_pos y) end. lra. }
  apply (secant_first_turn func 18). exact Hf.
Qed.

Lemma calculator_radius_perihelion (el : Calculator.elements) :
  1 < Calculator.eccentricity el ->
  Calculator.radius el 0 = Calculator.perihelion_au el.
Proof.
  intros He. unfold Calculator.radius, Calculator.eccentric_anomaly,
    Calculator.mean_anomaly, Calculator.semi_major_axis.
  rewrite Rmult_0_r, newton_loop_zero, cosh_0. field. lra.
Qed.

Lemma kepler_anomaly_perihelion (newton : (R -> R) -> R -> option R)
      (el : Kepler.elements) :
  keeps_root newton -> Kepler.eccentric_anomaly newton el 0 = 0.
Proof.
  intros Hn. unfold Kepler.eccentric_anomaly, Kepler.mean_anomaly.
  rewrite Rmult_0_r, Rabs_R0, sign_0.
  destruct (Rlt_dec 50 0) as [H|_]; [lra|].
  rewrite !Rmult_0_l.
  destruct (newton _ 0) as [F|] eqn:E; [|reflexivity].
  apply Hn in E; [exact E|]. rewrite sinh_0. ring.
Qed.

Lemma kepler_radius_perihelion (newton : (R -> R) -> R -> option R)
      (el : Kepler.elements) :
  keeps_root newton -> 1 < Kepler.el_e el ->
  Kepler.radius newton el 0 = Kepler.el_q el.
Proof.
  intros Hn He. unfold Kepler.radius.
  rewrite (kepler_anomaly_perihelion _ _ Hn), cosh_0.
  unfold Kepler.semi_major_axis. field. lra.
Qed.


(** On a hyperbola the radius is positive: no denominator of
    [calculate_position] vanishes. *)
Lemma calculator_radius_positive (el : Calculator.elements) (t : R) :
  1 < Calculator.eccentricity el -> 0 < Calculator.perihelion_au el ->
  0 < Calculator.radius el t.
Proof.
  intros He Hq. unfold Calculator.radius.
  pose proof (calculator_axis_negative el He Hq) as Ha.
  pose proof (cosh_ge_1 (Calculator.eccentric_anomaly el t)) as Hc.
  assert (H : 1 - Calculator.eccentricity el * cosh (Calculator.eccentric_anomaly el t) < 0)
    by nra.
  nra.
Qed.

End Hyperbolic.

(** C3, as stated, fails: [kepler_fallback_trajectory] does not use
    2.959122083e-4; at its own elements (e = 6.14, q = 1.36) its mean
    motion differs from sqrt(2.959122083e-4 / |a|^3). *)
Lemma C3_kepler_mu_differs :
  (Kepler.mu <> 2.959122083e-4
   /\ Kepler.mean_motion Kepler.ATLAS_ELEMENTS
      <> sqrt (2.959122083e-4 / Rabs (Kepler.semi_major_axis Kepler.ATLAS_ELEMENTS) ^ 3))%R.
Proof.
  assert (Hmu : (Kepler.mu <> 2.959122083e-4)%R) by (unfold Kepler.mu; lra).
  split; [exact Hmu|].
  unfold Kepler.mean_motion.
  set (a := Kepler.semi_major_axis Kepler.ATLAS_ELEMENTS).
  assert (Ha : (0 < Rabs a ^ 3)%R).
  { apply pow_lt. apply Rabs_pos_lt. unfold a, Kepler.semi_major_axis. cbn. lra. }
  intros H. apply sqrt_inj in H.
  - apply Hmu. apply (Rmult_eq_reg_r (/ Rabs a ^ 3)); [exact H|].
    apply Rinv_neq_0_compat. lra.
  - apply Rlt_le, Rdiv_lt_0_compat; [unfold Kepler.mu; lra | exact Ha].
  - apply Rlt_le, Rdiv_lt_0_compat; [lra | exact Ha].
Qed.

(** C3 (amended): both fallback propagators compute the mean motion as
    n = sqrt(mu / |a|^3) with a = q / (1 - e); [calculate_position] uses
    mu = 2.959122083e-4 AU^3/day^2 and [kepler_fallback_trajectory] uses
    mu = 0.000295912208286 AU^3/day^2. *)
Theorem C3_mean_motion (el : Calculator.elements) (kel : Kepler.elements) :
  (Calculator.mean_motion el
   = sqrt (2.959122083e-4
           / Rabs (Calculator.perihelion_au el / (1 - Calculator.eccentricity el)) ^ 3)
   /\ Kepler.mean_motion kel
      = sqrt (0.000295912208286
              / Rabs (Kepler.el_q kel / (1 - Kepler.el_e kel)) ^ 3)
   /\ Calculator.MU_SUN = 2.959122083e-4
   /\ Kepler.mu = 0.000295912208286)%R.
Proof.
  repeat split.
  - unfold Calculator.mean_motion, Calculator.semi_major_axis, Calculator.MU_SUN.
    now rewrite RPow_abs.
  - unfold Kepler.mean_motion, Kepler.semi_major_axis, Kepler.mu.
    assert (E : (- Kepler.el_q kel / (Kepler.el_e kel - 1)
                 = Kepler.el_q kel / (1 - Kepler.el_e kel))%R).
    { unfold Rdiv.
      replace (1 - Kepler.el_e kel)%R with (- (Kepler.el_e kel - 1))%R by ring.
      rewrite Rinv_opp. ring. }
    now rewrite E.
Qed.

(** C4: for orbital elements with e > 1 and q > 0, at the perihelion epoch
    (elapsed time 0) the radius computed by the hyperbolic propagator is
    exactly q, over the real numbers, in [calculate_position] (whose
    [distance_au] is then q too) and in [kepler_fallback_trajectory], for
    any root solver that returns its starting point when that is a root. *)
Theorem C4_radius_at_perihelion
        (newton : (R -> R) -> R -> option R)
        (el : Calculator.elements) (kel : Kepler.elements) :
  (1 < Calculator.eccentricity el)%R -> (0 < Calculator.perihelion_au el)%R ->
  (1 < Kepler.el_e kel)%R -> (0 < Kepler.el_q kel)%R ->
  keeps_root newton ->
  Calculator.radius el 0 = Calculator.perihelion_au el
  /\ Calculator.distance_au (Calculator.calculate_position el 0)
     = Calculator.perihelion_au el
  /\ Kepler.radius newton kel 0 = Kepler.el_q kel.
Proof.
  intros He Hq Hke Hkq Hn. repeat split.
  - now apply calculator_radius_perihelion.
  - cbn [Calculator.calculate_position Calculator.distance_au].
    rewrite (calculator_radius_perihelion _ He). apply Rabs_right. lra.
  - now apply kepler_radius_perihelion.
Qed.

Lemma C4_radius_at_perihelion_witness :
  Calculator.radius Calculator.ATLAS_ELEMENTS 0
  = Calculator.perihelion_au Calculator.ATLAS_ELEMENTS
  /\ Calculator.distance_au (Calculator.calculate_position Calculator.ATLAS_ELEMENTS 0)
     = Calculator.perihelion_au Calculator.ATLAS_ELEMENTS
  /\ Kepler.radius Kepler.scipy_newton Kepler.ATLAS_ELEMENTS 0
     = Kepler.el_q Kepler.ATLAS_ELEMENTS.
Proof.
  apply (C4_radius_at_perihelion Kepler.scipy_newton
           Calculator.ATLAS_ELEMENTS Kepler.ATLAS_ELEMENTS).
  - cbn. lra.
  - cbn. lra.
  - cbn. lra.
  - cbn. lra.
  - exact scipy_newton_keeps_root.
Defined.

(** ** The two velocity directions *)

Section Velocity.

Local Open Scope R_scope.

Lemma xcosh_minus_sinh_pos (x : R) : 0 < x -> 0 < x * cosh x - sinh x.
Proof.
  intros Hx.
  destruct (MVT_cor2 (fun y => y * cosh y - sinh y) (fun y => y * sinh y) 0 x Hx)
    as (c & Hc & Hc0 & Hcx).
  - intros c _.
    replace (c * sinh c) with ((1 * cosh c + id c * sinh c) - cosh c)
      by (unfold id; ring).
    apply (derivable_pt_lim_minus (id * cosh)%F sinh).
    + apply derivable_pt_lim_mult;
        [apply derivable_pt_lim_id | apply derivable_pt_lim_cosh].
    + apply derivable_pt_lim_sinh.
  - rewrite sinh_0, cosh_0 in Hc.
    pose proof (sinh_pos c Hc0) as Hs.
    assert (0 < c * sinh c * (x - 0)) by (apply Rmult_lt_0_compat; nra).
    lra.
Qed.

Variable el : Calculator.elements.
Hypothesis He : 1 < Calculator.eccentricity el.
Hypothesis Hq : 0 < Calculator.perihelion_au el.

Lemma newton_step_pos (M F : R) :
  0 < M -> 0 < F -> 0 < Calculator.newton_step el M F.
Proof.
  intros HM HF. unfold Calculator.newton_step.
  set (e := Calculator.eccentricity el) in *.
  pose proof (cosh_ge_1 F) as Hc.
  pose proof (xcosh_minus_sinh_pos F HF) as Hx.
  assert (HD : 0 < e * cosh F - 1) by nra.
  replace (F - (e * sinh F - F - M) / (e * cosh F - 1))
    with ((e * (F * cosh F - sinh F) + M) / (e * cosh F - 1))
    by (field; lra).
  apply Rdiv_lt_0_compat; [|exact HD]. nra.
Qed.

Lemma newton_loop_pos (n : nat) (M F : R) :
  0 < M -> 0 < F -> 0 < Calculator.newton_loop el n M F.
Proof.
  revert F; induction n as [|n IH]; intros F HM HF; cbn [Calculator.newton_loop].
  - exact HF.
  - apply IH; [exact HM | now apply newton_step_pos].
Qed.

Lemma mean_motion_pos : 0 < Calculator.mean_motion el.
Proof.
  unfold Calculator.mean_motion. apply sqrt_lt_R0.
  apply Rdiv_lt_0_compat; [unfold Calculator.MU_SUN; lra|].
  apply Rabs_pos_lt. apply pow_nonzero.
  pose proof (calculator_axis_negative el He Hq). lra.
Qed.

Lemma eccentric_anomaly_pos (t : R) :
  0 < t -> 0 < Calculator.eccentric_anomaly el t.
Proof.
  intros Ht. unfold Calculator.eccentric_anomaly, Calculator.mean_anomaly.
  pose proof mean_motion_pos as Hn.
  assert (0 < Calculator.mean_motion el * t) by now apply Rmult_lt_0_compat.
  now apply newton_loop_pos.
Qed.

Lemma true_anomaly_range (t : R) :
  0 < t -> 0 < Calculator.true_anomaly el t < PI.
Proof.
  intros Ht. unfold Calculator.true_anomaly.
  set (F := Calculator.eccentric_anomaly el t).
  assert (HF : 0 < F / 2) by (pose proof (eccentric_anomaly_pos t Ht); unfold F; lra).
  assert (Hth : 0 < tanh (F / 2)).
  { unfold tanh. apply Rdiv_lt_0_compat; [now apply sinh_pos|].
    pose proof (cosh_ge_1 (F / 2)). lra. }
  assert (Hs : 0 < sqrt ((Calculator.eccentricity el + 1) / (Calculator.eccentricity el - 1))).
  { apply sqrt_lt_R0. apply Rdiv_lt_0_compat; lra. }
  set (x := sqrt _ * tanh _).
  assert (Hx : 0 < x) by (unfold x; now apply Rmult_lt_0_compat).
  pose proof (atan_bound x) as [_ Hub].
  pose proof (atan_increasing 0 x Hx) as Hlb. rewrite atan_0 in Hlb.
  lra.
Qed.

Lemma speed_pos (t : R) : 0 < Calculator.speed el t.
Proof.
  unfold Calculator.speed. apply sqrt_lt_R0.
  pose proof (calculator_radius_positive el t He Hq) as Hr.
  pose proof (calculator_axis_negative el He Hq) as Ha.
  apply Rmult_lt_0_compat; [unfold Calculator.MU_SUN; lra|].
  assert (0 < 2 / Rabs (Calculator.radius el t)).
  { apply Rdiv_lt_0_compat; [lra|]. apply Rabs_pos_lt. lra. }
  assert (0 < - (1 / Calculator.semi_major_axis el)).
  { unfold Rdiv. rewrite Rmult_1_l, <- Rinv_opp. apply Rinv_0_lt_compat. lra. }
  lra.
Qed.

End Velocity.

Section Directions.

Local Open Scope R_scope.

Variables (e v nu : R).
Hypothesis He : 1 < e.
Hypothesis Hv : 0 < v.
Hypothesis Hnu : 0 < sin nu.

Variable kel : Kepler.elements.
Hypothesis Hkel : Kepler.el_e kel = e.

Lemma perpendicular_direction :
  Calculator.velocity_direction v nu = (- v * sin nu, v * cos nu).
Proof.
  unfold Calculator.velocity_direction.
  rewrite cos_plus, sin_plus, cos_PI2, sin_PI2. f_equal; ring.
Qed.

Lemma kepler_norm_pos :
  0 < sqrt ((- v * sin nu) ^ 2 + (v * (e + cos nu)) ^ 2).
Proof.
  apply sqrt_lt_R0.
  assert (0 < (v * sin nu) ^ 2) by (apply pow_lt; now apply Rmult_lt_0_compat).
  pose proof (pow2_ge_0 (v * (e + cos nu))). nra.
Qed.

Lemma kepler_direction :
  let N := sqrt ((- v * sin nu) ^ 2 + (v * (e + cos nu)) ^ 2) in
  Kepler.velocity_direction kel v nu
  = (- v * sin nu / N * v, v * (e + cos nu) / N * v).
Proof.
  intros N. unfold Kepler.velocity_direction. rewrite Hkel.
  fold N. destruct (Rlt_dec 0 N) as [_|H]; [reflexivity|].
  exfalso. apply H. apply kepler_norm_pos.
Qed.

Lemma directions_differ :
  Calculator.velocity_direction v nu <> Kepler.velocity_direction kel v nu.
Proof.
  rewrite perpendicular_direction, kepler_direction.
  set (N := sqrt _). pose proof kepler_norm_pos as HN. fold N in HN.
  intros [= H1 H2].
  assert (HvN : v = N).
  { assert (E : - v * sin nu * N = - v * sin nu * v).
    { rewrite H1 at 1. field. lra. }
    apply (Rmult_eq_reg_l (- v * sin nu)); [lra | nra]. }
  rewrite <- HvN in H2.
  assert (E : v * cos nu = v * (e + cos nu)).
  { rewrite H2 at 1. field. lra. }
  nra.
Qed.

Lemma directions_same_norm :
  norm2 (Calculator.velocity_direction v nu) = v
  /\ norm2 (Kepler.velocity_direction kel v nu) = v.
Proof.
  rewrite perpendicular_direction, kepler_direction.
  set (N := sqrt _). pose proof kepler_norm_pos as HN. fold N in HN.
  unfold norm2. cbn [fst snd]. split.
  - replace (- v * sin nu * (- v * sin nu) + v * cos nu * (v * cos nu))
      with (v * v * ((sin nu)² + (cos nu)²)) by (unfold Rsqr; ring).
    rewrite sin2_cos2, Rmult_1_r. apply sqrt_square. lra.
  - assert (HNN : N * N = (- v * sin nu) ^ 2 + (v * (e + cos nu)) ^ 2).
    { unfold N. apply sqrt_sqrt. apply Rlt_le.
      assert (0 < (v * sin nu) ^ 2) by (apply pow_lt; now apply Rmult_lt_0_compat).
      pose proof (pow2_ge_0 (v * (e + cos nu))). nra. }
    replace (- v * sin nu / N * v * (- v * sin nu / N * v)
             + v * (e + cos nu) / N * v * (v * (e + cos nu) / N * v))
      with (v * v * (((- v * sin nu) ^ 2 + (v * (e + cos nu)) ^ 2) / (N * N)))
      by (field; lra).
    rewrite <- HNN. replace (N * N / (N * N)) with 1 by (field; lra).
    rewrite Rmult_1_r. apply sqrt_square. lra.
Qed.

End Directions.

(** C8: there is an input, the elements of [calculate_position] one day
    after perihelion, at which the two velocity-direction formulas, fed the
    same speed and true anomaly, give different orbital-plane vectors of
    the same magnitude: (a) [v_angle = nu + pi/2], which gives the
    orbital-plane velocity of [calculate_position], and (b)
    [(-sin nu, e + cos nu)] normalized and scaled, which gives the one of
    [kepler_fallback_trajectory]; the two are different functions. *)
Theorem C8_velocity_directions_differ :
  exists (el : Calculator.elements) (kel : Kepler.elements) (t : R),
    (1 < Calculator.eccentricity el)%R
    /\ Kepler.el_e kel = Calculator.eccentricity el
    /\ Calculator.velocity_orb el t
       = Calculator.velocity_direction (Calculator.speed el t)
           (Calculator.true_anomaly el t)
    /\ (forall newton dt_days,
          Kepler.velocity_orb newton kel dt_days
          = Kepler.velocity_direction kel (Kepler.speed newton kel dt_days)
              (Kepler.true_anomaly newton kel dt_days))
    /\ Calculator.velocity_direction (Calculator.speed el t)
         (Calculator.true_anomaly el t)
       <> Kepler.velocity_direction kel (Calculator.speed el t)
            (Calculator.true_anomaly el t)
    /\ norm2 (Calculator.velocity_direction (Calculator.speed el t)
                (Calculator.true_anomaly el t))
       = norm2 (Kepler.velocity_direction kel (Calculator.speed el t)
                  (Calculator.true_anomaly el t))
    /\ Calculator.velocity_direction <> Kepler.velocity_direction kel.
Proof.
  exists Calculator.ATLAS_ELEMENTS.
  exists (Kepler.mkElements (Calculator.eccentricity Calculator.ATLAS_ELEMENTS)
            (Calculator.perihelion_au Calculator.ATLAS_ELEMENTS)
            (Calculator.inclination Calculator.ATLAS_ELEMENTS)).
  exists 1%R.
  assert (He : (1 < Calculator.eccentricity Calculator.ATLAS_ELEMENTS)%R)
    by (cbn; lra).
  assert (Hq : (0 < Calculator.perihelion_au Calculator.ATLAS_ELEMENTS)%R)
    by (cbn; lra).
  pose proof (speed_pos _ He Hq 1%R) as Hv.
  pose proof (true_anomaly_range _ He Hq 1%R Rlt_0_1) as [Hn0 Hn1].
  pose proof (sin_gt_0 _ Hn0 Hn1) as Hsin.
  set (kel := Kepler.mkElements _ _ _).
  assert (Hd := directions_differ _ _ _ He Hv Hsin kel eq_refl).
  destruct (directions_same_norm _ _ _ Hv Hsin kel eq_refl) as [Na Nb].
  repeat split; try assumption.
  - now rewrite Na, Nb.
  - intros E. apply Hd. now rewrite E.
Qed.

(** ** [calculate_position] far from perihelion: the range of binary64 *)

Section FloatRange.

Local Open Scope R_scope.

Lemma exp_nat_pow (x : R) (n : nat) : exp (INR n * x) = exp x ^ n.
Proof.
  induction n as [|n IH].
  - cbn [INR pow]. rewrite Rmult_0_l. apply exp_0.
  - rewrite S_INR, Rmult_plus_distr_r, Rmult_1_l, exp_plus, IH.
    cbn [pow]. ring.
Qed.






Lemma sinh_lower (x : R) : 0 <= x -> (exp x - 1) / 2 <= sinh x.
Proof.
  intros Hx. unfold sinh.
  assert (exp (- x) <= 1).
  { rewrite <- exp_0. destruct (Req_dec x 0) as [->|Hne].
    - rewrite Ropp_0. lra.
    - apply Rlt_le, exp_increasing. lra. }
  lra.
Qed.

Lemma sinh_le_cosh (x : R) : Rabs (sinh x) <= cosh x.
Proof.
  unfold sinh, cosh. pose proof (exp_pos x). pose proof (exp_pos (- x)).
  apply Rabs_le. lra.
Qed.

Lemma cosh_le_exp (x : R) : 0 <= x -> cosh x <= exp x.
Proof.
  intros Hx. unfold cosh.
  assert (exp (- x) <= exp x).
  { destruct (Req_dec x 0) as [->|Hne]; [rewrite Ropp_0; lra|].
    apply Rlt_le, exp_increasing. lra. }
  lra.
Qed.



Lemma overflows_false (x : R) :
  Rabs x <= Binary64.float_max -> Binary64.overflows x = false.
Proof.
  intros H. unfold Binary64.overflows.
  destruct (Rlt_dec Binary64.float_max (Rabs x)); [lra | reflexivity].
Qed.

(** The semi-major axis and the mean motion of the elements of the
    class. *)
Lemma atlas_axis :
  - (27 / 100) <= Calculator.semi_major_axis Calculator.ATLAS_ELEMENTS <= - (26 / 100).
Proof.
  unfold Calculator.semi_major_axis. cbn [Calculator.perihelion_au
    Calculator.eccentricity Calculator.ATLAS_ELEMENTS]. lra.
Qed.

Lemma atlas_mean_motion :
  12 / 100 <= Calculator.mean_motion Calculator.ATLAS_ELEMENTS <= 13 / 100.
Proof.
  unfold Calculator.mean_motion.
  set (a := Calculator.semi_major_axis Calculator.ATLAS_ELEMENTS).
  pose proof atlas_axis as Ha. fold a in Ha.
  assert (Hcube : (26 / 100) ^ 3 <= Rabs (a ^ 3) <= (27 / 100) ^ 3).
  { rewrite <- RPow_abs. rewrite (Rabs_left a) by lra.
    split; apply pow_incr; lra. }
  assert (Hpos : 0 < Rabs (a ^ 3)) by lra.
  unfold Calculator.MU_SUN.
  split.
  - rewrite <- (sqrt_square (12 / 100)) by lra.
    apply sqrt_le_1_alt.
    apply (Rmult_le_reg_r (Rabs (a ^ 3))); [exact Hpos|].
    replace (2.959122083e-4 / Rabs (a ^ 3) * Rabs (a ^ 3)) with 2.959122083e-4
      by (field; lra).
    lra.
  - rewrite <- (sqrt_square (13 / 100)) by lra.
    apply sqrt_le_1_alt.
    apply (Rmult_le_reg_r (Rabs (a ^ 3))); [exact Hpos|].
    replace (2.959122083e-4 / Rabs (a ^ 3) * Rabs (a ^ 3)) with 2.959122083e-4
      by (field; lra).
    lra.
Qed.

Lemma newton_run_turn (el : Calculator.elements) (k : nat) (M : R)
      (F : Binary64.value) :
  CalculatorRun.newton_run el (S k) M F
  = match CalculatorRun.newton_turn el M F with
    | Ok F' => CalculatorRun.newton_run el k M F'
    | Raise x => Raise x
    end.
Proof. reflexivity. Qed.



(** *** The mirrored run *)

Lemma overflows_opp (x : R) : Binary64.overflows (- x) = Binary64.overflows x.
Proof. unfold Binary64.overflows. now rewrite Rabs_Ropp. Qed.

Lemma newton_turn_opp (el : Calculator.elements) (M f : R) :
  CalculatorRun.newton_turn el (- M) (Binary64.Finite (- f))
  = match CalculatorRun.newton_turn el M (Binary64.Finite f) with
    | Ok (Binary64.Finite x) => Ok (Binary64.Finite (- x))
    | other => other
    end.
Proof.
  cbn [CalculatorRun.newton_turn]. rewrite sinh_opp, cosh_opp.
  rewrite Ropp_mult_distr_r_reverse, !overflows_opp.
  destruct (Binary64.overflows (sinh f) || Binary64.overflows (cosh f));
    [reflexivity|].
  destruct (Binary64.overflows (Calculator.eccentricity el * sinh f));
    [reflexivity|].
  destruct (Binary64.overflows (Calculator.eccentricity el * cosh f));
    [reflexivity|].
  now rewrite newton_step_opp.
Qed.

(** Once the anomaly is inf or nan, it never is a number again. *)
Lemma newton_run_finite (el : Calculator.elements) (n : nat) (M : R)
      (v : Binary64.value) (F' : R) :
  CalculatorRun.newton_run el n M v = Ok (Binary64.Finite F') ->
  exists f, v = Binary64.Finite f.
Proof.
  revert v; induction n as [|n IH]; intros v H.
  - cbn [CalculatorRun.newton_run] in H. injection H as ->. now exists F'.
  - destruct v as [f| |]; [now exists f| |];
      rewrite newton_run_turn in H; cbn [CalculatorRun.newton_turn] in H;
      destruct (IH _ H) as [f Hf]; discriminate Hf.
Qed.

Lemma newton_run_opp (el : Calculator.elements) (n : nat) (M F F' : R) :
  CalculatorRun.newton_run el n M (Binary64.Finite F) = Ok (Binary64.Finite F') ->
  CalculatorRun.newton_run el n (- M) (Binary64.Finite (- F))
  = Ok (Binary64.Finite (- F')).
Proof.
  revert F; induction n as [|n IH]; intros F H.
  - cbn [CalculatorRun.newton_run] in *. injection H as ->. reflexivity.
  - rewrite newton_run_turn in *. rewrite newton_turn_opp.
    destruct (CalculatorRun.newton_turn el M (Binary64.Finite F))
      as [v|x]; [|discriminate H].
    destruct (newton_run_finite _ _ _ _ _ H) as [f ->].
    now apply IH.
Qed.

(** If [calculate_position] returns a state at the elapsed time [t], it
    returns one at [- t], at the same distance. *)
Lemma run_opp (el : Calculator.elements) (t : R) (st : Calculator.state) :
  CalculatorRun.calculate_position el t = Ok (Some st) ->
  exists st',
    CalculatorRun.calculate_position el (- t) = Ok (Some st')
    /\ Calculator.distance_au st' = Calculator.distance_au st.
Proof.
  unfold CalculatorRun.calculate_position. intros H.
  replace (Calculator.mean_anomaly el (- t))
    with (- Calculator.mean_anomaly el t)
    by (unfold Calculator.mean_anomaly; ring).
  destruct (CalculatorRun.newton_run el 10 (Calculator.mean_anomaly el t)
              (Binary64.Finite (Calculator.mean_anomaly el t)))
    as [[F| |]|x] eqn:E; try discriminate H.
  rewrite (newton_run_opp _ _ _ _ _ E). rewrite cosh_opp.
  destruct (Binary64.overflows (cosh F)); [discriminate H|].
  destruct (Binary64.overflows (Calculator.eccentricity el * cosh F)
            || Binary64.overflows
                 (Calculator.semi_major_axis el
                  * (1 - Calculator.eccentricity el * cosh F)));
    [discriminate H|].
  injection H as <-. eexists. split; [reflexivity|].
  unfold CalculatorRun.state_at. cbn [Calculator.distance_au].
  now rewrite cosh_opp.
Qed.

Lemma run_distance_pos (el : Calculator.elements) (t : R) (st : Calculator.state) :
  1 < Calculator.eccentricity el -> 0 < Calculator.perihelion_au el ->
  CalculatorRun.calculate_position el t = Ok (Some st) ->
  0 < Calculator.distance_au st.
Proof.
  unfold CalculatorRun.calculate_position. intros He Hq H.
  destruct (CalculatorRun.newton_run el 10 (Calculator.mean_anomaly el t)
              (Binary64.Finite (Calculator.mean_anomaly el t)))
    as [[F| |]|x]; try discriminate H.
  destruct (Binary64.overflows (cosh F)); [discriminate H|].
  destruct (Binary64.overflows (Calculator.eccentricity el * cosh F)
            || Binary64.overflows
                 (Calculator.semi_major_axis el
                  * (1 - Calculator.eccentricity el * cosh F)));
    [discriminate H|].
  injection H as <-.
  unfold CalculatorRun.state_at. cbn [Calculator.distance_au].
  apply Rabs_pos_lt.
  pose proof (calculator_axis_negative el He Hq) as Ha.
  pose proof (cosh_ge_1 F) as Hc.
  assert (1 - Calculator.eccentricity el * cosh F < 0) by nra.
  nra.
Qed.

(** *** The run within the range *)

Lemma newton_turn_exact (el : Calculator.elements) (M f : R) :
  1 <= Calculator.eccentricity el ->
  Calculator.eccentricity el * cosh f <= Binary64.float_max ->
  CalculatorRun.newton_turn el M (Binary64.Finite f)
  = Ok (Binary64.Finite (Calculator.newton_step el M f)).
Proof.
  intros He Hc. cbn [CalculatorRun.newton_turn].
  set (e := Calculator.eccentricity el) in *.
  pose proof (cosh_ge_1 f) as H1. pose proof (sinh_le_cosh f) as Hs.
  rewrite (overflows_false (sinh f)) by nra.
  rewrite (overflows_false (cosh f)) by (rewrite Rabs_right; nra).
  rewrite (overflows_false (e * sinh f))
    by (rewrite Rabs_mult, (Rabs_right e) by lra; nra).
  rewrite (overflows_false (e * cosh f)) by (rewrite Rabs_right; nra).
  reflexivity.
Qed.

Lemma newton_run_exact (el : Calculator.elements) (n : nat) (M F : R) :
  1 <= Calculator.eccentricity el ->
  (forall k, (k < n)%nat ->
     Calculator.eccentricity el * cosh (Calculator.newton_loop el k M F)
     <= Binary64.float_max) ->
  CalculatorRun.newton_run el n M (Binary64.Finite F)
  = Ok (Binary64.Finite (Calculator.newton_loop el n M F)).
Proof.
  intros He. revert F; induction n as [|n IH]; intros F H.
  - reflexivity.
  - rewrite newton_run_turn.
    rewrite newton_turn_exact by (try exact He; apply (H 0%nat); lia).
    cbn [Calculator.newton_loop]. apply IH.
    intros k Hk. apply (H (S k)). lia.
Qed.

Lemma sinh_ge_half (x : R) : 0 <= x -> x / 2 <= sinh x.
Proof.
  intros Hx. pose proof (sinh_lower x Hx). pose proof (exp_ineq1_le x). lra.
Qed.

(** A Newton step from a positive anomaly adds at most M / (e - 1). *)
Lemma newton_step_upper (el : Calculator.elements) (M F d : R) :
  1 <= d -> d <= Calculator.eccentricity el - 1 -> 0 < M -> 0 < F ->
  Calculator.newton_step el M F <= F + M / d.
Proof.
  intros Hd He HM HF. unfold Calculator.newton_step.
  set (e := Calculator.eccentricity el) in *.
  pose proof (cosh_ge_1 F) as Hc.
  pose proof (sinh_ge_half F ltac:(lra)) as Hs.
  set (D := e * cosh F - 1).
  set (N := e * sinh F - F - M).
  assert (HD : d <= D) by (unfold D; nra).
  assert (HN : - N <= M) by (unfold N; nra).
  assert (HiD : 0 < / D) by (apply Rinv_0_lt_compat; lra).
  assert (Hid : / D <= / d) by (apply Rinv_le_contravar; lra).
  unfold Rdiv. nra.
Qed.

Lemma newton_loop_upper (el : Calculator.elements) (n : nat) (M F d : R) :
  1 <= d -> d <= Calculator.eccentricity el - 1 -> 0 < M -> 0 < F ->
  0 < Calculator.newton_loop el n M F <= F + INR n * (M / d).
Proof.
  intros Hd He HM. revert F; induction n as [|n IH]; intros F HF.
  - cbn [Calculator.newton_loop INR]. lra.
  - cbn [Calculator.newton_loop]. rewrite S_INR.
    pose proof (newton_step_upper el M F d Hd He HM HF) as Hu.
    assert (Hp : 0 < Calculator.newton_step el M F)
      by (apply newton_step_pos; lra).
    specialize (IH _ Hp). lra.
Qed.

Lemma exp_600 : exp 600 <= 3 ^ 600.
Proof.
  replace 600 with (INR 600 * 1).
  - rewrite exp_nat_pow. apply pow_incr. split; [|exact exp_le_3].
    apply Rlt_le, exp_pos.
  - rewrite INR_IZR_INZ. replace (Z.of_nat 600) with 600%Z by reflexivity. lra.
Qed.

Lemma seven_exp_600 : 7 * exp 600 <= Binary64.float_max.
Proof.
  apply (Rle_trans _ (7 * 3 ^ 600)); [pose proof exp_600; lra|].
  unfold Binary64.float_max. rewrite pow_IZR, <- mult_IZR. apply IZR_le.
  vm_compute. discriminate.
Qed.

Lemma cosh_in_range (e F : R) :
  1 <= e <= 7 -> Rabs F <= 600 -> e * cosh F <= Binary64.float_max.
Proof.
  intros He HF.
  assert (Hc : cosh F <= exp 600).
  { assert (Hpos : forall x, 0 <= x <= 600 -> cosh x <= exp 600).
    { intros x Hx. apply (Rle_trans _ (exp x)); [apply cosh_le_exp; lra|].
      destruct (Req_dec x 600) as [->|Hne]; [lra|].
      apply Rlt_le, exp_increasing. lra. }
    unfold Rabs in HF. destruct (Rcase_abs F).
    - rewrite <- cosh_opp. apply Hpos. lra.
    - apply Hpos. lra. }
  pose proof seven_exp_600. pose proof (cosh_ge_1 F). nra.
Qed.

(** The elements of the class: with a mean anomaly of at most 195 (1500
    days from perihelion) the iterates of the loop stay within 3 |M|. *)
Lemma atlas_iterates (M : R) (k : nat) :
  Rabs M <= 195 -> (k <= 10)%nat ->
  Rabs (Calculator.newton_loop Calculator.ATLAS_ELEMENTS k M M) <= 600.
Proof.
  intros HM Hk.
  assert (Hpos : forall x, 0 < x <= 195 ->
            0 < Calculator.newton_loop Calculator.ATLAS_ELEMENTS k x x <= 600).
  { intros x Hx.
    pose proof (newton_loop_upper Calculator.ATLAS_ELEMENTS k x x 5) as H.
    cbn [Calculator.eccentricity Calculator.ATLAS_ELEMENTS] in H.
    specialize (H ltac:(lra) ltac:(lra) ltac:(lra) ltac:(lra)).
    assert (HK : INR k <= 10).
    { apply le_INR in Hk.
      replace (INR 10) with 10 in Hk by (rewrite INR_IZR_INZ; reflexivity).
      exact Hk. }
    assert (0 <= INR k) by apply pos_INR.
    nra. }
  unfold Rabs in HM. destruct (Rcase_abs M) as [Hneg|Hnn].
  - pose proof (newton_loop_opp Calculator.ATLAS_ELEMENTS k (- M) (- M)) as Ho.
    rewrite !Ropp_involutive in Ho. rewrite Ho, Rabs_Ropp.
    specialize (Hpos (- M) ltac:(lra)). rewrite Rabs_right; lra.
  - destruct (Req_dec M 0) as [->|Hne].
    + rewrite newton_loop_zero, Rabs_R0. lra.
    + specialize (Hpos M ltac:(lra)). rewrite Rabs_right; lra.
Qed.

(** Within 1500 days of perihelion [calculate_position] returns the
    state of the formulas. *)
Lemma run_in_range (t : R) :
  Rabs t <= 1500 ->
  CalculatorRun.calculate_position Calculator.ATLAS_ELEMENTS t
  = Ok (Some (Calculator.calculate_position Calculator.ATLAS_ELEMENTS t)).
Proof.
  intros Ht. unfold CalculatorRun.calculate_position.
  set (el := Calculator.ATLAS_ELEMENTS).
  set (M := Calculator.mean_anomaly el t).
  assert (He : 1 <= Calculator.eccentricity el <= 7) by (cbn; lra).
  assert (HM : Rabs M <= 195).
  { unfold M, Calculator.mean_anomaly. rewrite Rabs_mult.
    pose proof atlas_mean_motion as Hn. fold el in Hn.
    rewrite (Rabs_right (Calculator.mean_motion el)) by lra.
    pose proof (Rabs_pos t). nra. }
  rewrite newton_run_exact.
  - set (F := Calculator.newton_loop el 10 M M).
    pose proof (cosh_in_range _ F He (atlas_iterates M 10 HM (le_n _))) as Hc.
    pose proof (cosh_ge_1 F) as H1.
    pose proof atlas_axis as Ha. fold el in Ha.
    assert (He6 : 6 <= Calculator.eccentricity el) by (cbn; lra).
    rewrite (overflows_false (cosh F)) by (rewrite Rabs_right; nra).
    rewrite (overflows_false (Calculator.eccentricity el * cosh F))
      by (rewrite Rabs_right; nra).
    rewrite (overflows_false
               (Calculator.semi_major_axis el
                * (1 - Calculator.eccentricity el * cosh F))).
    + reflexivity.
    + rewrite Rabs_mult.
      rewrite (Rabs_left (Calculator.semi_major_axis el)) by lra.
      rewrite (Rabs_left (1 - Calculator.eccentricity el * cosh F)) by nra.
      assert (HX : 5 <= Calculator.eccentricity el * cosh F - 1) by nra.
      set (X := Calculator.eccentricity el * cosh F) in *.
      set (a := Calculator.semi_major_axis el) in *.
      assert (0 <= (a + 27 / 100) * (X - 1)) by (apply Rmult_le_pos; lra).
      lra.
  - lra.
  - intros k Hk. apply cosh_in_range; [exact He|].
    apply atlas_iterates; [exact HM | lia].
Qed.

End FloatRange.




(** * Further properties of the sources *)

(** ** The matcher: what a match consumes *)

Section MatcherFacts.

Context {A : Type}.

Lemma star_greedy_sound (p : ascii -> bool) (s : string)
      (k : string -> option A) (x : A) :
  Re.star_greedy p s k = Some x ->
  exists pre s', s = pre ++ s' /\ all_chars p pre = true /\ k s' = Some x.
Proof.
  induction s as [|c s IH]; cbn [Re.star_greedy].
  - intros H. now exists "", "".
  - destruct (p c) eqn:Hc.
    + destruct (Re.star_greedy p s k) as [y|] eqn:E.
      * intros [= ->]. destruct (IH eq_refl) as (pre & s' & -> & Hp & Hk).
        exists (String c pre), s'. cbn [append all_chars]. now rewrite Hc, Hp.
      * intros H. now exists "", (String c s).
    + intros H. now exists "", (String c s).
Qed.

Lemma star_greedy_complete (p : ascii -> bool) (pre s' : string)
      (k : string -> option A) :
  all_chars p pre = true -> k s' <> None ->
  Re.star_greedy p (pre ++ s') k <> None.
Proof.
  induction pre as [|c pre IH]; cbn [append all_chars]; intros Hp Hk.
  - destruct s' as [|c s']; cbn [Re.star_greedy]; [exact Hk|].
    destruct (p c); [|exact Hk].
    destruct (Re.star_greedy p s' k); [discriminate | exact Hk].
  - apply andb_prop in Hp as [Hc Hp]. cbn [Re.star_greedy]. rewrite Hc.
    specialize (IH Hp Hk).
    destruct (Re.star_greedy p (pre ++ s') k); [discriminate | contradiction].
Qed.

Lemma star_lazy_sound (p : ascii -> bool) (s : string)
      (k : string -> option A) (x : A) :
  Re.star_lazy p s k = Some x ->
  exists pre s', s = pre ++ s' /\ all_chars p pre = true /\ k s' = Some x.
Proof.
  induction s as [|c s IH]; cbn [Re.star_lazy].
  - destruct (k "") eqn:E; [|discriminate]. intros [= ->]. now exists "", "".
  - destruct (k (String c s)) eqn:E.
    + intros [= ->]. now exists "", (String c s).
    + destruct (p c) eqn:Hc; [|discriminate].
      intros H. destruct (IH H) as (pre & s' & -> & Hp & Hk).
      exists (String c pre), s'. cbn [append all_chars]. now rewrite Hc, Hp.
Qed.

Lemma star_lazy_complete (p : ascii -> bool) (pre s' : string)
      (k : string -> option A) :
  all_chars p pre = true -> k s' <> None ->
  Re.star_lazy p (pre ++ s') k <> None.
Proof.
  induction pre as [|c pre IH]; cbn [append all_chars]; intros Hp Hk.
  - destruct s' as [|c s']; cbn [Re.star_lazy];
      destruct (k _); try discriminate; contradiction.
  - apply andb_prop in Hp as [Hc Hp]. cbn [Re.star_lazy].
    destruct (k (String c (pre ++ s'))); [discriminate|].
    rewrite Hc. now apply IH.
Qed.

Lemma rmatch_lits_app (lit : string) (tail : Re.regex) (s : string)
      (caps : list string) (k : string -> list string -> option A) :
  Re.rmatch (Re.lits lit tail) (lit ++ s) caps k = Re.rmatch tail s caps k.
Proof.
  induction lit as [|c lit IH]; [reflexivity|].
  cbn [Re.lits append Re.rmatch]. now rewrite Ascii.eqb_refl.
Qed.

Lemma rmatch_lits_inv (lit : string) (tail : Re.regex) (s : string)
      (caps : list string) (k : string -> list string -> option A) (x : A) :
  Re.rmatch (Re.lits lit tail) s caps k = Some x ->
  exists b, s = lit ++ b /\ Re.rmatch tail b caps k = Some x.
Proof.
  intros H. destruct (proj1 (prefix_app lit s) (rmatch_lits _ _ _ _ _ _ H)) as [b ->].
  exists b. split; [reflexivity|]. now rewrite rmatch_lits_app in H.
Qed.

End MatcherFacts.

Section DataSection.

Lemma all_chars_any (s : string) : all_chars Re.any_char s = true.
Proof. induction s; [reflexivity | exact IHs]. Qed.

Lemma length_app (a b : string) :
  String.length (a ++ b) = String.length a + String.length b.
Proof. induction a; cbn [append String.length]; [reflexivity | now rewrite IHa]. Qed.

Lemma take_app (a b : string) : take (String.length a) (a ++ b) = a.
Proof. induction a; cbn [append String.length take]; [now destruct b | now rewrite IHa]. Qed.

(** What a match of the data-section pattern at the head of [s] reads. *)
Lemma soe_match_sound (s : string) (caps : list string) :
  Re.rmatch Re.soe_re s [] (fun _ caps => Some caps) = Some caps ->
  exists ws body rest,
    s = "$$SOE" ++ ws ++ String nl (body ++ "$$EOE" ++ rest)
    /\ all_chars is_space ws = true /\ caps = [body].
Proof.
  unfold Re.soe_re. intros H.
  apply rmatch_lits_inv in H as (b & -> & H).
  cbn [Re.rmatch] in H.
  apply star_greedy_sound in H as (ws & s1 & -> & Hws & H).
  destruct s1 as [|c s1]; [discriminate|].
  destruct (Ascii.eqb_spec c nl) as [->|]; [|discriminate].
  apply star_lazy_sound in H as (body & s2 & -> & _ & H).
  apply rmatch_lits_inv in H as (rest & -> & H).
  cbn [Re.rmatch] in H. injection H as <-.
  exists ws, body, rest. split; [reflexivity|]. split; [exact Hws|].
  cbn [app]. do 2 f_equal.
  rewrite length_app.
  rewrite Nat.add_sub.
  apply take_app.
Qed.

Lemma soe_match_complete (ws body rest : string) :
  all_chars is_space ws = true ->
  Re.rmatch Re.soe_re ("$$SOE" ++ ws ++ String nl (body ++ "$$EOE" ++ rest))
    [] (fun _ caps => Some caps) <> None.
Proof.
  intros Hws. unfold Re.soe_re. rewrite rmatch_lits_app.
  cbn [Re.rmatch].
  apply star_greedy_complete; [exact Hws|].
  rewrite Ascii.eqb_refl.
  apply star_lazy_complete; [apply all_chars_any|].
  rewrite rmatch_lits_app. discriminate.
Qed.

Lemma search_sound (r : Re.regex) (s : string) (caps : list string) :
  Re.search r s = Some caps ->
  exists pre s', s = pre ++ s'
    /\ Re.rmatch r s' [] (fun _ caps => Some caps) = Some caps.
Proof.
  induction s as [|c s IH]; cbn [Re.search];
    destruct (Re.rmatch r _ [] _) eqn:E.
  - intros [= ->]. now exists "", "".
  - discriminate.
  - intros [= ->]. now exists "", (String c s).
  - intros H. destruct (IH H) as (pre & s' & -> & Hm).
    now exists (String c pre), s'.
Qed.

Lemma search_complete (r : Re.regex) (pre s' : string) :
  Re.rmatch r s' [] (fun _ caps => Some caps) <> None ->
  Re.search r (pre ++ s') <> None.
Proof.
  intros H. induction pre as [|c pre IH]; cbn [append].
  - destruct s'; cbn [Re.search]; destruct (Re.rmatch r _ [] _);
      try discriminate; contradiction.
  - cbn [Re.search].
    destruct (Re.rmatch r (String c _) [] _); [discriminate | exact IH].
Qed.

End DataSection.

(** X1: [parse_horizons_vectors] returns a list exactly when the text
    holds the start marker, then whitespace up to a line break, and the
    end marker somewhere after that line break; on every other text it
    raises the ValueError "Could not find data section in Horizons
    result".  No later step of the parser raises. *)
Theorem X1_data_section_found (text : string) :
  (exists data_points, parse_horizons_vectors text = Ok data_points)
  <-> (exists pre ws body rest,
          text = pre ++ "$$SOE" ++ ws ++ String nl (body ++ "$$EOE" ++ rest)
          /\ all_chars is_space ws = true).
Proof.
  unfold parse_horizons_vectors. split.
  - intros [pts H].
    destruct (Re.search Re.soe_re text) as [caps|] eqn:E; [|discriminate].
    apply search_sound in E as (pre & s' & -> & E).
    apply soe_match_sound in E as (ws & body & rest & -> & Hws & _).
    now exists pre, ws, body, rest.
  - intros (pre & ws & body & rest & -> & Hws).
    pose proof (search_complete Re.soe_re pre _ (soe_match_complete ws body rest Hws)) as H.
    destruct (Re.search Re.soe_re _); [eauto | contradiction].
Qed.

(** ** The data section of the labelled format *)

Section BetweenMarkers.

Lemma no_dollar_cons (c : ascii) (s : string) :
  contains "$" (String c s) = false ->
  Ascii.eqb c "$" = false /\ contains "$" s = false.
Proof. rewrite contains_char_cons. apply orb_false_elim. Qed.

Lemma star_lazy_skip {A : Type} (u t : string) (k : string -> option A) :
  contains "$" u = false ->
  (forall c x, Ascii.eqb c "$" = false -> k (String c x) = None) ->
  Re.star_lazy Re.any_char (u ++ t) k = Re.star_lazy Re.any_char t k.
Proof.
  intros Hu Hk. induction u as [|c u IH]; [reflexivity|].
  apply no_dollar_cons in Hu as [Hc Hu].
  cbn [append Re.star_lazy]. rewrite (Hk c _ Hc). cbn [Re.any_char]. now apply IH.
Qed.

Lemma tail_match (u rest : string) :
  contains "$" u = false ->
  Re.rmatch section_re (u ++ "$$EOE" ++ rest) [] groups_found = Some [u].
Proof.
  intros Hu. unfold section_re. cbn [Re.rmatch].
  rewrite star_lazy_skip; [|exact Hu|].
  - change ("$$EOE" ++ rest) with (String "$" ("$EOE" ++ rest)).
    cbn [Re.star_lazy].
    change (String "$" ("$EOE" ++ rest)) with ("$$EOE" ++ rest).
    rewrite rmatch_lits_app. cbn [Re.rmatch groups_found app].
    rewrite length_app, Nat.add_sub, take_app. reflexivity.
  - intros c x Hc. cbn [Re.lits Re.rmatch]. now rewrite Hc.
Qed.

Lemma after_space_newline (u rest : string) :
  contains "$" u = false ->
  after_space (String nl (u ++ "$$EOE" ++ rest)) = Some [u].
Proof.
  intros Hu. unfold after_space. cbn [Re.rmatch].
  rewrite Ascii.eqb_refl. now apply tail_match.
Qed.

Lemma strip_space_head (c : ascii) (s : string) :
  is_space c = true -> strip (String c s) = strip s.
Proof. intros H. unfold strip. cbn [lstrip]. now rewrite H. Qed.

(** The greedy whitespace run stops at the last line break that lies in
    the whitespace in front of the section. *)
Lemma greedy_in_body (body rest : string) :
  contains "$" body = false ->
  Re.star_greedy is_space (body ++ "$$EOE" ++ rest) after_space = None
  \/ exists g, Re.star_greedy is_space (body ++ "$$EOE" ++ rest) after_space
               = Some [g] /\ strip g = strip body.
Proof.
  induction body as [|c body IH]; intros Hb.
  - left. reflexivity.
  - apply no_dollar_cons in Hb as [Hc Hb]. specialize (IH Hb).
    pose proof (after_space_newline body rest Hb) as Hnl.
    remember ("$$EOE" ++ rest) as t eqn:Et.
    cbn [append Re.star_greedy].
    destruct (is_space c) eqn:Hs.
    + destruct IH as [IH|(g & IH & Hg)]; rewrite IH.
      * destruct (Ascii.eqb_spec c nl) as [->|Hne].
        -- right. exists body. split; [exact Hnl|].
           symmetry. now apply strip_space_head.
        -- left. unfold after_space. cbn [Re.rmatch].
           destruct (Ascii.eqb_spec c nl); [contradiction | reflexivity].
      * right. exists g. split; [reflexivity|].
        rewrite Hg. symmetry. now apply strip_space_head.
    + left. unfold after_space. cbn [Re.rmatch].
      destruct (Ascii.eqb_spec c nl) as [->|]; [discriminate | reflexivity].
Qed.

Lemma greedy_before_body (ws body rest : string) :
  all_chars is_space ws = true -> contains "$" body = false ->
  exists g, Re.star_greedy is_space
              (ws ++ String nl (body ++ "$$EOE" ++ rest)) after_space
            = Some [g] /\ strip g = strip body.
Proof.
  intros Hws Hb.
  pose proof (after_space_newline body rest Hb) as Hnl.
  pose proof (greedy_in_body body rest Hb) as Hin.
  remember ("$$EOE" ++ rest) as t eqn:Et.
  induction ws as [|c ws IH].
  - cbn [append Re.star_greedy].
    change (is_space nl) with true. cbn match.
    destruct Hin as [E|(g & E & Hg)]; rewrite E.
    + exists body. split; [exact Hnl | reflexivity].
    + now exists g.
  - cbn [all_chars] in Hws. apply andb_prop in Hws as [Hc Hws].
    destruct (IH Hws) as (g & E & Hg).
    cbn [append Re.star_greedy]. rewrite Hc, E. now exists g.
Qed.

Lemma search_skip (pre s : string) :
  contains "$" pre = false ->
  Re.search Re.soe_re (pre ++ s) = Re.search Re.soe_re s.
Proof.
  intros Hp. induction pre as [|c pre IH]; [reflexivity|].
  apply no_dollar_cons in Hp as [Hc Hp].
  cbn [append Re.search].
  replace (Re.rmatch Re.soe_re (String c (pre ++ s)) [] _) with (@None (list string)).
  - now apply IH.
  - unfold Re.soe_re. cbn [Re.lits Re.rmatch]. now rewrite Hc.
Qed.

Lemma search_between (pre ws body rest : string) :
  contains "$" pre = false -> all_chars is_space ws = true ->
  contains "$" body = false ->
  exists g,
    Re.search Re.soe_re
      (pre ++ "$$SOE" ++ ws ++ String nl (body ++ "$$EOE" ++ rest)) = Some [g]
    /\ strip g = strip body.
Proof.
  intros Hp Hws Hb. rewrite (search_skip _ _ Hp).
  destruct (greedy_before_body ws body rest Hws Hb) as (g & E & Hg).
  exists g. split; [|exact Hg].
  assert (M : Re.rmatch Re.soe_re
                ("$$SOE" ++ ws ++ String nl (body ++ "$$EOE" ++ rest)) [] groups_found
              = Some [g]).
  { unfold Re.soe_re. rewrite rmatch_lits_app. cbn [Re.rmatch]. exact E. }
  change ("$$SOE" ++ ws ++ String nl (body ++ "$$EOE" ++ rest))
    with (String "$" ("$SOE" ++ ws ++ String nl (body ++ "$$EOE" ++ rest))) in *.
  cbn [Re.search]. fold groups_found. now rewrite M.
Qed.

Lemma parse_between (pre ws body rest : string) :
  contains "$" pre = false -> all_chars is_space ws = true ->
  contains "$" body = false ->
  parse_horizons_vectors
    (pre ++ "$$SOE" ++ ws ++ String nl (body ++ "$$EOE" ++ rest))
  = Ok (parse_blocks (split_char nl (strip body)) []).
Proof.
  intros Hp Hws Hb.
  destruct (search_between pre ws body rest Hp Hws Hb) as (g & E & Hg).
  unfold parse_horizons_vectors. rewrite E. cbn [Re.group1 nth]. now rewrite Hg.
Qed.

End BetweenMarkers.

(** X2: [parse_horizons_vectors] reads only what lies between the
    markers.  When neither the text before the start marker nor the data
    section holds a dollar sign, the text in front of the start marker, the
    whitespace between the marker and its line break, and everything after
    the end marker do not change the result. *)
Theorem X2_outside_markers_ignored (pre ws body rest : string)
        (Hpre : contains "$" pre = false)
        (Hws : all_chars is_space ws = true)
        (Hbody : contains "$" body = false) :
  parse_horizons_vectors
    (pre ++ "$$SOE" ++ ws ++ String nl (body ++ "$$EOE" ++ rest))
  = parse_horizons_vectors ("$$SOE" ++ String nl (body ++ "$$EOE")).
Proof.
  rewrite (parse_between pre ws body rest Hpre Hws Hbody).
  symmetry. exact (parse_between "" "" body "" eq_refl eq_refl Hbody).
Qed.

Lemma X2_outside_markers_ignored_witness :
  contains "$" "API VERSION: 1.2 " = false
  /\ all_chars is_space "  " = true
  /\ contains "$" "2460857.5 = A.D. 2025-Jul-01 00:00:00.0000 TDB " = false
  /\ parse_horizons_vectors
       ("API VERSION: 1.2 " ++ "$$SOE" ++ "  "
        ++ String nl ("2460857.5 = A.D. 2025-Jul-01 00:00:00.0000 TDB "
                      ++ "$$EOE" ++ " trailer"))
     = parse_horizons_vectors
         ("$$SOE" ++ String nl ("2460857.5 = A.D. 2025-Jul-01 00:00:00.0000 TDB "
                                ++ "$$EOE")).
Proof.
  split; [reflexivity|]. split; [reflexivity|]. split; [reflexivity|].
  apply (X2_outside_markers_ignored "API VERSION: 1.2 " "  "
           "2460857.5 = A.D. 2025-Jul-01 00:00:00.0000 TDB " " trailer");
    reflexivity.
Defined.

(** ** The records of the two parsers *)

Section Records.

Lemma split_char_length_pos (c : ascii) (s : string) :
  1 <= List.length (split_char c s).
Proof.
  induction s as [|a s IH]; cbn [split_char List.length]; [lia|].
  destruct (Ascii.eqb a c); cbn [List.length]; [lia|].
  destruct (split_char c s); cbn [List.length] in *; lia.
Qed.

Lemma split_char_length_cons (c a : ascii) (s : string) :
  List.length (split_char c (String a s))
  = (if Ascii.eqb a c then 1 else 0) + List.length (split_char c s).
Proof.
  pose proof (split_char_length_pos c s) as H.
  cbn [split_char]. destruct (Ascii.eqb a c); [reflexivity|].
  destruct (split_char c s); cbn [List.length] in *; lia.
Qed.

Lemma split_char_length_app (c : ascii) (a b : string) :
  List.length (split_char c (a ++ b)) + 1
  = List.length (split_char c a) + List.length (split_char c b).
Proof.
  induction a as [|x a IH].
  - cbn [append split_char List.length]. lia.
  - change (String x a ++ b) with (String x (a ++ b)).
    rewrite !split_char_length_cons. lia.
Qed.

Lemma split_char_length_piece (c : ascii) (a s b : string) :
  List.length (split_char c s) <= List.length (split_char c (a ++ s ++ b)).
Proof.
  pose proof (split_char_length_app c a (s ++ b)).
  pose proof (split_char_length_app c s b).
  pose proof (split_char_length_pos c a).
  pose proof (split_char_length_pos c b). lia.
Qed.

Lemma split_char_length_strip (c : ascii) (s : string) :
  List.length (split_char c (strip s)) <= List.length (split_char c s).
Proof.
  destruct (strip_piece s) as (a & b & E). rewrite E at 2.
  apply split_char_length_piece.
Qed.

(** Every record of the labelled parser comes from three lines read
    together, and holds a Julian Date and a date string. *)
Lemma parse_blocks_records (n : nat) :
  forall (lines : list string) (data_points : list point),
    List.length lines <= n ->
    exists new,
      parse_blocks lines data_points = (data_points ++ new)%list
      /\ Forall (fun p => jd p <> None /\ date p <> None) new
      /\ 3 * List.length new <= List.length lines.
Proof.
  induction n as [|n IH]; intros lines acc Hn.
  - destruct lines; [|cbn [List.length] in Hn; lia].
    exists []. cbn [parse_blocks List.length]. rewrite app_nil_r. auto.
  - destruct lines as [|l0 rest].
    { exists []. cbn [parse_blocks List.length]. rewrite app_nil_r. auto. }
    cbn [List.length] in Hn.
    assert (Skip : forall tail acc', List.length tail <= List.length rest ->
              acc' = acc ->
              exists new, parse_blocks tail acc' = (acc ++ new)%list
                /\ Forall (fun p => jd p <> None /\ date p <> None) new
                /\ 3 * List.length new <= List.length (l0 :: rest)).
    { intros tail acc' Ht ->.
      destruct (IH tail acc ltac:(lia)) as (new & E & F & L).
      exists new. cbn [List.length]. repeat split; [exact E | exact F | lia]. }
    assert (Stop : exists new, acc = (acc ++ new)%list
                /\ Forall (fun p => jd p <> None /\ date p <> None) new
                /\ 3 * List.length new <= List.length (l0 :: rest)).
    { exists []. rewrite app_nil_r. cbn [List.length]. repeat split; [constructor | lia]. }
    cbn [parse_blocks].
    repeat match goal with
           | |- exists new, acc = _ /\ _ => exact Stop
           | |- exists new, parse_blocks ?t acc = _ /\ _ =>
               apply Skip; [cbn [List.length]; lia | reflexivity]
           | |- context [match ?x with _ => _ end] => destruct x eqn:?
           | |- context [if ?x then _ else _] => destruct x eqn:?
           end.
    match goal with
    | |- exists new, parse_blocks ?t (acc ++ [?p])%list = _ /\ _ =>
        destruct (IH t (acc ++ [p])%list ltac:(cbn [List.length] in *; lia))
          as (new & E & F & L);
        exists (p :: new)
    end.
    rewrite E, <- app_assoc. cbn [app List.length] in *.
    repeat split; [|lia].
    constructor; [|exact F]. cbn [jd date]. split; discriminate.
Qed.

Lemma csv_record_complete (parts : list string) (v : point) :
  csv_record parts = Some v -> jd v <> None /\ date v <> None.
Proof.
  unfold csv_record.
  repeat match goal with
         | |- None = Some _ -> _ => discriminate
         | |- Some _ = Some _ -> _ => intros [= <-]; cbn [jd date]; split; discriminate
         | |- context [match ?x with _ => _ end] => destruct x
         end.
Qed.

Lemma csv_rows_records (lines : list string) :
  forall (in_data : bool) (vectors : list point),
    exists new,
      csv_rows lines in_data vectors = (vectors ++ new)%list
      /\ Forall (fun p => jd p <> None /\ date p <> None) new
      /\ List.length new <= List.length lines.
Proof.
  induction lines as [|l lines IH]; intros in_data vectors.
  - exists []. cbn [csv_rows List.length]. rewrite app_nil_r. auto.
  - assert (Skip : forall b, exists new,
               csv_rows lines b vectors = (vectors ++ new)%list
               /\ Forall (fun p => jd p <> None /\ date p <> None) new
               /\ List.length new <= List.length (l :: lines)).
    { intros b. destruct (IH b vectors) as (new & E & F & L).
      exists new. cbn [List.length]. auto. }
    cbn [csv_rows].
    destruct (startswith "$$SOE" (strip l)); [apply Skip|].
    destruct (startswith "$$EOE" (strip l)).
    { exists []. rewrite app_nil_r. cbn [List.length]. repeat split; [constructor | lia]. }
    destruct (negb in_data || is_empty (strip l) || negb (contains "," (strip l)));
      [apply Skip|].
    destruct (Nat.ltb _ 8); [apply Skip|].
    destruct (csv_record _) as [v|] eqn:Ev; [|apply Skip].
    destruct (IH in_data (vectors ++ [v])%list) as (new & E & F & L).
    exists (v :: new). rewrite E, <- app_assoc. cbn [app List.length].
    repeat split; [|lia].
    constructor; [|exact F]. eapply csv_record_complete, Ev.
Qed.

Lemma csv_rows_before_marker (lines : list string) :
  lines <> [] ->
  exists new,
    csv_rows lines false [] = new
    /\ Forall (fun p => jd p <> None /\ date p <> None) new
    /\ List.length new < List.length lines.
Proof.
  induction lines as [|l lines IH]; [congruence|]. intros _.
  cbn [csv_rows List.length].
  destruct (startswith "$$SOE" (strip l)).
  { destruct (csv_rows_records lines true []) as (new & E & F & L).
    exists new. cbn [app] in E. repeat split; [exact E | exact F | lia]. }
  destruct (startswith "$$EOE" (strip l)).
  { exists []. split; [reflexivity|]. split; [constructor | cbn [List.length]; lia]. }
  cbn [negb orb].
  destruct lines as [|l' lines].
  { exists []. cbn [csv_rows List.length].
    split; [reflexivity|]. split; [constructor | lia]. }
  destruct (IH ltac:(discriminate)) as (new & E & F & L).
  exists new. repeat split; [exact E | exact F | lia].
Qed.

End Records.

(** X3: every record that [parse_horizons_vectors] returns holds a Julian
    Date and a date string, and a record takes three lines of the text:
    three times the number of records is less than the number of lines. *)
Theorem X3_labelled_records (text : string) (data_points : list point) :
  parse_horizons_vectors text = Ok data_points ->
  Forall (fun p => jd p <> None /\ date p <> None) data_points
  /\ 3 * List.length data_points < List.length (split_char nl text).
Proof.
  unfold parse_horizons_vectors.
  destruct (Re.search Re.soe_re text) as [caps|] eqn:E; [|discriminate].
  intros [= <-].
  apply search_sound in E as (pre & s' & -> & E).
  apply soe_match_sound in E as (ws & body & rest & -> & _ & ->).
  cbn [Re.group1 nth].
  destruct (parse_blocks_records _ (split_char nl (strip body)) [] (le_n _))
    as (new & -> & F & L).
  cbn [app]. split; [exact F|].
  pose proof (split_char_length_strip nl body) as H1.
  pose proof (split_char_length_piece nl "" body ("$$EOE" ++ rest)) as H2.
  cbn [append] in H2.
  pose proof (split_char_length_cons nl nl (body ++ "$$EOE" ++ rest)) as H3.
  rewrite Ascii.eqb_refl in H3.
  pose proof (split_char_length_piece nl (pre ++ "$$SOE" ++ ws)
                (String nl (body ++ "$$EOE" ++ rest)) "") as H4.
  replace ((pre ++ "$$SOE" ++ ws) ++ String nl (body ++ "$$EOE" ++ rest) ++ "")
    with (pre ++ "$$SOE" ++ ws ++ String nl (body ++ "$$EOE" ++ rest)) in H4.
  - cbn [append] in *. lia.
  - rewrite !append_assoc. do 3 f_equal.
    clear. generalize (String nl (body ++ "$$EOE" ++ rest)). intros s.
    induction s; cbn [append]; [reflexivity | now rewrite <- IHs].
Qed.

Lemma X3_labelled_records_witness :
  parse_horizons_vectors "$$SOE
2460857.5 = A.D. 2025-Jul-01 00:00:00.0000 TDB
 X = 1.0E+00 Y = 2.0E+00 Z = 3.0E+00
 VX= 1.0E-02 VY= 2.0E-02 VZ= 3.0E-02
$$EOE"
  = Ok [mkPoint (Some (Qmake 4921715 2)) (Some "2025-Jul-01 00:00:00.0000")
          (Qmake 1 1, Qmake 3 1, Qmake (-2) 1)
          (Qmake 1 100, Qmake 3 100, Qmake (-1) 50)]
  /\ Forall (fun p => jd p <> None /\ date p <> None)
       [mkPoint (Some (Qmake 4921715 2)) (Some "2025-Jul-01 00:00:00.0000")
          (Qmake 1 1, Qmake 3 1, Qmake (-2) 1)
          (Qmake 1 100, Qmake 3 100, Qmake (-1) 50)]
  /\ 3 * 1 < 5.
Proof.
  assert (E : parse_horizons_vectors "$$SOE
2460857.5 = A.D. 2025-Jul-01 00:00:00.0000 TDB
 X = 1.0E+00 Y = 2.0E+00 Z = 3.0E+00
 VX= 1.0E-02 VY= 2.0E-02 VZ= 3.0E-02
$$EOE"
  = Ok [mkPoint (Some (Qmake 4921715 2)) (Some "2025-Jul-01 00:00:00.0000")
          (Qmake 1 1, Qmake 3 1, Qmake (-2) 1)
          (Qmake 1 100, Qmake 3 100, Qmake (-1) 50)]) by (vm_compute; reflexivity).
  split; [exact E|].
  exact (X3_labelled_records _ _ E).
Defined.

(** X4: [_parse_vector_data] raises on no text.  Every record it returns
    holds a Julian Date and a date string, and there are fewer records
    than lines: a record takes one line and the start marker takes a
    line. *)
Theorem X4_csv_records (result_text : string) :
  exists vectors,
    _parse_vector_data result_text = Ok vectors
    /\ Forall (fun p => jd p <> None /\ date p <> None) vectors
    /\ List.length vectors < List.length (split_char nl result_text).
Proof.
  unfold _parse_vector_data.
  destruct (csv_rows_before_marker (split_char nl result_text)) as (new & E & F & L).
  - pose proof (split_char_length_pos nl result_text) as H.
    destruct (split_char nl result_text); [cbn [List.length] in H; lia | discriminate].
  - exists new. now rewrite E.
Qed.

(** ** The CSV block: what is read *)

Section CsvReads.

Lemma csv_rows_until_end (rows after : list string) (eoe : string)
      (in_data : bool) (vectors : list point) :
  startswith "$$EOE" (strip eoe) = true ->
  csv_rows (rows ++ eoe :: after)%list in_data vectors
  = csv_rows (rows ++ [eoe])%list in_data vectors.
Proof.
  intros He. revert in_data vectors.
  induction rows as [|r rows IH]; intros in_data vectors; cbn [app csv_rows].
  - unfold startswith in *. rewrite He.
    apply prefix_app in He as [b ->].
    change (String.prefix "$$SOE" ("$$EOE" ++ b)) with false.
    reflexivity.
  - destruct (csv_record _); rewrite !IH; reflexivity.
Qed.

Lemma forallb_app_true {A : Type} (f : A -> bool) (l1 l2 : list A) :
  forallb f l1 = true -> forallb f l2 = true -> forallb f (l1 ++ l2)%list = true.
Proof. intros H1 H2. rewrite forallb_app, H1, H2. reflexivity. Qed.

End CsvReads.

(** X5: [_parse_vector_data] reads the block from the first start-marker
    line to the first end-marker line and nothing else: lines in front of
    the start marker that are no marker lines, and all lines after the end
    marker, do not change the result.  A marker line is any line that
    starts with the marker once stripped. *)
Theorem X5_csv_block_only (before rows after : list string) (soe eoe : string)
        (Hbefore : forallb plain_line before = true)
        (Hsoe : one_line soe = true)
        (Hrows : forallb one_line rows = true)
        (Heoe : one_line eoe = true)
        (Hafter : forallb one_line after = true)
        (Hstart : startswith "$$SOE" (strip soe) = true)
        (Hend : startswith "$$EOE" (strip eoe) = true) :
  _parse_vector_data (join nl (before ++ soe :: rows ++ eoe :: after)%list)
  = _parse_vector_data (join nl (soe :: rows ++ [eoe])%list).
Proof.
  unfold _parse_vector_data.
  assert (Hplain : forallb one_line before = true).
  { clear - Hbefore. induction before as [|b before IH]; [reflexivity|].
    cbn [forallb] in *. apply andb_prop in Hbefore as [Hb Hbs].
    unfold plain_line in Hb. apply andb_prop in Hb as [Hb _].
    apply andb_prop in Hb as [Hb _]. now rewrite Hb, IH. }
  rewrite !split_join.
  - rewrite csv_rows_before by exact Hbefore.
    cbn [csv_rows]. rewrite Hstart. f_equal. now apply csv_rows_until_end.
  - destruct rows; discriminate.
  - cbn [forallb]. rewrite Hsoe. apply forallb_app_true; [exact Hrows|].
    cbn [forallb]. now rewrite Heoe.
  - destruct before; discriminate.
  - apply forallb_app_true; [exact Hplain|].
    cbn [forallb]. rewrite Hsoe. apply forallb_app_true; [exact Hrows|].
    cbn [forallb]. now rewrite Heoe, Hafter.
Qed.

Lemma X5_csv_block_only_witness :
  forallb plain_line ["Ephemeris"; "JDTDB, Calendar Date, X, Y, Z, VX, VY, VZ,"] = true
  /\ one_line "  $$SOE" = true
  /\ forallb one_line ["2460857.5, A.D. 2025-Jul-01 00:00:00.0000, 1, 2, 3, 4, 5, 6,"] = true
  /\ one_line "$$EOE trailer" = true
  /\ forallb one_line ["$$SOE"; "2460858.5, x, 1, 2, 3, 4, 5, 6,"] = true
  /\ _parse_vector_data
       (join nl (["Ephemeris"; "JDTDB, Calendar Date, X, Y, Z, VX, VY, VZ,"]
                 ++ "  $$SOE"
                 :: ["2460857.5, A.D. 2025-Jul-01 00:00:00.0000, 1, 2, 3, 4, 5, 6,"]
                 ++ "$$EOE trailer"
                 :: ["$$SOE"; "2460858.5, x, 1, 2, 3, 4, 5, 6,"])%list)
     = _parse_vector_data
         (join nl ("  $$SOE"
                   :: ["2460857.5, A.D. 2025-Jul-01 00:00:00.0000, 1, 2, 3, 4, 5, 6,"]
                   ++ ["$$EOE trailer"])%list).
Proof.
  repeat (split; [reflexivity|]).
  apply (X5_csv_block_only
           ["Ephemeris"; "JDTDB, Calendar Date, X, Y, Z, VX, VY, VZ,"]
           ["2460857.5, A.D. 2025-Jul-01 00:00:00.0000, 1, 2, 3, 4, 5, 6,"]
           ["$$SOE"; "2460858.5, x, 1, 2, 3, 4, 5, 6,"]
           "  $$SOE" "$$EOE trailer"); reflexivity.
Defined.

(** ** The retries of [fetch_horizons_data] *)

(** X6: [fetch_horizons_data] makes at most three attempts and returns the
    data of the first attempt that succeeds, which is never the empty
    list; before attempt k it has slept 2, 4, ... seconds after each of
    the k failed attempts.  When all three attempts fail it returns
    [None] after having slept 2 and 4 seconds: there is no sleep after the
    last attempt. *)
Theorem X6_fetch_retries (responses : nat -> option string) :
  (exists attempt data_points,
      attempt < MAX_RETRIES
      /\ (forall j, j < attempt -> fetch_attempt (responses j) = None)
      /\ fetch_attempt (responses attempt) = Some data_points
      /\ data_points <> []
      /\ fetch_horizons_data responses
         = (Some data_points,
            map (fun j => (RETRY_DELAY * 2 ^ Z.of_nat j)%Z) (seq 0 attempt)))
  \/ ((forall j, j < MAX_RETRIES -> fetch_attempt (responses j) = None)
      /\ fetch_horizons_data responses = (None, [2; 4]%Z)).
Proof.
  assert (Hne : forall r d, fetch_attempt r = Some d -> d <> []).
  { intros [text|] d; cbn [fetch_attempt]; [|discriminate].
    destruct (parse_horizons_vectors text) as [[|p ps]|]; try discriminate.
    intros [= <-]. discriminate. }
  unfold fetch_horizons_data, MAX_RETRIES. cbn [fetch_loop].
  destruct (fetch_attempt (responses 0)) as [d0|] eqn:E0.
  { left. exists 0, d0. repeat split; try lia; try assumption.
    eapply Hne, E0. }
  destruct (fetch_attempt (responses 1)) as [d1|] eqn:E1.
  { left. exists 1, d1. repeat split; try lia; try assumption.
    - intros j Hj. now replace j with 0 by lia.
    - eapply Hne, E1. }
  destruct (fetch_attempt (responses 2)) as [d2|] eqn:E2.
  { left. exists 2, d2. repeat split; try lia; try assumption.
    - intros j Hj. destruct j as [|[|j]]; [assumption | assumption | lia].
    - eapply Hne, E2. }
  right. split; [|reflexivity].
  intros j Hj. destruct j as [|[|[|j]]]; try assumption; lia.
Qed.

(** ** The milestones *)

Section MilestoneFacts.

Variable fromisoformat : string -> option datetime.

Lemma find_position_none (trajectory : list point) (target_date : string) :
  fromisoformat target_date <> None ->
  (forall p, In p trajectory -> point_datetime fromisoformat p = None) ->
  find_position_at_date fromisoformat trajectory target_date = Ok None.
Proof.
  intros Ht Hnone. unfold find_position_at_date.
  destruct (fromisoformat target_date) as [target_dt|]; [|congruence].
  pose proof (scanned_all fromisoformat target_dt trajectory) as H.
  destruct (fold_left _ trajectory _) as [[d|] [pos|]]; cbn [scanned snd] in *;
    try tauto.
  destruct H as (pre & p & post & -> & _ & Hp & _).
  unfold time_distance in Hp.
  rewrite (Hnone p) in Hp; [discriminate | apply in_elt].
Qed.

Lemma find_position_some (trajectory : list point) (target_date : string) :
  fromisoformat target_date <> None ->
  (exists p, In p trajectory /\ point_datetime fromisoformat p <> None) ->
  exists p, In p trajectory
            /\ find_position_at_date fromisoformat trajectory target_date
               = Ok (Some (position p)).
Proof.
  intros Ht (p0 & Hin & Hp0). unfold find_position_at_date.
  destruct (fromisoformat target_date) as [target_dt|]; [|congruence].
  pose proof (scanned_all fromisoformat target_dt trajectory) as H.
  destruct (fold_left _ trajectory _) as [[d|] [pos|]]; cbn [scanned snd] in *;
    try tauto.
  - destruct H as (pre & p & post & -> & -> & _).
    exists p. split; [apply in_elt | reflexivity].
  - exfalso. apply Hp0. now apply H.
Qed.

Lemma dated_or_not (trajectory : list point) :
  (forall p, In p trajectory -> point_datetime fromisoformat p = None)
  \/ (exists p, In p trajectory /\ point_datetime fromisoformat p <> None).
Proof.
  induction trajectory as [|p l IH].
  - left. intros p [].
  - destruct (point_datetime fromisoformat p) eqn:E.
    + right. exists p. split; [now left | congruence].
    + destruct IH as [IH|(q & Hq & Hp)].
      * left. intros q [<-|Hq]; auto.
      * right. exists q. split; [now right | exact Hp].
Qed.

Lemma locate_none (trajectory : list point) (milestones : list milestone)
      (found : list located) :
  (forall p, In p trajectory -> point_datetime fromisoformat p = None) ->
  Forall (fun m => fromisoformat (ms_date m) <> None) milestones ->
  locate_milestones fromisoformat trajectory milestones found = Ok found.
Proof.
  intros Hnone Hms. induction Hms as [|m ms Hm Hms IH]; [reflexivity|].
  cbn [locate_milestones].
  now rewrite (find_position_none _ _ Hm Hnone).
Qed.

Lemma locate_all (trajectory : list point) (milestones : list milestone) :
  (exists p, In p trajectory /\ point_datetime fromisoformat p <> None) ->
  Forall (fun m => fromisoformat (ms_date m) <> None) milestones ->
  forall found, exists new,
    locate_milestones fromisoformat trajectory milestones found
    = Ok (found ++ new)%list
    /\ map lm_milestone new = milestones
    /\ Forall (fun l => exists p, In p trajectory /\ lm_position l = position p) new.
Proof.
  intros Hsome Hms. induction Hms as [|m ms Hm Hms IH]; intros found.
  - exists []. cbn [locate_milestones]. rewrite app_nil_r. auto.
  - cbn [locate_milestones].
    destruct (find_position_some _ _ Hm Hsome) as (p & Hin & ->).
    destruct (IH (found ++ [mkLocated m (position p)])%list) as (new & -> & Hmap & Hall).
    exists (mkLocated m (position p) :: new).
    rewrite <- app_assoc. cbn [app map lm_milestone]. rewrite Hmap.
    repeat split. constructor; [|exact Hall].
    exists p. now split.
Qed.

Lemma locate_raises (trajectory : list point) (milestones : list milestone) :
  Exists (fun m => fromisoformat (ms_date m) = None) milestones ->
  forall found,
    locate_milestones fromisoformat trajectory milestones found
    = Raise (ValueError "Invalid isoformat string").
Proof.
  intros Hex. induction Hex as [m ms Hm|m ms Hex IH]; intros found;
    cbn [locate_milestones]; unfold find_position_at_date at 1.
  - now rewrite Hm.
  - destruct (fromisoformat (ms_date m)); [|reflexivity].
    destruct (snd _); apply IH.
Qed.

End MilestoneFacts.

(** X7: the milestone loop of [generate_trajectory_data] and
    [update_trajectory_data] keeps all the milestones or none.  When every
    milestone date parses, the result is empty if no point of the ATLAS
    trajectory has a date that parses (in particular on the empty
    trajectory), and otherwise it holds every milestone, in the given
    order, each with the position of a point of the trajectory. *)
Theorem X7_milestones_all_or_none
        (fromisoformat : string -> option datetime)
        (atlas_trajectory : list point) (milestones : list milestone)
        (Hdates : Forall (fun m => fromisoformat (ms_date m) <> None) milestones) :
  ((forall p, In p atlas_trajectory -> point_datetime fromisoformat p = None)
   /\ milestones_with_positions fromisoformat atlas_trajectory milestones = Ok [])
  \/ ((exists p, In p atlas_trajectory /\ point_datetime fromisoformat p <> None)
      /\ exists found,
        milestones_with_positions fromisoformat atlas_trajectory milestones = Ok found
        /\ map lm_milestone found = milestones
        /\ Forall (fun l => exists p, In p atlas_trajectory
                                      /\ lm_position l = position p) found).
Proof.
  unfold milestones_with_positions.
  destruct (dated_or_not fromisoformat atlas_trajectory) as [Hnone|Hsome].
  - left. split; [exact Hnone|]. now apply locate_none.
  - right. split; [exact Hsome|].
    destruct (locate_all fromisoformat _ _ Hsome Hdates []) as (new & E & Hmap & Hall).
    exists new. auto.
Qed.

Lemma X7_milestones_all_or_none_witness :
  Forall (fun m => PyDatetime.fromisoformat (ms_date m) <> None) MILESTONES
  /\ (((forall p, In p [mkPoint (Some (Qmake 4921715 2)) (Some "2025-07-01 00:00:00")
                          (Qmake 1 1, Qmake 2 1, Qmake 3 1) (Qmake 0 1, Qmake 0 1, Qmake 0 1)] ->
                  point_datetime PyDatetime.fromisoformat p = None)
       /\ milestones_with_positions PyDatetime.fromisoformat
            [mkPoint (Some (Qmake 4921715 2)) (Some "2025-07-01 00:00:00")
               (Qmake 1 1, Qmake 2 1, Qmake 3 1) (Qmake 0 1, Qmake 0 1, Qmake 0 1)]
            MILESTONES = Ok [])
      \/ ((exists p, In p [mkPoint (Some (Qmake 4921715 2)) (Some "2025-07-01 00:00:00")
                             (Qmake 1 1, Qmake 2 1, Qmake 3 1) (Qmake 0 1, Qmake 0 1, Qmake 0 1)]
                     /\ point_datetime PyDatetime.fromisoformat p <> None)
          /\ exists found,
            milestones_with_positions PyDatetime.fromisoformat
              [mkPoint (Some (Qmake 4921715 2)) (Some "2025-07-01 00:00:00")
                 (Qmake 1 1, Qmake 2 1, Qmake 3 1) (Qmake 0 1, Qmake 0 1, Qmake 0 1)]
              MILESTONES = Ok found
            /\ map lm_milestone found = MILESTONES
            /\ Forall (fun l => exists p,
                           In p [mkPoint (Some (Qmake 4921715 2)) (Some "2025-07-01 00:00:00")
                                   (Qmake 1 1, Qmake 2 1, Qmake 3 1)
                                   (Qmake 0 1, Qmake 0 1, Qmake 0 1)]
                           /\ lm_position l = position p) found)).
Proof.
  assert (H : Forall (fun m => PyDatetime.fromisoformat (ms_date m) <> None) MILESTONES).
  { repeat constructor; vm_compute; discriminate. }
  split; [exact H|].
  apply (X7_milestones_all_or_none PyDatetime.fromisoformat _ MILESTONES H).
Defined.

(** X8: a milestone whose date is a string of at most ten characters (a
    date alone, with no room for a UTC offset) that does not parse makes
    the milestone loop raise the ValueError of [datetime.fromisoformat],
    whatever the trajectory and the other milestones are:
    [find_position_at_date] parses the target date outside its [try]. *)
Theorem X8_milestone_date_raises
        (fromisoformat : string -> option datetime)
        (atlas_trajectory : list point) (milestones : list milestone)
        (Hbad : Exists (fun m => date_only (ms_date m) = true
                                 /\ fromisoformat (ms_date m) = None) milestones) :
  milestones_with_positions fromisoformat atlas_trajectory milestones
  = Raise (ValueError "Invalid isoformat string").
Proof.
  unfold milestones_with_positions. apply locate_raises.
  apply (Exists_impl (P := fun m => date_only (ms_date m) = true
                                    /\ fromisoformat (ms_date m) = None));
    [|exact Hbad].
  intros m [_ H]. exact H.
Qed.

Lemma X8_milestone_date_raises_witness :
  Exists (fun m => date_only (ms_date m) = true
                   /\ PyDatetime.fromisoformat (ms_date m) = None)
    [mkMilestone "Discovery" "2025-07-01" "first"; mkMilestone "Flyby" "Oct 3" "second"]
  /\ milestones_with_positions PyDatetime.fromisoformat []
       [mkMilestone "Discovery" "2025-07-01" "first"; mkMilestone "Flyby" "Oct 3" "second"]
     = Raise (ValueError "Invalid isoformat string").
Proof.
  assert (H : Exists (fun m => date_only (ms_date m) = true
                               /\ PyDatetime.fromisoformat (ms_date m) = None)
                [mkMilestone "Discovery" "2025-07-01" "first";
                 mkMilestone "Flyby" "Oct 3" "second"]).
  { apply Exists_cons_tl, Exists_cons_hd. split; vm_compute; reflexivity. }
  split; [exact H|].
  apply (X8_milestone_date_raises PyDatetime.fromisoformat [] _ H).
Defined.

(** ** Pruning twice, and merging then pruning *)

Section PruneFacts.

Variable fromisoformat : string -> option datetime.

Lemma prune_filter (trajectory : list point) (cutoff_date : datetime) :
  prune_old_data fromisoformat trajectory cutoff_date
  = filter (fun p => negb (parses_before fromisoformat
                             (cutoff_date - timedelta_days 30)%Z p)) trajectory.
Proof. unfold prune_old_data. now rewrite prune_loop_filter. Qed.

Lemma filter_filter {A : Type} (f g : A -> bool) (l : list A) :
  filter f (filter g l) = filter (fun x => g x && f x) l.
Proof.
  induction l as [|x l IH]; [reflexivity|]. cbn [filter].
  destruct (g x); cbn [filter andb]; [destruct (f x)|]; now rewrite IH.
Qed.

Lemma filter_sorted {A : Type} (R : A -> A -> Prop) (f : A -> bool) (l : list A) :
  StronglySorted R l -> StronglySorted R (filter f l).
Proof.
  induction 1 as [|x l Hl IH Hx]; cbn [filter]; [constructor|].
  destruct (f x); [|exact IH].
  constructor; [exact IH|].
  rewrite Forall_forall in *. intros y Hy.
  apply filter_In in Hy as [Hy _]. now apply Hx.
Qed.

End PruneFacts.

(** X9: pruning twice is pruning once with the later of the two cutoff
    dates; so [prune_old_data] is idempotent, and two prunings commute. *)
Theorem X9_prune_twice (fromisoformat : string -> option datetime)
        (trajectory : list point) (cutoff1 cutoff2 : datetime) :
  prune_old_data fromisoformat
    (prune_old_data fromisoformat trajectory cutoff1) cutoff2
  = prune_old_data fromisoformat trajectory (Z.max cutoff1 cutoff2).
Proof.
  rewrite !prune_filter, filter_filter. apply filter_ext. intros p.
  unfold parses_before.
  destruct (point_datetime fromisoformat p) as [dt|]; [|reflexivity].
  rewrite <- negb_orb. f_equal.
  destruct (Z.ltb_spec dt (cutoff1 - timedelta_days 30)),
           (Z.ltb_spec dt (cutoff2 - timedelta_days 30)),
           (Z.ltb_spec dt (Z.max cutoff1 cutoff2 - timedelta_days 30));
    cbn [orb]; try reflexivity; lia.
Qed.

(** X10: the update of one object, merge then prune, on two non-empty
    lists whose points all have a non-blank date: it raises nothing, the
    stored trajectory is sorted ascending by Julian Date, every stored
    point comes from one of the two lists, and no stored point has a date
    that parses to an instant more than 30 days before now. *)
Theorem X10_update_object_sorted (fromisoformat : string -> option datetime)
        (existing_trajectory new_data : list point) (now : datetime)
        (Hexisting : existing_trajectory <> [])
        (Hnew : new_data <> [])
        (Hkeyed : forallb keyed (existing_trajectory ++ new_data) = true) :
  exists stored,
    update_object fromisoformat existing_trajectory new_data now = Ok stored
    /\ StronglySorted jd_le stored
    /\ (forall p, In p stored -> In p (existing_trajectory ++ new_data)%list)
    /\ (forall p, In p stored ->
          parses_before fromisoformat (now - timedelta_days 30)%Z p = false).
Proof.
  unfold update_object, merge_trajectory_data.
  rewrite forallb_app in Hkeyed. apply andb_prop in Hkeyed as [Hke Hkn].
  destruct existing_trajectory as [|e0 existing']; [congruence|].
  destruct new_data as [|n0 new']; [congruence|].
  rewrite (add_points_keyed _ _ Hke), (add_points_keyed _ _ Hkn).
  rewrite <- fold_left_app.
  set (l := ((e0 :: existing') ++ n0 :: new')%list).
  set (d := fold_left dict_put l []).
  exists (prune_old_data fromisoformat (sort_by_jd (dict_values d)) now).
  split; [reflexivity|]. rewrite prune_filter. split; [|split].
  - apply filter_sorted, sort_by_jd_sorted.
  - intros p Hp. apply filter_In in Hp as [Hp _].
    apply (Permutation_in _ (Permutation_sym (sort_by_jd_perm _))) in Hp.
    unfold dict_values in Hp. apply in_map_iff in Hp as [[k p'] [E Hp]].
    cbn [snd] in E. subst p'.
    assert (Hd : keyed_dict d).
    { apply fold_put_keyed. split; [constructor | intros k' p' []]. }
    apply dict_get_in in Hp; [|apply Hd].
    assert (Hk : forallb keyed l = true).
    { unfold l. now rewrite forallb_app, Hke, Hkn. }
    unfold d in Hp. rewrite (dict_get_fold_put _ _ _ Hk) in Hp.
    unfold last_with_key in Hp.
    destruct (find (has_key k) (rev l)) eqn:F; [|discriminate].
    injection Hp as ->. apply find_some in F as [F _]. now apply in_rev.
  - intros p Hp. apply filter_In in Hp as [_ Hp].
    now apply negb_true_iff in Hp.
Qed.

Lemma X10_update_object_sorted_witness :
  [mkPoint (Some 2%Q) (Some "2025-07-02 00:00:00") (2, 0, 0)%Q (0, 0, 0)%Q;
   mkPoint (Some 1%Q) (Some "2025-07-01 00:00:00") (1, 0, 0)%Q (0, 0, 0)%Q] <> []
  /\ [mkPoint (Some 2.25%Q) (Some "2025-07-02 06:00:00") (7, 0, 0)%Q (0, 0, 0)%Q] <> []
  /\ forallb keyed
       ([mkPoint (Some 2%Q) (Some "2025-07-02 00:00:00") (2, 0, 0)%Q (0, 0, 0)%Q;
         mkPoint (Some 1%Q) (Some "2025-07-01 00:00:00") (1, 0, 0)%Q (0, 0, 0)%Q]
        ++ [mkPoint (Some 2.25%Q) (Some "2025-07-02 06:00:00") (7, 0, 0)%Q (0, 0, 0)%Q])
     = true
  /\ exists stored,
      update_object PyDatetime.fromisoformat
        [mkPoint (Some 2%Q) (Some "2025-07-02 00:00:00") (2, 0, 0)%Q (0, 0, 0)%Q;
         mkPoint (Some 1%Q) (Some "2025-07-01 00:00:00") (1, 0, 0)%Q (0, 0, 0)%Q]
        [mkPoint (Some 2.25%Q) (Some "2025-07-02 06:00:00") (7, 0, 0)%Q (0, 0, 0)%Q]
        63886924800000000%Z = Ok stored
      /\ StronglySorted jd_le stored
      /\ (forall p, In p stored ->
            In p ([mkPoint (Some 2%Q) (Some "2025-07-02 00:00:00") (2, 0, 0)%Q (0, 0, 0)%Q;
                   mkPoint (Some 1%Q) (Some "2025-07-01 00:00:00") (1, 0, 0)%Q (0, 0, 0)%Q]
                  ++ [mkPoint (Some 2.25%Q) (Some "2025-07-02 06:00:00") (7, 0, 0)%Q
                        (0, 0, 0)%Q])%list)
      /\ (forall p, In p stored ->
            parses_before PyDatetime.fromisoformat
              (63886924800000000 - timedelta_days 30)%Z p = false).
Proof.
  split; [discriminate|]. split; [discriminate|]. split; [reflexivity|].
  apply (X10_update_object_sorted PyDatetime.fromisoformat
           [mkPoint (Some 2%Q) (Some "2025-07-02 00:00:00") (2, 0, 0)%Q (0, 0, 0)%Q;
            mkPoint (Some 1%Q) (Some "2025-07-01 00:00:00") (1, 0, 0)%Q (0, 0, 0)%Q]
           [mkPoint (Some 2.25%Q) (Some "2025-07-02 06:00:00") (7, 0, 0)%Q (0, 0, 0)%Q]
           63886924800000000%Z);
    [discriminate | discriminate | reflexivity].
Defined.

(** ** Merging: the IndexError, and merging the same data again *)

Section MergeFacts.

Lemma add_points_unkeyed (points : list point) (merged : dict point) :
  forallb keyed points = false -> add_points points merged = Raise IndexError.
Proof.
  revert merged; induction points as [|p rest IH]; intros merged H; [discriminate|].
  cbn [forallb] in H. cbn [add_points]. unfold keyed in H at 1.
  unfold date_key in *.
  destruct (split_ws _) as [|k ks] eqn:E; [reflexivity|].
  cbn [andb] in H.
  assert (Hk : is_empty k = false).
  { apply (split_ws_nonempty (match date p with Some d => d | None => "" end)).
    rewrite E. now left. }
  rewrite Hk. cbn [negb]. now apply IH.
Qed.

Lemma merge_keyed (existing new : list point) :
  existing <> [] -> new <> [] ->
  forallb keyed (existing ++ new) = true ->
  merge_trajectory_data existing new
  = Ok (sort_by_jd (dict_values (fold_left dict_put (existing ++ new)%list []))).
Proof.
  intros He Hn Hkeyed.
  rewrite forallb_app in Hkeyed. apply andb_prop in Hkeyed as [Hke Hkn].
  unfold merge_trajectory_data.
  destruct existing as [|e0 existing']; [congruence|].
  destruct new as [|n0 new']; [congruence|].
  rewrite (add_points_keyed _ _ Hke), (add_points_keyed _ _ Hkn).
  now rewrite fold_left_app.
Qed.

Lemma dict_get_notin {V : Type} (k : string) (d : dict V) :
  ~ In k (map fst d) -> dict_get k d = None.
Proof.
  induction d as [|[k0 v0] d IH]; cbn [map fst dict_get In]; intros H; [reflexivity|].
  destruct (String.eqb_spec k0 k); [tauto|]. apply IH. tauto.
Qed.

Lemma dict_ext {V : Type} (d1 d2 : dict V) :
  map fst d1 = map fst d2 -> NoDup (map fst d1) ->
  (forall k, dict_get k d1 = dict_get k d2) -> d1 = d2.
Proof.
  revert d2; induction d1 as [|[k v1] d1 IH]; intros [|[k' v2] d2];
    cbn [map fst]; try discriminate; [reflexivity|].
  intros [= <- Hk] Hnd Hget. inversion Hnd as [|? ? Hnot Hnd']; subst.
  pose proof (Hget k) as Hv. cbn [dict_get] in Hv. rewrite String.eqb_refl in Hv.
  injection Hv as <-. f_equal. apply IH; [exact Hk | exact Hnd'|].
  intros k'. destruct (String.eqb_spec k k') as [<-|Hne].
  - rewrite !dict_get_notin; [reflexivity | now rewrite <- Hk | exact Hnot].
  - specialize (Hget k'). cbn [dict_get] in Hget.
    destruct (String.eqb_spec k k'); [contradiction | exact Hget].
Qed.

Lemma dict_set_fresh {V : Type} (k : string) (v : V) (d : dict V) :
  ~ In k (map fst d) -> dict_set k v d = (d ++ [(k, v)])%list.
Proof.
  induction d as [|[k0 v0] d IH]; cbn [map fst dict_set In app]; intros H;
    [reflexivity|].
  destruct (String.eqb_spec k0 k); [tauto|]. rewrite IH; tauto.
Qed.

(** The entry that [merged[date_key] = point] writes for a point. *)
Lemma fold_put_fresh (m : list point) :
  forallb keyed m = true -> NoDup (map date_key m) ->
  forall d0,
    (forall p, In p m -> forall k, date_key p = Ok k -> ~ In k (map fst d0)) ->
    fold_left dict_put m d0
    = (d0 ++ map (fun p => (match date_key p with Ok k => k | Raise _ => "" end, p)) m)%list.
Proof.
  induction m as [|p m IH]; intros Hk Hnd d0 Hfresh; cbn [fold_left map].
  - now rewrite app_nil_r.
  - cbn [forallb] in Hk. apply andb_prop in Hk as [Hp Hm].
    cbn [map] in Hnd. inversion Hnd as [|? ? Hnot Hnd']; subst.
    unfold keyed in Hp. unfold dict_put at 2.
    destruct (date_key p) as [k|] eqn:E; [|discriminate].
    rewrite (dict_set_fresh k p d0) by (apply (Hfresh p); [now left | exact E]).
    rewrite (IH Hm Hnd').
    + now rewrite <- app_assoc.
    + intros q Hq kq Eq. rewrite map_app, in_app_iff. cbn [map fst In].
      intros [Hin|[<-|[]]].
      * apply (Hfresh q (or_intror Hq) kq Eq Hin).
      * apply Hnot. rewrite <- Eq. now apply in_map.
Qed.

Lemma fold_put_keys_present (l : list point) :
  forall d,
    (forall p, In p l -> exists k, date_key p = Ok k /\ In k (map fst d)) ->
    map fst (fold_left dict_put l d) = map fst d.
Proof.
  induction l as [|p l IH]; intros d H; [reflexivity|]. cbn [fold_left].
  assert (E : map fst (dict_put d p) = map fst d).
  { destruct (H p (or_introl eq_refl)) as (k & Ek & Hin).
    unfold dict_put. rewrite Ek.
    destruct (dict_set_keys k p d) as [->|[Hnot _]]; [reflexivity | contradiction]. }
  rewrite IH, E; [reflexivity|].
  intros q Hq. rewrite E. apply H. now right.
Qed.

Lemma sort_by_jd_fixed (l : list point) :
  StronglySorted jd_le l -> sort_by_jd l = l.
Proof.
  induction 1 as [|x l Hl IH Hx]; [reflexivity|].
  cbn [sort_by_jd fold_right]. fold (sort_by_jd l). rewrite IH.
  destruct l as [|y r]; [reflexivity|]. cbn [insert_by_jd].
  inversion Hx as [|? ? Hxy _]; subst.
  apply Qle_bool_iff in Hxy. now rewrite Hxy.
Qed.

Lemma last_with_key_has (k : string) (l : list point) (p : point) :
  last_with_key k l = Some p -> In p l /\ has_key k p = true.
Proof.
  unfold last_with_key. intros H. apply find_some in H as [Hin Hk].
  split; [now apply in_rev | exact Hk].
Qed.

Lemma has_key_date_key (k : string) (p : point) :
  has_key k p = true <-> date_key p = Ok k.
Proof.
  unfold has_key. destruct (date_key p) as [k'|e].
  - destruct (String.eqb_spec k' k); split; congruence.
  - split; discriminate.
Qed.

Lemma last_with_key_exists (l : list point) (p : point) (k : string) :
  In p l -> date_key p = Ok k -> exists q, last_with_key k l = Some q.
Proof.
  intros Hin Hk. unfold last_with_key.
  destruct (find (has_key k) (rev l)) as [q|] eqn:F; [eauto|].
  exfalso. apply in_rev in Hin.
  pose proof (find_none _ _ F p Hin) as H.
  apply has_key_date_key in Hk. congruence.
Qed.

(** A sorted list with distinct date keys that already holds, for each
    date key of [new], the last point of [new] with that key, is what
    merging [new] into it gives. *)
Lemma merge_absorbs (m new : list point) :
  m <> [] -> new <> [] ->
  forallb keyed m = true -> forallb keyed new = true ->
  NoDup (map date_key m) -> StronglySorted jd_le m ->
  (forall k p, last_with_key k new = Some p -> In p m) ->
  merge_trajectory_data m new = Ok m.
Proof.
  intros Hm Hn Hkm Hkn Hnd Hsorted Hlast.
  rewrite merge_keyed; [|exact Hm | exact Hn | now rewrite forallb_app, Hkm, Hkn].
  rewrite fold_left_app.
  rewrite (fold_put_fresh m Hkm Hnd []) by (intros ? ? ? ? []).
  cbn [app].
  set (pair := fun p : point =>
                 (match date_key p with Ok k => k | Raise _ => "" end, p)).
  assert (Hkeys : forall p k, In p m -> date_key p = Ok k -> In k (map fst (map pair m))).
  { intros p k Hin Ek. rewrite map_map. apply in_map_iff.
    exists p. split; [|exact Hin]. unfold pair. cbn [fst]. now rewrite Ek. }
  assert (Hnd1 : NoDup (map fst (map pair m))).
  { rewrite map_map.
    assert (E : map (@Ok string) (map (fun p => fst (pair p)) m) = map date_key m).
    { rewrite map_map. apply map_ext_in. intros p Hp. unfold pair. cbn [fst].
      rewrite forallb_forall in Hkm. specialize (Hkm p Hp). unfold keyed in Hkm.
      destruct (date_key p); [reflexivity | discriminate]. }
    rewrite <- E in Hnd. eapply NoDup_map_inv, Hnd. }
  assert (Hd : fold_left dict_put new (map pair m) = map pair m).
  { apply dict_ext.
    - apply fold_put_keys_present. intros p Hp.
      rewrite forallb_forall in Hkn. pose proof (Hkn p Hp) as Kp. unfold keyed in Kp.
      destruct (date_key p) as [k|] eqn:Ek; [|discriminate].
      exists k. split; [reflexivity|].
      destruct (last_with_key_exists new p k Hp Ek) as [q Hq].
      pose proof (Hlast k q Hq) as Hqm.
      apply last_with_key_has in Hq as [_ Hq]. apply has_key_date_key in Hq.
      eapply Hkeys; eassumption.
    - rewrite fold_put_keys_present; [exact Hnd1|].
      intros p Hp.
      rewrite forallb_forall in Hkn. pose proof (Hkn p Hp) as Kp. unfold keyed in Kp.
      destruct (date_key p) as [k|] eqn:Ek; [|discriminate].
      exists k. split; [reflexivity|].
      destruct (last_with_key_exists new p k Hp Ek) as [q Hq].
      pose proof (Hlast k q Hq) as Hqm.
      apply last_with_key_has in Hq as [_ Hq]. apply has_key_date_key in Hq.
      eapply Hkeys; eassumption.
    - intros k. rewrite (dict_get_fold_put _ _ _ Hkn).
      destruct (last_with_key k new) as [q|] eqn:Hq; [|reflexivity].
      pose proof (Hlast k q Hq) as Hqm.
      apply last_with_key_has in Hq as [_ Hq]. apply has_key_date_key in Hq.
      symmetry. apply dict_get_in; [exact Hnd1|].
      apply in_map_iff. exists q. split; [|exact Hqm].
      unfold pair. now rewrite Hq. }
  rewrite Hd. unfold dict_values. rewrite map_map. cbn [pair snd].
  rewrite map_id. f_equal. now apply sort_by_jd_fixed.
Qed.

End MergeFacts.

(** X11: [merge_trajectory_data] raises exactly when both lists are
    non-empty and some point of either list has no date or a blank one,
    and the exception is then an IndexError ([''.split()[0]]); with an
    empty list on one side no point is looked at. *)
Theorem X11_merge_index_error (existing new : list point) :
  (merge_trajectory_data existing new = Raise IndexError
   <-> existing <> [] /\ new <> [] /\ forallb keyed (existing ++ new) = false)
  /\ (forall e, merge_trajectory_data existing new = Raise e -> e = IndexError).
Proof.
  destruct existing as [|e0 existing'].
  { split; [split; [discriminate | intros [H _]; congruence] | discriminate]. }
  destruct new as [|n0 new'].
  { split; [split; [discriminate | intros (_ & H & _); congruence] | discriminate]. }
  set (existing := e0 :: existing'). set (new := n0 :: new').
  destruct (forallb keyed (existing ++ new)) eqn:Hk.
  - rewrite merge_keyed; [|discriminate | discriminate | exact Hk].
    split; [split; [discriminate | intros (_ & _ & H); discriminate] | discriminate].
  - assert (E : merge_trajectory_data existing new = Raise IndexError).
    { unfold merge_trajectory_data, existing, new. fold existing. fold new.
      rewrite forallb_app in Hk.
      destruct (forallb keyed existing) eqn:Hke.
      - rewrite (add_points_keyed _ _ Hke).
        cbn [andb] in Hk. now rewrite (add_points_unkeyed _ _ Hk).
      - now rewrite (add_points_unkeyed _ _ Hke). }
    rewrite E. split; [|congruence].
    split; [intros _; repeat split; discriminate | reflexivity].
Qed.

(** X12: merging the same new data a second time changes nothing: for
    two non-empty lists whose points all have a non-blank date, the result
    of the merge, merged again with the same new list, is itself. *)
Theorem X12_merge_again (existing new merged : list point)
        (Hexisting : existing <> [])
        (Hnew : new <> [])
        (Hkeyed : forallb keyed (existing ++ new) = true)
        (Hmerged : merge_trajectory_data existing new = Ok merged) :
  merge_trajectory_data merged new = Ok merged.
Proof.
  rewrite (merge_keyed _ _ Hexisting Hnew Hkeyed) in Hmerged.
  injection Hmerged as <-.
  set (l := (existing ++ new)%list) in *.
  set (d := fold_left dict_put l []).
  assert (Hd : keyed_dict d).
  { apply fold_put_keyed. split; [constructor | intros k p []]. }
  assert (Hin : forall p, In p (sort_by_jd (dict_values d))
                          <-> exists k, last_with_key k l = Some p).
  { intros p. split.
    - intros H. apply (Permutation_in _ (Permutation_sym (sort_by_jd_perm _))) in H.
      unfold dict_values in H. apply in_map_iff in H as [[k p'] [Hp H]].
      cbn [snd] in Hp. subst p'. exists k.
      apply dict_get_in in H; [|apply Hd].
      unfold d in H. rewrite (dict_get_fold_put _ _ _ Hkeyed) in H.
      destruct (last_with_key k l); [exact H | discriminate H].
    - intros [k Hk]. apply (Permutation_in _ (sort_by_jd_perm _)).
      unfold dict_values. apply in_map_iff. exists (k, p). split; [reflexivity|].
      apply dict_get_in; [apply Hd|].
      unfold d. now rewrite (dict_get_fold_put _ _ _ Hkeyed), Hk. }
  pose proof Hkeyed as Hk2. unfold l in Hk2. rewrite forallb_app in Hk2.
  apply andb_prop in Hk2 as [Hke Hkn].
  apply merge_absorbs.
  - destruct existing as [|e0 existing']; [congruence|].
    cbn [forallb] in Hke. apply andb_prop in Hke as [He0 _].
    unfold keyed in He0. destruct (date_key e0) as [k|] eqn:Ek; [|discriminate].
    destruct (last_with_key_exists l e0 k (or_introl eq_refl) Ek) as [q Hq].
    intros E. assert (Hq' : In q (sort_by_jd (dict_values d))) by (apply Hin; eauto).
    rewrite E in Hq'. destruct Hq'.
  - exact Hnew.
  - apply forallb_forall. intros p Hp. apply Hin in Hp as [k Hp].
    apply last_with_key_has in Hp as [Hp _].
    rewrite forallb_forall in Hkeyed. now apply Hkeyed.
  - exact Hkn.
  - eapply Permutation_NoDup.
    + apply Permutation_map. apply sort_by_jd_perm.
    + rewrite (keyed_dict_values_keys _ Hd).
      apply Finite.Injective_map_NoDup; [intros a b; congruence | apply Hd].
  - apply sort_by_jd_sorted.
  - intros k p Hk. apply Hin. exists k. unfold l.
    now rewrite last_with_key_app, Hk.
Qed.

Lemma X12_merge_again_witness :
  [mkPoint (Some 2%Q) (Some "2025-07-02 00:00:00") (2, 0, 0)%Q (0, 0, 0)%Q;
   mkPoint (Some 1%Q) (Some "2025-07-01 00:00:00") (1, 0, 0)%Q (0, 0, 0)%Q] <> []
  /\ [mkPoint (Some 2.25%Q) (Some "2025-07-02 06:00:00") (7, 0, 0)%Q (0, 0, 0)%Q] <> []
  /\ forallb keyed
       ([mkPoint (Some 2%Q) (Some "2025-07-02 00:00:00") (2, 0, 0)%Q (0, 0, 0)%Q;
         mkPoint (Some 1%Q) (Some "2025-07-01 00:00:00") (1, 0, 0)%Q (0, 0, 0)%Q]
        ++ [mkPoint (Some 2.25%Q) (Some "2025-07-02 06:00:00") (7, 0, 0)%Q (0, 0, 0)%Q])
     = true
  /\ merge_trajectory_data
       [mkPoint (Some 2%Q) (Some "2025-07-02 00:00:00") (2, 0, 0)%Q (0, 0, 0)%Q;
        mkPoint (Some 1%Q) (Some "2025-07-01 00:00:00") (1, 0, 0)%Q (0, 0, 0)%Q]
       [mkPoint (Some 2.25%Q) (Some "2025-07-02 06:00:00") (7, 0, 0)%Q (0, 0, 0)%Q]
     = Ok [mkPoint (Some 1%Q) (Some "2025-07-01 00:00:00") (1, 0, 0)%Q (0, 0, 0)%Q;
           mkPoint (Some 2.25%Q) (Some "2025-07-02 06:00:00") (7, 0, 0)%Q (0, 0, 0)%Q]
  /\ merge_trajectory_data
       [mkPoint (Some 1%Q) (Some "2025-07-01 00:00:00") (1, 0, 0)%Q (0, 0, 0)%Q;
        mkPoint (Some 2.25%Q) (Some "2025-07-02 06:00:00") (7, 0, 0)%Q (0, 0, 0)%Q]
       [mkPoint (Some 2.25%Q) (Some "2025-07-02 06:00:00") (7, 0, 0)%Q (0, 0, 0)%Q]
     = Ok [mkPoint (Some 1%Q) (Some "2025-07-01 00:00:00") (1, 0, 0)%Q (0, 0, 0)%Q;
           mkPoint (Some 2.25%Q) (Some "2025-07-02 06:00:00") (7, 0, 0)%Q (0, 0, 0)%Q].
Proof.
  split; [discriminate|]. split; [discriminate|]. split; [reflexivity|].
  split; [reflexivity|].
  apply (X12_merge_again
           [mkPoint (Some 2%Q) (Some "2025-07-02 00:00:00") (2, 0, 0)%Q (0, 0, 0)%Q;
            mkPoint (Some 1%Q) (Some "2025-07-01 00:00:00") (1, 0, 0)%Q (0, 0, 0)%Q]
           [mkPoint (Some 2.25%Q) (Some "2025-07-02 06:00:00") (7, 0, 0)%Q (0, 0, 0)%Q]);
    [discriminate | discriminate | reflexivity | reflexivity].
Defined.

(** ** The command sent for an object id *)

Section Commands.

Lemma is_digit_not_space (c : ascii) : is_digit c = true -> is_space c = false.
Proof. destruct c as [[] [] [] [] [] [] [] []]; vm_compute; congruence. Qed.

Lemma isdigit_char_not_space (c : ascii) :
  isdigit_char c = true -> is_space c = false.
Proof. destruct c as [[] [] [] [] [] [] [] []]; vm_compute; congruence. Qed.

Lemma isdigit_char_cases (c : ascii) :
  isdigit_char c = true ->
  is_digit c = true
  \/ (is_digit c = false /\ Ascii.eqb c "_" = false).
Proof. destruct c as [[] [] [] [] [] [] [] []]; vm_compute; intros H; auto; discriminate. Qed.

Lemma isdigit_char_no_sign (c : ascii) (r : string) :
  isdigit_char c = true -> sign_of (String c r) = (false, String c r).
Proof. destruct c as [[] [] [] [] [] [] [] []]; vm_compute; congruence. Qed.

Lemma rstrip_no_space (s : string) :
  all_chars (fun c => negb (is_space c)) s = true -> rstrip s = s.
Proof.
  induction s as [|c s IH]; [reflexivity|]. cbn [all_chars rstrip].
  intros H. apply andb_prop in H as [Hc Hs]. rewrite (IH Hs).
  apply negb_true_iff in Hc. rewrite Hc. now destruct s.
Qed.

Lemma all_chars_impl (p q : ascii -> bool) (s : string) :
  (forall c, p c = true -> q c = true) ->
  all_chars p s = true -> all_chars q s = true.
Proof.
  intros Hpq. induction s as [|c s IH]; [reflexivity|]. cbn [all_chars].
  intros H. apply andb_prop in H as [Hc Hs]. now rewrite (Hpq c Hc), IH.
Qed.

Lemma strip_isdigit (s : string) :
  all_chars isdigit_char s = true -> strip s = s.
Proof.
  intros H. unfold strip.
  assert (Hl : lstrip s = s).
  { destruct s as [|c s]; [reflexivity|]. cbn [all_chars lstrip] in *.
    apply andb_prop in H as [Hc _]. now rewrite (isdigit_char_not_space c Hc). }
  rewrite Hl. apply rstrip_no_space.
  eapply all_chars_impl; [|exact H].
  intros c Hc. now rewrite (isdigit_char_not_space c Hc).
Qed.

Lemma digitpart_digits (s : string) :
  all_chars is_digit s = true ->
  forall acc cnt, exists v,
    digitpart s acc cnt = (v, cnt + String.length s, "").
Proof.
  induction s as [|c s IH]; intros H acc cnt.
  - exists acc. cbn [digitpart String.length]. now rewrite Nat.add_0_r.
  - cbn [all_chars] in H. apply andb_prop in H as [Hc Hs].
    cbn [digitpart String.length]. rewrite Hc.
    destruct (IH Hs (10 * acc + digit_val c)%N (S cnt)) as [v ->].
    exists v. now rewrite Nat.add_succ_r.
Qed.

Lemma digitpart_stops (s : string) :
  all_chars isdigit_char s = true -> all_chars is_digit s = false ->
  forall acc cnt, exists v n c r, digitpart s acc cnt = (v, n, String c r).
Proof.
  induction s as [|c s IH]; intros H Hn acc cnt; [discriminate|].
  cbn [all_chars] in H, Hn. apply andb_prop in H as [Hc Hs].
  cbn [digitpart].
  destruct (isdigit_char_cases c Hc) as [Hd|[Hd Hu]]; rewrite Hd in *.
  - cbn [andb] in Hn. apply (IH Hs Hn).
  - rewrite Hu. eauto.
Qed.

Lemma int_of_digits (s : string) :
  isdigit s = true -> all_chars is_digit s = true ->
  exists n, int_of_string s = Some n /\ (0 <= n)%Z.
Proof.
  unfold isdigit. intros H Hd. apply andb_prop in H as [Hne H].
  unfold int_of_string. rewrite (strip_isdigit s H).
  destruct s as [|c s]; [discriminate|].
  cbn [all_chars] in H. apply andb_prop in H as [Hc _].
  rewrite (isdigit_char_no_sign c s Hc).
  destruct (digitpart_digits (String c s) Hd 0%N 0) as [v ->].
  cbn [String.length Nat.add]. exists (Z.of_N v). split; [reflexivity | lia].
Qed.

Lemma int_of_superscript (s : string) :
  isdigit s = true -> all_chars is_digit s = false -> int_of_string s = None.
Proof.
  unfold isdigit. intros H Hd. apply andb_prop in H as [Hne H].
  unfold int_of_string. rewrite (strip_isdigit s H).
  destruct s as [|c s]; [discriminate|].
  pose proof H as H'. cbn [all_chars] in H'. apply andb_prop in H' as [Hc _].
  rewrite (isdigit_char_no_sign c s Hc).
  destruct (digitpart_stops (String c s) H Hd 0%N 0) as (v & n & c' & r & ->).
  now destruct n.
Qed.

Lemma quoted_not_isdigit (s : string) : isdigit ("'DES=" ++ s ++ "'") = false.
Proof. reflexivity. Qed.

Lemma quoted_differs (s : string) : "'DES=" ++ s ++ "'" <> s.
Proof.
  intros E. apply (f_equal String.length) in E.
  rewrite !length_app in E. cbn [String.length] in E. lia.
Qed.

Lemma command_cases (command : string) :
  (all_chars is_digit command = true
   /\ (exists n, int_of_string command = Some n /\ (1000000 <= n)%Z)
   /\ normalize_command command = "'DES=" ++ command ++ "'"
   /\ position_command command = Ok ("'DES=" ++ command ++ "'"))
  \/ (normalize_command command = command
      /\ (isdigit command = false \/ all_chars is_digit command = true)
      /\ position_command command = Ok command)
  \/ (normalize_command command = command
      /\ isdigit command = true /\ all_chars is_digit command = false
      /\ position_command command
         = Raise (ValueError "invalid literal for int() with base 10")).
Proof.
  unfold normalize_command, position_command.
  destruct (isdigit command) eqn:Hd.
  - destruct (all_chars is_digit command) eqn:Ha.
    + destruct (int_of_digits command Hd Ha) as (n & E & Hn). rewrite E.
      destruct (1000000 <=? n)%Z eqn:Hbig.
      * left. repeat split. exists n. split; [reflexivity | now apply Z.leb_le].
      * right. left. repeat split. now right.
    + right. right. rewrite (int_of_superscript command Hd Ha). now repeat split.
  - right. left. repeat split. now left.
Qed.

End Commands.

(** X13: the command for an object id.  [fetch_vectors] changes the id
    only when it is a string of the decimal digits 0 to 9 whose value is
    at least 1000000, and then quotes it as 'DES=id'; doing it twice is
    doing it once.  An id of digits in the sense of [str.isdigit] that
    holds a superscript digit makes [int] raise: [fetch_vectors] catches
    it and keeps the id, while [fetch_position], which runs the same test
    outside its [try], raises the ValueError.  On every other id of at
    most 4300 characters (the longest digit string that [int] reads in
    Python 3.11) the two functions send the same command. *)
Theorem X13_object_command (command : string) :
  normalize_command (normalize_command command) = normalize_command command
  /\ (normalize_command command <> command ->
      all_chars is_digit command = true
      /\ (exists n, int_of_string command = Some n /\ (1000000 <= n)%Z)
      /\ normalize_command command = "'DES=" ++ command ++ "'")
  /\ (isdigit command = true -> all_chars is_digit command = false ->
      normalize_command command = command
      /\ position_command command
         = Raise (ValueError "invalid literal for int() with base 10"))
  /\ (String.length command <= 4300 ->
      isdigit command = false \/ all_chars is_digit command = true ->
      position_command command = Ok (normalize_command command)).
Proof.
  destruct (command_cases command)
    as [(Ha & Hn & En & Ep)|[(En & Hc & Ep)|(En & Hd & Ha & Ep)]].
  - rewrite En, Ep. split; [|split; [|split]].
    + unfold normalize_command. now rewrite quoted_not_isdigit.
    + intros _. auto.
    + intros Hd Hna. congruence.
    + reflexivity.
  - rewrite !En, Ep. split; [|split; [|split]].
    + reflexivity.
    + congruence.
    + intros Hd Ha. destruct Hc; congruence.
    + reflexivity.
  - rewrite !En, Ep. split; [|split; [|split]].
    + reflexivity.
    + congruence.
    + auto.
    + intros _ [H|H]; congruence.
Qed.

(** A superscript two is a digit for [str.isdigit] and not for [int]. *)
Example superscript_command_example :
  isdigit (String (ascii_of_N 178) "") = true
  /\ normalize_command (String (ascii_of_N 178) "") = String (ascii_of_N 178) ""
  /\ position_command (String (ascii_of_N 178) "")
     = Raise (ValueError "invalid literal for int() with base 10")
  /\ normalize_command "1004083" = "'DES=1004083'"
  /\ normalize_command "499" = "499".
Proof. repeat split. Qed.

(** ** [fetch_position]: the row that is read *)

Section PositionScan.

Lemma no_marker_inv (line : string) :
  no_marker line = true ->
  one_line line = true /\ contains "$$SOE" line = false
  /\ contains "$$EOE" line = false.
Proof.
  unfold no_marker. intros H. apply andb_prop in H as [H He].
  apply andb_prop in H as [Ho Hs].
  apply negb_true_iff in He, Hs. auto.
Qed.

Lemma position_scan_before (before rest : list string) :
  forallb no_marker before = true ->
  position_scan (before ++ rest) false = position_scan rest false.
Proof.
  induction before as [|l before IH]; intros H; [reflexivity|].
  cbn [forallb] in H. apply andb_prop in H as [Hl Hb].
  destruct (no_marker_inv l Hl) as (_ & Hs & He).
  cbn [app position_scan]. rewrite Hs, He. cbn [andb]. now apply IH.
Qed.

Lemma position_scan_short (skipped rest : list string) :
  forallb short_row skipped = true ->
  position_scan (skipped ++ rest) true = position_scan rest true.
Proof.
  induction skipped as [|l skipped IH]; intros H; [reflexivity|].
  cbn [forallb] in H. apply andb_prop in H as [Hl Hb].
  unfold short_row in Hl. apply andb_prop in Hl as [Hm Hlen].
  destruct (no_marker_inv l Hm) as (_ & Hs & He).
  cbn [app position_scan]. rewrite Hs, He. cbn [andb].
  destruct (contains "," l); [|now apply IH].
  rewrite length_map. apply Nat.ltb_lt in Hlen.
  destruct (Nat.leb_spec 8 (List.length (split_char "," l))); [lia|].
  now apply IH.
Qed.

Lemma position_scan_full (row : string) (rest : list string) :
  full_row row = true ->
  position_scan (row :: rest) true
  = position_record (map strip (split_char "," row)).
Proof.
  intros H. unfold full_row in H. apply andb_prop in H as [Hm Hlen].
  destruct (no_marker_inv row Hm) as (_ & Hs & He).
  cbn [position_scan]. rewrite Hs, He. cbn [andb].
  pose proof Hlen as Hlen'. apply Nat.leb_le in Hlen'.
  rewrite (split_char_length_contains "," row) by lia.
  now rewrite length_map, Hlen.
Qed.

Lemma forallb_impl {A : Type} (f g : A -> bool) (l : list A) :
  (forall x, f x = true -> g x = true) ->
  forallb f l = true -> forallb g l = true.
Proof.
  intros Hfg. induction l as [|x l IH]; [reflexivity|]. cbn [forallb].
  intros H. apply andb_prop in H as [Hx Hl]. now rewrite (Hfg x Hx), IH.
Qed.

Lemma no_marker_one_line (l : list string) :
  forallb no_marker l = true -> forallb one_line l = true.
Proof. apply forallb_impl. intros x Hx. now destruct (no_marker_inv x Hx). Qed.

Lemma short_row_one_line (l : list string) :
  forallb short_row l = true -> forallb one_line l = true.
Proof.
  apply forallb_impl. intros x Hx. unfold short_row in Hx.
  apply andb_prop in Hx as [Hx _]. now destruct (no_marker_inv x Hx).
Qed.

Lemma stripped_contains (sub l : string) :
  contains sub l = false -> contains sub (strip l) = false.
Proof.
  intros H. destruct (contains sub (strip l)) eqn:E; [|reflexivity].
  destruct (strip_piece l) as (a & b & Hl).
  rewrite (contains_piece _ _ _ _ _ Hl E) in H. discriminate.
Qed.

Lemma no_marker_plain (l : list string) :
  forallb no_marker l = true -> forallb plain_line l = true.
Proof.
  apply forallb_impl. intros x Hx.
  destruct (no_marker_inv x Hx) as (Ho & Hs & He).
  unfold plain_line, startswith. rewrite Ho. cbn [andb].
  destruct (String.prefix "$$SOE" (strip x)) eqn:Ps.
  { apply prefix_contains in Ps. now rewrite (stripped_contains _ _ Hs) in Ps. }
  destruct (String.prefix "$$EOE" (strip x)) eqn:Pe.
  { apply prefix_contains in Pe. now rewrite (stripped_contains _ _ He) in Pe. }
  reflexivity.
Qed.

Lemma square_nonneg (x : Q) : (0 <= x * x)%Q.
Proof. unfold Qle, Qmult. cbn [Qnum Qden]. nia. Qed.

Lemma fits_bounded (s : Q) :
  (0 <= s)%Q -> (s <= inject_Z (2 ^ 1023))%Q -> Binary64.fits_q s = true.
Proof.
  intros H0 Hs.
  assert (Hmax : (inject_Z (2 ^ 1023) <= Binary64.float_max_q)%Q).
  { unfold Binary64.float_max_q. rewrite <- Zle_Qle. vm_compute. discriminate. }
  unfold Binary64.fits_q. apply andb_true_intro.
  split; apply Qle_bool_iff.
  - exact (Qle_trans _ _ _ Hs Hmax).
  - apply (Qle_trans _ 0).
    + apply (Qopp_le_compat 0 s) in H0. exact H0.
    + apply (Qle_trans _ (inject_Z (2 ^ 1023))); [|exact Hmax].
      rewrite <- (Zle_Qle 0). vm_compute. discriminate.
Qed.

Lemma square_in_range (x rest : Q) :
  (0 <= rest)%Q -> (x * x + rest <= inject_Z (2 ^ 1023))%Q ->
  square x = Some (x * x)%Q.
Proof.
  intros Hr Hs. unfold square.
  rewrite (fits_bounded (x * x)).
  - now rewrite andb_false_r.
  - apply square_nonneg.
  - apply (Qle_trans _ (x * x + rest)); [|exact Hs].
    rewrite <- (Qplus_0_r (x * x)) at 1.
    apply Qplus_le_compat; [apply Qle_refl | exact Hr].
Qed.

(** Within the range no square raises and the distance is the length
    of the vector. *)
Lemma distance_in_range (x y z : Q) :
  Qle_bool (x * x + y * y + z * z) (inject_Z (2 ^ 1023)) = true ->
  distance_of (x, y, z) = Some (Binary64.Finite (euclid (x, y, z))).
Proof.
  intros H. apply Qle_bool_iff in H.
  pose proof (square_nonneg x) as Hx. pose proof (square_nonneg y) as Hy.
  pose proof (square_nonneg z) as Hz.
  assert (Hyz : (0 <= y * y + z * z)%Q).
  { rewrite <- (Qplus_0_r 0). now apply Qplus_le_compat. }
  assert (Hxz : (0 <= x * x + z * z)%Q).
  { rewrite <- (Qplus_0_r 0). now apply Qplus_le_compat. }
  assert (Hxy : (0 <= x * x + y * y)%Q).
  { rewrite <- (Qplus_0_r 0). now apply Qplus_le_compat. }
  assert (Hsum : (0 <= x * x + y * y + z * z)%Q).
  { rewrite <- (Qplus_0_r 0). now apply Qplus_le_compat. }
  unfold distance_of.
  rewrite (square_in_range x (y * y + z * z) Hyz)
    by (now rewrite Qplus_assoc).
  rewrite (square_in_range y (x * x + z * z) Hxz).
  2:{ eapply Qle_trans; [|exact H]. apply Qle_lteq. right. ring. }
  rewrite (square_in_range z (x * x + y * y) Hxy).
  2:{ eapply Qle_trans; [|exact H]. apply Qle_lteq. right. ring. }
  now rewrite (fits_bounded _ Hsum H).
Qed.

(** The reading and the record of a well-formed row hold the same
    vectors. *)
Lemma reading_of_record (fields : list string) :
  8 <= List.length fields ->
  forallb (fun i => numeric (nth i fields "")) [0; 2; 3; 4; 5; 6; 7] = true ->
  exists p,
    csv_record fields = Some p
    /\ position_record fields
       = match distance_of (position p) with
         | Some distance => Some (mkReading (position p) (velocity p) distance)
         | None => None
         end.
Proof.
  intros Hlen H.
  destruct fields as [|f0 [|f1 [|f2 [|f3 [|f4 [|f5 [|f6 [|f7 fs]]]]]]]];
    cbn [List.length] in Hlen; try lia.
  cbn [forallb nth] in H. unfold numeric in H.
  unfold csv_record, position_record. cbn [nth].
  destruct (float_of_string f0); [|discriminate].
  destruct (float_of_string f2); [|discriminate].
  destruct (float_of_string f3); [|discriminate].
  destruct (float_of_string f4); [|discriminate].
  destruct (float_of_string f5); [|discriminate].
  destruct (float_of_string f6); [|discriminate].
  destruct (float_of_string f7); [|discriminate].
  eexists. split; reflexivity.
Qed.

Lemma csv_rows_start (soe : string) (rest : list string) (in_data : bool)
      (vectors : list point) :
  startswith "$$SOE" (strip soe) = true ->
  csv_rows (soe :: rest) in_data vectors = csv_rows rest true vectors.
Proof. intros H. cbn [csv_rows]. now rewrite H. Qed.

Lemma position_scan_start (soe : string) (rest : list string) (in_data : bool) :
  contains "$$SOE" soe = true ->
  position_scan (soe :: rest) in_data = position_scan rest true.
Proof. intros H. cbn [position_scan]. now rewrite H. Qed.

End PositionScan.

(** X14: [fetch_position] reads one row, the first line after the start
    marker that has at least 8 comma-separated fields: lines before the
    marker and shorter lines after it are passed over, and whatever
    follows the row is not read.  When [float] refuses one of the fields 2
    to 7 of that row the function returns [None], even if later rows are
    well formed. *)
Theorem X14_position_first_row (before skipped rest : list string) (soe row : string)
        (Hbefore : forallb no_marker before = true)
        (Hsoe : one_line soe = true /\ contains "$$SOE" soe = true)
        (Hskipped : forallb short_row skipped = true)
        (Hrow : full_row row = true)
        (Hrest : forallb one_line rest = true) :
  parse_position (join nl (before ++ soe :: skipped ++ row :: rest)%list)
  = position_record (map strip (split_char "," row)).
Proof.
  destruct Hsoe as [Hone Hs].
  unfold parse_position. rewrite split_join.
  - rewrite (position_scan_before _ _ Hbefore).
    rewrite (position_scan_start _ _ _ Hs).
    rewrite (position_scan_short _ _ Hskipped).
    now apply position_scan_full.
  - destruct before; discriminate.
  - apply forallb_app_true; [now apply no_marker_one_line|].
    cbn [forallb]. rewrite Hone.
    apply forallb_app_true; [now apply short_row_one_line|].
    cbn [forallb]. rewrite Hrest.
    unfold full_row in Hrow. apply andb_prop in Hrow as [Hm _].
    destruct (no_marker_inv row Hm) as (-> & _). reflexivity.
Qed.

Lemma X14_position_first_row_witness :
  forallb no_marker ["JDTDB, Calendar Date, X, Y, Z,"] = true
  /\ (one_line "$$SOE" = true /\ contains "$$SOE" "$$SOE" = true)
  /\ forallb short_row ["1, 2, 3"] = true
  /\ full_row "2460857.5, A.D. 2025-Jul-01, 1, 2, x, 4, 5, 6," = true
  /\ forallb one_line ["2460858.5, A.D. 2025-Jul-02, 1, 2, 3, 4, 5, 6,"; "$$EOE"] = true
  /\ parse_position
       (join nl (["JDTDB, Calendar Date, X, Y, Z,"]
                 ++ "$$SOE" :: ["1, 2, 3"]
                 ++ "2460857.5, A.D. 2025-Jul-01, 1, 2, x, 4, 5, 6,"
                 :: ["2460858.5, A.D. 2025-Jul-02, 1, 2, 3, 4, 5, 6,"; "$$EOE"])%list)
     = position_record
         (map strip (split_char "," "2460857.5, A.D. 2025-Jul-01, 1, 2, x, 4, 5, 6,")).
Proof.
  repeat (split; [reflexivity|]).
  split; [split; reflexivity|].
  repeat (split; [reflexivity|]).
  apply (X14_position_first_row ["JDTDB, Calendar Date, X, Y, Z,"] ["1, 2, 3"]
           ["2460858.5, A.D. 2025-Jul-02, 1, 2, 3, 4, 5, 6,"; "$$EOE"]
           "$$SOE" "2460857.5, A.D. 2025-Jul-01, 1, 2, x, 4, 5, 6,");
    try reflexivity.
  split; reflexivity.
Defined.

(** X15: on a CSV block whose first row is well formed, with coordinates
    well within the range of binary64 (the sum of their squares is at most
    2^1023), [fetch_position] and [_parse_vector_data] agree: the position
    and the velocity that [fetch_position] returns are those of the first
    record of [_parse_vector_data], and the distance is the length of that
    position.  The lines before the block hold no marker, and the row is a
    stripped line without markers. *)
Theorem X15_position_agrees_with_vectors
        (before rest : list string) (soe row : string)
        (Hbefore : forallb no_marker before = true)
        (Hsoe : one_line soe = true /\ startswith "$$SOE" (strip soe) = true)
        (Hrow : no_marker row = true /\ strip row = row
                /\ well_formed_row row = true)
        (Hrange : row_in_range row = true)
        (Hrest : forallb one_line rest = true) :
  exists p ps,
    _parse_vector_data (join nl (before ++ soe :: row :: rest)%list) = Ok (p :: ps)
    /\ parse_position (join nl (before ++ soe :: row :: rest)%list)
       = Some (mkReading (position p) (velocity p)
                 (Binary64.Finite (euclid (position p)))).
Proof.
  destruct Hsoe as [Hone Hs]. destruct Hrow as (Hm & Hstrip & Hwf).
  destruct (no_marker_inv row Hm) as (Hrone & Hrs & Hre).
  assert (Hfields : 8 <= List.length (row_fields row)
                    /\ forallb (fun i => numeric (nth i (row_fields row) ""))
                         [0; 2; 3; 4; 5; 6; 7] = true).
  { unfold well_formed_row in Hwf. apply andb_prop in Hwf as [Hlen Hnum].
    apply Nat.leb_le in Hlen. now split. }
  destruct Hfields as [Hlen Hnum].
  destruct (reading_of_record _ Hlen Hnum) as (p & Hrec & Hread).
  assert (Hdist : distance_of (position p)
                  = Some (Binary64.Finite (euclid (position p)))).
  { unfold row_in_range in Hrange. rewrite Hrec in Hrange.
    destruct (position p) as [[x y] z]. now apply distance_in_range. }
  rewrite Hdist in Hread.
  assert (Hlines : split_char nl (join nl (before ++ soe :: row :: rest)%list)
                   = (before ++ soe :: row :: rest)%list).
  { apply split_join; [destruct before; discriminate|].
    apply forallb_app_true; [now apply no_marker_one_line|].
    cbn [forallb]. now rewrite Hone, Hrone, Hrest. }
  unfold _parse_vector_data, parse_position. rewrite Hlines.
  destruct (csv_rows_records rest true [p]) as (new & Enew & _).
  exists p, new. split.
  - rewrite (csv_rows_before _ _ _ (no_marker_plain _ Hbefore)).
    rewrite (csv_rows_start _ _ _ _ Hs).
    rewrite (csv_rows_well_formed row rest [] p Hwf Hrec). cbn [app].
    now rewrite Enew.
  - rewrite (position_scan_before _ _ Hbefore).
    assert (Hc : contains "$$SOE" soe = true).
    { destruct (strip_piece soe) as (a & b & E).
      eapply contains_piece; [exact E|]. now apply prefix_contains. }
    rewrite (position_scan_start _ _ _ Hc).
    assert (Hfull : full_row row = true).
    { unfold full_row. rewrite Hm. cbn [andb]. apply Nat.leb_le.
      unfold row_fields in Hlen. rewrite length_map, Hstrip in Hlen. exact Hlen. }
    rewrite (position_scan_full row rest Hfull).
    unfold row_fields in Hread. now rewrite Hstrip in Hread.
Qed.

Lemma X15_position_agrees_with_vectors_witness :
  forallb no_marker ["JDTDB, Calendar Date, X, Y, Z, VX, VY, VZ,"] = true
  /\ (one_line "$$SOE" = true /\ startswith "$$SOE" (strip "$$SOE") = true)
  /\ (no_marker "2460857.5, A.D. 2025-Jul-01, 1, 2, 3, 4, 5, 6," = true
      /\ strip "2460857.5, A.D. 2025-Jul-01, 1, 2, 3, 4, 5, 6,"
         = "2460857.5, A.D. 2025-Jul-01, 1, 2, 3, 4, 5, 6,"
      /\ well_formed_row "2460857.5, A.D. 2025-Jul-01, 1, 2, 3, 4, 5, 6," = true)
  /\ row_in_range "2460857.5, A.D. 2025-Jul-01, 1, 2, 3, 4, 5, 6," = true
  /\ forallb one_line ["$$EOE"] = true
  /\ exists p ps,
      _parse_vector_data
        (join nl (["JDTDB, Calendar Date, X, Y, Z, VX, VY, VZ,"]
                  ++ "$$SOE" :: "2460857.5, A.D. 2025-Jul-01, 1, 2, 3, 4, 5, 6,"
                  :: ["$$EOE"])%list) = Ok (p :: ps)
      /\ parse_position
           (join nl (["JDTDB, Calendar Date, X, Y, Z, VX, VY, VZ,"]
                     ++ "$$SOE" :: "2460857.5, A.D. 2025-Jul-01, 1, 2, 3, 4, 5, 6,"
                     :: ["$$EOE"])%list)
         = Some (mkReading (position p) (velocity p)
                   (Binary64.Finite (euclid (position p)))).
Proof.
  split; [reflexivity|]. split; [split; reflexivity|].
  split; [repeat split; reflexivity|].
  split; [vm_compute; reflexivity|]. split; [reflexivity|].
  apply (X15_position_agrees_with_vectors
           ["JDTDB, Calendar Date, X, Y, Z, VX, VY, VZ,"] ["$$EOE"]
           "$$SOE" "2460857.5, A.D. 2025-Jul-01, 1, 2, 3, 4, 5, 6,");
    [reflexivity | split; reflexivity | repeat split; reflexivity
    | vm_compute; reflexivity | reflexivity].
Defined.

(** ** The sampling loops *)

Section Sampling.

Lemma sample_times_step (fuel : nat) (current end_ delta : Z) :
  sample_times (S fuel) current end_ delta
  = if (current <=? end_)%Z
    then match sample_times fuel (current + delta)%Z end_ delta with
         | Some ts => Some (current :: ts)
         | None => None
         end
    else Some [].
Proof. reflexivity. Qed.

Lemma sample_count_step (current end_ delta : Z) :
  (0 < delta)%Z -> (current <= end_)%Z ->
  sample_count current end_ delta = S (sample_count (current + delta) end_ delta).
Proof.
  intros Hd Hc. unfold sample_count.
  destruct (Z.leb_spec current end_); [|lia].
  destruct (Z.leb_spec (current + delta) end_).
  - replace (end_ - current)%Z with ((end_ - (current + delta)) + 1 * delta)%Z by lia.
    rewrite Z.div_add by lia.
    assert (0 <= (end_ - (current + delta)) / delta)%Z
      by (apply Z.div_pos; lia).
    lia.
  - rewrite Z.div_small by lia. reflexivity.
Qed.

Lemma sample_times_enough (fuel : nat) :
  forall current end_ delta,
    (0 < delta)%Z -> sample_count current end_ delta < fuel ->
    sample_times fuel current end_ delta
    = Some (map (fun k => (current + Z.of_nat k * delta)%Z)
              (seq 0 (sample_count current end_ delta))).
Proof.
  induction fuel as [|fuel IH]; intros current end_ delta Hd Hf; [lia|].
  rewrite sample_times_step.
  destruct (Z.leb_spec current end_) as [Hc|Hc].
  - rewrite (sample_count_step _ _ _ Hd Hc) in *.
    rewrite IH by (try exact Hd; lia).
    cbn [seq map]. rewrite <- seq_shift, map_map.
    do 2 f_equal; [lia|].
    apply map_ext. intros k. lia.
  - unfold sample_count. destruct (Z.leb_spec current end_); [lia | reflexivity].
Qed.

Lemma sample_times_stuck (fuel : nat) (current end_ : Z) :
  (current <= end_)%Z -> sample_times fuel current end_ 0 = None.
Proof.
  intros Hc. induction fuel as [|fuel IH]; [reflexivity|].
  rewrite sample_times_step. destruct (Z.leb_spec current end_); [|lia].
  now rewrite Z.add_0_r, IH.
Qed.

Lemma orbit_loop_samples (strftime : datetime -> string) (p : PlanetOrbit.params)
      (fuel : nat) :
  forall current end_ delta trajectory,
    PlanetOrbit.orbit_loop strftime fuel p current end_ delta trajectory
    = match sample_times fuel current end_ delta with
      | Some ts => Some (trajectory ++ map (PlanetOrbit.orbit_sample strftime p) ts)%list
      | None => None
      end.
Proof.
  induction fuel as [|fuel IH]; intros current end_ delta trajectory; [reflexivity|].
  rewrite sample_times_step. cbn [PlanetOrbit.orbit_loop].
  destruct (current <=? end_)%Z; [|now rewrite app_nil_r].
  rewrite IH. destruct (sample_times fuel _ _ _); [|reflexivity].
  cbn [map]. now rewrite <- app_assoc.
Qed.

Lemma kepler_loop_samples (strftime : datetime -> string)
      (newton : (R -> R) -> R -> option R) (el : Kepler.elements)
      (perihelion_dt : datetime) (fuel : nat) :
  forall current end_ delta data_points,
    KeplerTrajectory.kepler_loop strftime newton el fuel perihelion_dt
      current end_ delta data_points
    = match sample_times fuel current end_ delta with
      | Some ts =>
          Some (data_points
                ++ map (KeplerTrajectory.kepler_sample strftime newton el perihelion_dt)
                     ts)%list
      | None => None
      end.
Proof.
  induction fuel as [|fuel IH]; intros current end_ delta data_points;
    [reflexivity|].
  rewrite sample_times_step. cbn [KeplerTrajectory.kepler_loop].
  destruct (current <=? end_)%Z; [|now rewrite app_nil_r].
  rewrite IH. destruct (sample_times fuel _ _ _); [|reflexivity].
  cbn [map]. now rewrite <- app_assoc.
Qed.

Lemma timedelta_hours_pos (n : Z) : (0 < n)%Z -> (0 < timedelta_hours n)%Z.
Proof. unfold timedelta_hours, us_per_second. lia. Qed.

End Sampling.

(** The last instant of [datetime]. *)
Example datetime_max_example :
  mk_datetime 9999 12 31 23 59 59 999999 = Some datetime_max.
Proof. vm_compute. reflexivity. Qed.

(** X16: for a planet it knows, dates that parse and a positive step,
    [generate_planet_orbit] returns: the loop ends, and the trajectory
    holds one sample for each of the instants start, start + step,
    start + 2 step, ... up to the end date, in this order, that is
    floor((end - start) / step) + 1 samples when start <= end and none
    otherwise.  The end date leaves room for one more step before
    [datetime.max]. *)
Theorem X16_planet_orbit_samples
        (fromisoformat : string -> option datetime) (strftime : datetime -> string)
        (planet_name start_date end_date : string) (hours_step : Z)
        (p : PlanetOrbit.params) (current end_ : datetime)
        (Hplanet : PlanetOrbit.planet_params (lower planet_name) = Some p)
        (Hstart : fromisoformat start_date = Some current)
        (Hend : fromisoformat end_date = Some end_)
        (Hstep : (0 < hours_step)%Z)
        (Hrange : (end_ + timedelta_hours hours_step <= datetime_max)%Z) :
  forall fuel,
    sample_count current end_ (timedelta_hours hours_step) < fuel ->
    PlanetOrbit.generate_planet_orbit fromisoformat strftime fuel
      planet_name start_date end_date hours_step
    = Some (Ok (map (fun k => PlanetOrbit.orbit_sample strftime p
                                (current + Z.of_nat k * timedelta_hours hours_step)%Z)
                  (seq 0 (sample_count current end_ (timedelta_hours hours_step))))).
Proof.
  intros fuel Hfuel. unfold PlanetOrbit.generate_planet_orbit.
  rewrite Hplanet, Hstart, Hend, orbit_loop_samples.
  rewrite (sample_times_enough fuel _ _ _ (timedelta_hours_pos _ Hstep) Hfuel).
  cbn [app]. now rewrite map_map.
Qed.

Lemma X16_planet_orbit_samples_witness :
  PlanetOrbit.planet_params (lower "Earth")
  = Some (PlanetOrbit.mkParams 1.0 365.25 0)%R
  /\ PyDatetime.fromisoformat "2025-07-01" = Some 63886924800000000%Z
  /\ PyDatetime.fromisoformat "2025-07-03" = Some 63887097600000000%Z
  /\ (0 < 24)%Z
  /\ (63887097600000000 + timedelta_hours 24 <= datetime_max)%Z
  /\ sample_count 63886924800000000 63887097600000000 (timedelta_hours 24) < 4
  /\ PlanetOrbit.generate_planet_orbit PyDatetime.fromisoformat (fun _ => "") 4
       "Earth" "2025-07-01" "2025-07-03" 24
     = Some (Ok (map (fun k => PlanetOrbit.orbit_sample (fun _ => "")
                                 (PlanetOrbit.mkParams 1.0 365.25 0)%R
                                 (63886924800000000
                                  + Z.of_nat k * timedelta_hours 24)%Z)
                   (seq 0 (sample_count 63886924800000000 63887097600000000
                             (timedelta_hours 24))))).
Proof.
  assert (Hs : PyDatetime.fromisoformat "2025-07-01" = Some 63886924800000000%Z)
    by (vm_compute; reflexivity).
  assert (He : PyDatetime.fromisoformat "2025-07-03" = Some 63887097600000000%Z)
    by (vm_compute; reflexivity).
  assert (Hc : sample_count 63886924800000000 63887097600000000 (timedelta_hours 24) < 4)
    by (vm_compute; lia).
  assert (Hr : (63887097600000000 + timedelta_hours 24 <= datetime_max)%Z)
    by (vm_compute; discriminate).
  split; [reflexivity|]. split; [exact Hs|]. split; [exact He|].
  split; [lia|]. split; [exact Hr|]. split; [exact Hc|].
  exact (X16_planet_orbit_samples PyDatetime.fromisoformat (fun _ => "")
           "Earth" "2025-07-01" "2025-07-03" 24 _ _ _
           eq_refl Hs He eq_refl Hr 4 Hc).
Defined.

(** X17: the inputs on which [generate_planet_orbit] samples nothing.  For
    a planet that is not Earth, Mars or Jupiter (in any letter case) it
    returns the empty list before it looks at the dates or at the step;
    for a known planet and a start after the end it returns the empty list;
    and with a step of 0 hours and a start not after the end the loop never
    ends, because [current] stays where it is. *)
Theorem X17_planet_orbit_degenerate
        (fromisoformat : string -> option datetime) (strftime : datetime -> string)
        (planet_name start_date end_date : string) (hours_step : Z) (fuel : nat) :
  (PlanetOrbit.planet_params (lower planet_name) = None ->
   PlanetOrbit.generate_planet_orbit fromisoformat strftime fuel
     planet_name start_date end_date hours_step = Some (Ok []))
  /\ (forall p current end_,
        PlanetOrbit.planet_params (lower planet_name) = Some p ->
        fromisoformat start_date = Some current ->
        fromisoformat end_date = Some end_ ->
        ((end_ < current)%Z -> 0 < fuel ->
         PlanetOrbit.generate_planet_orbit fromisoformat strftime fuel
           planet_name start_date end_date hours_step = Some (Ok []))
        /\ ((current <= end_)%Z -> hours_step = 0%Z ->
            PlanetOrbit.generate_planet_orbit fromisoformat strftime fuel
              planet_name start_date end_date hours_step = None)).
Proof.
  unfold PlanetOrbit.generate_planet_orbit. split.
  - now intros ->.
  - intros p current end_ -> -> ->. rewrite orbit_loop_samples. split.
    + intros Hlt Hf. destruct fuel as [|fuel]; [lia|].
      rewrite sample_times_step. destruct (Z.leb_spec current end_); [lia|].
      reflexivity.
    + intros Hle ->. change (timedelta_hours 0) with 0%Z.
      now rewrite sample_times_stuck.
Qed.

(** X18: for dates that parse, a positive step and a hyperbolic orbit
    (e > 1, q > 0), [kepler_fallback_trajectory] returns: the loop ends with
    floor((end - start) / step) + 1 points when start <= end, none
    otherwise.  The first point has the Julian Date of the start date,
    2451545.0 plus the days since 2000-01-01 12:00, and from one point to
    the next the Julian Date grows by step_hours / 24. *)
Theorem X18_kepler_trajectory_samples
        (fromisoformat : string -> option datetime) (strftime : datetime -> string)
        (newton : (R -> R) -> R -> option R) (el : Kepler.elements)
        (start_date end_date : string) (step_hours : Z)
        (start_dt end_dt perihelion_dt : datetime)
        (Hstart : fromisoformat start_date = Some start_dt)
        (Hend : fromisoformat end_date = Some end_dt)
        (Hperihelion : fromisoformat KeplerTrajectory.perihelion_date = Some perihelion_dt)
        (Hstep : (0 < step_hours)%Z)
        (Hrange : (end_dt + timedelta_hours step_hours <= datetime_max)%Z)
        (He : (1 < Kepler.el_e el)%R) (Hq : (0 < Kepler.el_q el)%R) :
  forall fuel,
    sample_count start_dt end_dt (timedelta_hours step_hours) < fuel ->
    exists data_points,
      KeplerTrajectory.kepler_fallback_trajectory fromisoformat strftime newton el
        fuel start_date end_date step_hours = Some (Ok data_points)
      /\ List.length data_points
         = sample_count start_dt end_dt (timedelta_hours step_hours)
      /\ (forall a, nth_error data_points 0 = Some a ->
            KeplerTrajectory.sm_jd a
            = (2451545.0 + days_between start_dt KeplerTrajectory.j2000)%R)
      /\ (forall k a b,
            nth_error data_points k = Some a ->
            nth_error data_points (S k) = Some b ->
            KeplerTrajectory.sm_jd b
            = (KeplerTrajectory.sm_jd a + IZR step_hours / 24)%R).
Proof.
  intros fuel Hfuel. unfold KeplerTrajectory.kepler_fallback_trajectory.
  rewrite Hstart, Hend, Hperihelion, kepler_loop_samples.
  rewrite (sample_times_enough fuel _ _ _ (timedelta_hours_pos _ Hstep) Hfuel).
  cbn [app]. rewrite map_map.
  set (n := sample_count start_dt end_dt (timedelta_hours step_hours)).
  set (f := fun k => KeplerTrajectory.kepler_sample strftime newton el perihelion_dt
                       (start_dt + Z.of_nat k * timedelta_hours step_hours)%Z).
  assert (Hnth : forall k a, nth_error (map f (seq 0 n)) k = Some a -> a = f k).
  { intros k a H. rewrite nth_error_map in H.
    destruct (nth_error (seq 0 n) k) as [j|] eqn:E; [|discriminate].
    injection H as <-.
    assert (Hk : k < n).
    { rewrite <- (length_seq n 0). apply nth_error_Some. congruence. }
    rewrite nth_error_nth' with (d := 0) in E by (rewrite length_seq; lia).
    rewrite seq_nth in E by lia. injection E as <-. reflexivity. }
  exists (map f (seq 0 n)). split; [reflexivity|]. split; [|split].
  - now rewrite length_map, length_seq.
  - intros a Ha. rewrite (Hnth 0 a Ha). unfold f.
    change (Z.of_nat 0) with 0%Z. rewrite Z.mul_0_l, Z.add_0_r. reflexivity.
  - intros k a b Ha Hb. rewrite (Hnth k a Ha), (Hnth (S k) b Hb). unfold f.
    cbn [KeplerTrajectory.kepler_sample KeplerTrajectory.sm_jd].
    unfold days_between, timedelta_hours, us_per_second.
    rewrite Nat2Z.inj_succ.
    replace (start_dt + Z.succ (Z.of_nat k) * (step_hours * 3600 * 1000000)
             - KeplerTrajectory.j2000)%Z
      with ((start_dt + Z.of_nat k * (step_hours * 3600 * 1000000)
             - KeplerTrajectory.j2000) + step_hours * 3600000000)%Z by lia.
    rewrite plus_IZR, mult_IZR. field.
Qed.

Lemma X18_kepler_trajectory_samples_witness :
  PyDatetime.fromisoformat "2025-10-29" = Some 63897292800000000%Z
  /\ PyDatetime.fromisoformat "2025-10-30" = Some 63897379200000000%Z
  /\ PyDatetime.fromisoformat KeplerTrajectory.perihelion_date
     = Some 63897292800000000%Z
  /\ (0 < 6)%Z
  /\ (63897379200000000 + timedelta_hours 6 <= datetime_max)%Z
  /\ (1 < Kepler.el_e Kepler.ATLAS_ELEMENTS)%R
  /\ (0 < Kepler.el_q Kepler.ATLAS_ELEMENTS)%R
  /\ sample_count 63897292800000000 63897379200000000 (timedelta_hours 6) < 6
  /\ exists data_points,
      KeplerTrajectory.kepler_fallback_trajectory PyDatetime.fromisoformat
        (fun _ => "") Kepler.scipy_newton Kepler.ATLAS_ELEMENTS
        6 "2025-10-29" "2025-10-30" 6 = Some (Ok data_points)
      /\ List.length data_points
         = sample_count 63897292800000000 63897379200000000 (timedelta_hours 6)
      /\ (forall a, nth_error data_points 0 = Some a ->
            KeplerTrajectory.sm_jd a
            = (2451545.0 + days_between 63897292800000000%Z KeplerTrajectory.j2000)%R)
      /\ (forall k a b,
            nth_error data_points k = Some a ->
            nth_error data_points (S k) = Some b ->
            KeplerTrajectory.sm_jd b
            = (KeplerTrajectory.sm_jd a + IZR 6 / 24)%R).
Proof.
  assert (Hs : PyDatetime.fromisoformat "2025-10-29" = Some 63897292800000000%Z)
    by (vm_compute; reflexivity).
  assert (He : PyDatetime.fromisoformat "2025-10-30" = Some 63897379200000000%Z)
    by (vm_compute; reflexivity).
  assert (Hc : sample_count 63897292800000000 63897379200000000 (timedelta_hours 6) < 6)
    by (vm_compute; lia).
  assert (Hr : (63897379200000000 + timedelta_hours 6 <= datetime_max)%Z)
    by (vm_compute; discriminate).
  assert (H1 : (1 < Kepler.el_e Kepler.ATLAS_ELEMENTS)%R) by (cbn; lra).
  assert (H2 : (0 < Kepler.el_q Kepler.ATLAS_ELEMENTS)%R) by (cbn; lra).
  split; [exact Hs|]. split; [exact He|]. split; [exact Hs|].
  split; [lia|]. split; [exact Hr|]. split; [exact H1|]. split; [exact H2|].
  split; [exact Hc|].
  exact (X18_kepler_trajectory_samples PyDatetime.fromisoformat (fun _ => "")
           Kepler.scipy_newton Kepler.ATLAS_ELEMENTS
           "2025-10-29" "2025-10-30" 6 _ _ _ Hs He Hs eq_refl Hr H1 H2 6 Hc).
Defined.

(** ** The geometry of the fallback generators *)

Section Geometry.

Local Open Scope R_scope.

Lemma rotation_identity (a b c d g h x1 y1 x2 y2 : R) :
  a * a + b * b = 1 -> c * c + d * d = 1 -> g * g + h * h = 1 ->
  ((a * c - b * d * g) * x1 + (- a * d - b * c * g) * y1)
  * ((a * c - b * d * g) * x2 + (- a * d - b * c * g) * y2)
  + ((b * c + a * d * g) * x1 + (- b * d + a * c * g) * y1)
    * ((b * c + a * d * g) * x2 + (- b * d + a * c * g) * y2)
  + ((d * h) * x1 + (c * h) * y1) * ((d * h) * x2 + (c * h) * y2)
  = x1 * x2 + y1 * y2.
Proof.
  intros HA HC HG.
  match goal with |- ?L = ?R =>
    replace L with
      (R + (x1 * x2) * ((c * c + d * d * g * g) * (a * a + b * b - 1)
                        + d * d * (g * g + h * h - 1) + (c * c + d * d - 1))
         + (y1 * y2) * ((d * d + c * c * g * g) * (a * a + b * b - 1)
                        + c * c * (g * g + h * h - 1) + (c * c + d * d - 1))
         + (x1 * y2 + x2 * y1) * (c * d) * ((g * g - 1) * (a * a + b * b - 1)
                                           + (g * g + h * h - 1)))
      by ring
  end.
  rewrite HA, HC, HG. ring.
Qed.

Lemma cos_sin_one (x : R) : cos x * cos x + sin x * sin x = 1.
Proof. pose proof (sin2_cos2 x) as H. unfold Rsqr in H. lra. Qed.

(** The rotation out of the orbital plane keeps scalar products. *)
Lemma rotate_dot (om w i : R) (u v : rvec2) :
  dot3 (rotate om w i u) (rotate om w i v) = fst u * fst v + snd u * snd v.
Proof.
  destruct u as [x1 y1], v as [x2 y2]. unfold rotate, dot3. cbn [fst snd].
  apply rotation_identity; apply cos_sin_one.
Qed.

Lemma rotate_norm (om w i : R) (v : rvec2) :
  norm3 (rotate om w i v) = norm2 v.
Proof. unfold norm3, norm2. now rewrite rotate_dot. Qed.

Lemma threejs_dot (u v : rvec3) :
  dot3 (Kepler.horizons_to_threejs u) (Kepler.horizons_to_threejs v) = dot3 u v.
Proof.
  destruct u as [[x1 y1] z1], v as [[x2 y2] z2].
  unfold Kepler.horizons_to_threejs, dot3. ring.
Qed.

Lemma threejs_norm (v : rvec3) : norm3 (Kepler.horizons_to_threejs v) = norm3 v.
Proof. unfold norm3. now rewrite threejs_dot. Qed.

Lemma sqrt_square_abs (x : R) : sqrt (x * x) = Rabs x.
Proof. rewrite <- sqrt_Rsqr_abs. reflexivity. Qed.

Lemma polar_norm (r a : R) : norm2 (r * cos a, r * sin a) = Rabs r.
Proof.
  unfold norm2. cbn [fst snd]. rewrite <- sqrt_square_abs. f_equal.
  replace (r * cos a * (r * cos a) + r * sin a * (r * sin a))
    with (r * r * (cos a * cos a + sin a * sin a)) by ring.
  rewrite cos_sin_one. ring.
Qed.

Lemma quarter_turn (a : R) : cos (a + PI / 2) = - sin a /\ sin (a + PI / 2) = cos a.
Proof. rewrite cos_plus, sin_plus, cos_PI2, sin_PI2. split; ring. Qed.

Lemma planet_params_positive (name : string) (p : PlanetOrbit.params) :
  PlanetOrbit.planet_params name = Some p ->
  0 < PlanetOrbit.radius p /\ 0 < PlanetOrbit.period p.
Proof.
  unfold PlanetOrbit.planet_params.
  destruct (String.eqb name "earth"); [intros [= <-]; cbn; lra|].
  destruct (String.eqb name "mars"); [intros [= <-]; cbn; lra|].
  destruct (String.eqb name "jupiter"); [intros [= <-]; cbn; lra|].
  discriminate.
Qed.

Lemma orbit_state_circle (p : PlanetOrbit.params) (t : R) :
  0 < PlanetOrbit.radius p -> 0 < PlanetOrbit.period p ->
  let '(pos, vel) := PlanetOrbit.orbit_state p t in
  norm3 pos = PlanetOrbit.radius p
  /\ norm3 vel = 2 * PI * PlanetOrbit.radius p / PlanetOrbit.period p
  /\ dot3 pos vel = 0
  /\ snd pos = 0 /\ snd vel = 0.
Proof.
  intros Hr Hp. unfold PlanetOrbit.orbit_state.
  set (theta := 2 * PI * t / PlanetOrbit.period p + radians (PlanetOrbit.phase p)).
  set (r := PlanetOrbit.radius p) in *.
  set (v := 2 * PI * r / PlanetOrbit.period p).
  assert (Hv : 0 < v).
  { unfold v. apply Rdiv_lt_0_compat; [|exact Hp].
    pose proof PI_RGT_0. nra. }
  pose proof (cos_sin_one theta) as H1.
  unfold norm3, dot3. cbn [snd]. repeat split.
  - transitivity (Rabs r); [|apply Rabs_pos_eq; lra].
    rewrite <- sqrt_square_abs. f_equal.
    replace (r * cos theta * (r * cos theta) + r * sin theta * (r * sin theta) + 0 * 0)
      with (r * r * (cos theta * cos theta + sin theta * sin theta)) by ring.
    rewrite H1. ring.
  - transitivity (Rabs v); [|apply Rabs_pos_eq; lra].
    rewrite <- sqrt_square_abs. f_equal.
    replace (- v * sin theta * (- v * sin theta) + v * cos theta * (v * cos theta) + 0 * 0)
      with (v * v * (cos theta * cos theta + sin theta * sin theta)) by ring.
    rewrite H1. ring.
  - ring.
Qed.

Lemma kepler_direction_norm (el : Kepler.elements) (v nu : R) :
  1 < Kepler.el_e el ->
  norm2 (Kepler.velocity_direction el v nu) = Rabs v.
Proof.
  intros He. unfold Kepler.velocity_direction.
  set (e := Kepler.el_e el) in *.
  set (vx := - v * sin nu). set (vy := v * (e + cos nu)).
  set (s := vx ^ 2 + vy ^ 2).
  assert (Hs : 0 <= s) by (unfold s; nra).
  destruct (Rlt_dec 0 (sqrt s)) as [Hpos|Hzero].
  - unfold norm2. cbn [fst snd]. rewrite <- sqrt_square_abs. f_equal.
    assert (Hsq : sqrt s * sqrt s = s) by now apply sqrt_sqrt.
    assert (Hne : sqrt s <> 0) by lra.
    replace (vx / sqrt s * v * (vx / sqrt s * v) + vy / sqrt s * v * (vy / sqrt s * v))
      with ((vx ^ 2 + vy ^ 2) / (sqrt s * sqrt s) * (v * v)) by (field; exact Hne).
    assert (Hsne : s <> 0).
    { intros E. rewrite E, sqrt_0 in Hpos. lra. }
    rewrite Hsq. fold s. field. exact Hsne.
  - assert (Hs0 : s = 0).
    { destruct (Req_dec s 0) as [E|E]; [exact E|].
      exfalso. apply Hzero. apply sqrt_lt_R0. lra. }
    assert (Hboth : vx = 0 /\ vy = 0).
    { apply Rplus_sqr_eq_0. unfold s in Hs0. now rewrite !Rsqr_pow2. }
    destruct Hboth as [Hvx Hvy].
    assert (Hv0 : v = 0).
    { destruct (Req_dec v 0) as [E|E]; [exact E|]. exfalso.
      unfold vx, vy in *.
      assert (Hsin : sin nu = 0).
      { apply Rmult_integral in Hvx as [Hvx|Hvx]; [lra | exact Hvx]. }
      assert (Hcos : cos nu = - e).
      { apply Rmult_integral in Hvy as [Hvy|Hvy]; [contradiction | lra]. }
      pose proof (cos_sin_one nu) as H1. rewrite Hsin, Hcos in H1. nra. }
    unfold norm2. cbn [fst snd]. rewrite Hvx, Hvy, Hv0, Rabs_R0.
    rewrite Rmult_0_l, Rplus_0_l. apply sqrt_0.
Qed.

Lemma kepler_speed_nonneg (newton : (R -> R) -> R -> option R)
      (el : Kepler.elements) (dt_days : R) :
  0 <= Kepler.speed newton el dt_days.
Proof.
  unfold Kepler.speed. destruct (Req_dec_T _ 0); [lra | apply sqrt_pos].
Qed.

End Geometry.

(** X19: every sample of [generate_planet_orbit] lies on the circle of
    the planet in the plane z = 0: its distance from the Sun is the radius
    of the planet, its velocity is perpendicular to its position, has no z
    component, and has the constant magnitude 2 pi radius / period. *)
Theorem X19_planet_orbit_circle
        (fromisoformat : string -> option datetime) (strftime : datetime -> string)
        (fuel : nat) (planet_name start_date end_date : string) (hours_step : Z)
        (p : PlanetOrbit.params) (trajectory : list PlanetOrbit.sample)
        (Hplanet : PlanetOrbit.planet_params (lower planet_name) = Some p)
        (Hrun : PlanetOrbit.generate_planet_orbit fromisoformat strftime fuel
                  planet_name start_date end_date hours_step = Some (Ok trajectory)) :
  Forall (fun s =>
            norm3 (PlanetOrbit.sm_position s) = PlanetOrbit.radius p
            /\ norm3 (PlanetOrbit.sm_velocity s)
               = (2 * PI * PlanetOrbit.radius p / PlanetOrbit.period p)%R
            /\ dot3 (PlanetOrbit.sm_position s) (PlanetOrbit.sm_velocity s) = 0%R
            /\ snd (PlanetOrbit.sm_position s) = 0%R
            /\ snd (PlanetOrbit.sm_velocity s) = 0%R)
         trajectory.
Proof.
  destruct (planet_params_positive _ _ Hplanet) as [Hr Hp].
  unfold PlanetOrbit.generate_planet_orbit in Hrun. rewrite Hplanet in Hrun.
  destruct (fromisoformat start_date) as [current|]; [|discriminate].
  destruct (fromisoformat end_date) as [end_|]; [|discriminate].
  rewrite orbit_loop_samples in Hrun.
  destruct (sample_times fuel current end_ _) as [ts|]; [|discriminate].
  injection Hrun as <-. cbn [app].
  apply Forall_forall. intros s Hs. apply in_map_iff in Hs as (c & <- & _).
  unfold PlanetOrbit.orbit_sample.
  pose proof (orbit_state_circle p (days_between c PlanetOrbit.ref_date) Hr Hp) as H.
  destruct (PlanetOrbit.orbit_state p _) as [pos vel].
  cbn [PlanetOrbit.sm_position PlanetOrbit.sm_velocity]. exact H.
Qed.

Lemma X19_planet_orbit_circle_witness :
  PlanetOrbit.planet_params (lower "Mars")
  = Some (PlanetOrbit.mkParams 1.524 687.0 120)%R
  /\ PlanetOrbit.generate_planet_orbit PyDatetime.fromisoformat (fun _ => "") 2
       "Mars" "2025-07-01" "2025-07-01" 24
     = Some (Ok [PlanetOrbit.orbit_sample (fun _ => "")
                   (PlanetOrbit.mkParams 1.524 687.0 120)%R 63886924800000000%Z])
  /\ Forall (fun s =>
               norm3 (PlanetOrbit.sm_position s) = 1.524%R
               /\ norm3 (PlanetOrbit.sm_velocity s) = (2 * PI * 1.524 / 687.0)%R
               /\ dot3 (PlanetOrbit.sm_position s) (PlanetOrbit.sm_velocity s) = 0%R
               /\ snd (PlanetOrbit.sm_position s) = 0%R
               /\ snd (PlanetOrbit.sm_velocity s) = 0%R)
       [PlanetOrbit.orbit_sample (fun _ => "")
          (PlanetOrbit.mkParams 1.524 687.0 120)%R 63886924800000000%Z].
Proof.
  assert (Hs : PyDatetime.fromisoformat "2025-07-01" = Some 63886924800000000%Z)
    by (vm_compute; reflexivity).
  assert (Hrun : PlanetOrbit.generate_planet_orbit PyDatetime.fromisoformat
                   (fun _ => "") 2 "Mars" "2025-07-01" "2025-07-01" 24
                 = Some (Ok [PlanetOrbit.orbit_sample (fun _ => "")
                               (PlanetOrbit.mkParams 1.524 687.0 120)%R
                               63886924800000000%Z])).
  { unfold PlanetOrbit.generate_planet_orbit.
    change (PlanetOrbit.planet_params (lower "Mars"))
      with (Some (PlanetOrbit.mkParams 1.524 687.0 120)%R).
    rewrite Hs. reflexivity. }
  split; [reflexivity|]. split; [exact Hrun|].
  exact (X19_planet_orbit_circle PyDatetime.fromisoformat (fun _ => "") 2
           "Mars" "2025-07-01" "2025-07-01" 24
           (PlanetOrbit.mkParams 1.524 687.0 120)%R _ eq_refl Hrun).
Defined.

(** X20: whenever [calculate_position] returns a state (the Newton loop
    stays in the range of binary64), [distance_au] is the length of the
    position vector, the length of the velocity vector is the speed
    sqrt(mu (2/|r| - 1/a)), and the velocity is perpendicular to the
    position (the simplified model of the function). *)
Theorem X20_calculate_position_state (t : R) (st : Calculator.state)
        (Hrun : CalculatorRun.calculate_position Calculator.ATLAS_ELEMENTS t
                = Ok (Some st)) :
  norm3 (Calculator.st_position st) = Calculator.distance_au st
  /\ norm3 (Calculator.st_velocity st)
     = sqrt (Calculator.MU_SUN
             * (2 / Calculator.distance_au st
                - 1 / Calculator.semi_major_axis Calculator.ATLAS_ELEMENTS))%R
  /\ dot3 (Calculator.st_position st) (Calculator.st_velocity st) = 0%R.
Proof.
  unfold CalculatorRun.calculate_position in Hrun.
  destruct (CalculatorRun.newton_run _ _ _ _) as [[F| |]|x];
    try discriminate Hrun.
  destruct (Binary64.overflows (cosh F)); [discriminate Hrun|].
  destruct (_ || _); [discriminate Hrun|].
  injection Hrun as <-.
  unfold CalculatorRun.state_at.
  cbn [Calculator.st_position Calculator.st_velocity Calculator.distance_au].
  rewrite !rotate_norm, rotate_dot.
  unfold Calculator.velocity_direction.
  rewrite !polar_norm. cbn [fst snd].
  match goal with
  | |- context [cos (?nu + PI / 2)] => destruct (quarter_turn nu) as [-> ->]
  end.
  repeat split.
  - apply Rabs_pos_eq, sqrt_pos.
  - ring.
Qed.

Lemma X20_calculate_position_state_witness :
  CalculatorRun.calculate_position Calculator.ATLAS_ELEMENTS 1
  = Ok (Some (Calculator.calculate_position Calculator.ATLAS_ELEMENTS 1))
  /\ norm3 (Calculator.st_position
              (Calculator.calculate_position Calculator.ATLAS_ELEMENTS 1))
     = Calculator.distance_au
         (Calculator.calculate_position Calculator.ATLAS_ELEMENTS 1)
  /\ norm3 (Calculator.st_velocity
              (Calculator.calculate_position Calculator.ATLAS_ELEMENTS 1))
     = sqrt (Calculator.MU_SUN
             * (2 / Calculator.distance_au
                      (Calculator.calculate_position Calculator.ATLAS_ELEMENTS 1)
                - 1 / Calculator.semi_major_axis Calculator.ATLAS_ELEMENTS))%R
  /\ dot3 (Calculator.st_position
             (Calculator.calculate_position Calculator.ATLAS_ELEMENTS 1))
          (Calculator.st_velocity
             (Calculator.calculate_position Calculator.ATLAS_ELEMENTS 1)) = 0%R.
Proof.
  assert (H : CalculatorRun.calculate_position Calculator.ATLAS_ELEMENTS 1
              = Ok (Some (Calculator.calculate_position Calculator.ATLAS_ELEMENTS 1))).
  { apply run_in_range. rewrite Rabs_right; lra. }
  split; [exact H|].
  exact (X20_calculate_position_state 1 _ H).
Defined.

(** X21: the point that [kepler_fallback_trajectory] appends, for any
    solver, the elements of a hyperbolic orbit (e > 1, q > 0) and any
    time: the length of its position vector is the distance |r| from the
    Sun and the length of its velocity vector is the speed v_mag; the
    rotation and the conversion to Three.js axes change no length. *)
Theorem X21_kepler_point_lengths
        (newton : (R -> R) -> R -> option R) (el : Kepler.elements) (dt_days : R)
        (He : (1 < Kepler.el_e el)%R) (Hq : (0 < Kepler.el_q el)%R) :
  norm3 (Kepler.st_position (Kepler.kepler_point newton el dt_days))
  = Rabs (Kepler.radius newton el dt_days)
  /\ norm3 (Kepler.st_velocity (Kepler.kepler_point newton el dt_days))
     = Kepler.speed newton el dt_days.
Proof.
  unfold Kepler.kepler_point. cbn [Kepler.st_position Kepler.st_velocity].
  rewrite !threejs_norm, !rotate_norm. split.
  - apply polar_norm.
  - unfold Kepler.velocity_orb.
    rewrite (kepler_direction_norm el _ _ He).
    apply Rabs_pos_eq, kepler_speed_nonneg.
Qed.

Lemma X21_kepler_point_lengths_witness :
  (1 < Kepler.el_e Kepler.ATLAS_ELEMENTS)%R
  /\ (0 < Kepler.el_q Kepler.ATLAS_ELEMENTS)%R
  /\ norm3 (Kepler.st_position
              (Kepler.kepler_point Kepler.scipy_newton Kepler.ATLAS_ELEMENTS 1))
     = Rabs (Kepler.radius Kepler.scipy_newton Kepler.ATLAS_ELEMENTS 1)
  /\ norm3 (Kepler.st_velocity
              (Kepler.kepler_point Kepler.scipy_newton Kepler.ATLAS_ELEMENTS 1))
     = Kepler.speed Kepler.scipy_newton Kepler.ATLAS_ELEMENTS 1.
Proof.
  assert (H1 : (1 < Kepler.el_e Kepler.ATLAS_ELEMENTS)%R) by (cbn; lra).
  assert (H2 : (0 < Kepler.el_q Kepler.ATLAS_ELEMENTS)%R) by (cbn; lra).
  split; [exact H1|]. split; [exact H2|].
  exact (X21_kepler_point_lengths Kepler.scipy_newton Kepler.ATLAS_ELEMENTS 1 H1 H2).
Defined.

(** X24: whenever [calculate_position] returns a state at an elapsed
    time t, it returns one at the elapsed time -t, at the same distance
    from the Sun; the distance is positive. *)
Theorem X24_distance_mirrored (t : R) (st : Calculator.state)
        (Hrun : CalculatorRun.calculate_position Calculator.ATLAS_ELEMENTS t
                = Ok (Some st)) :
  exists st',
    CalculatorRun.calculate_position Calculator.ATLAS_ELEMENTS (- t) = Ok (Some st')
    /\ Calculator.distance_au st' = Calculator.distance_au st
    /\ (0 < Calculator.distance_au st)%R.
Proof.
  destruct (run_opp _ _ _ Hrun) as (st' & H' & Hd).
  exists st'. split; [exact H'|]. split; [exact Hd|].
  apply (run_distance_pos Calculator.ATLAS_ELEMENTS t st); [cbn; lra | cbn; lra | exact Hrun].
Qed.

Lemma X24_distance_mirrored_witness :
  CalculatorRun.calculate_position Calculator.ATLAS_ELEMENTS 30
  = Ok (Some (Calculator.calculate_position Calculator.ATLAS_ELEMENTS 30))
  /\ exists st',
      CalculatorRun.calculate_position Calculator.ATLAS_ELEMENTS (- 30) = Ok (Some st')
      /\ Calculator.distance_au st'
         = Calculator.distance_au
             (Calculator.calculate_position Calculator.ATLAS_ELEMENTS 30)
      /\ (0 < Calculator.distance_au
                (Calculator.calculate_position Calculator.ATLAS_ELEMENTS 30))%R.
Proof.
  assert (H : CalculatorRun.calculate_position Calculator.ATLAS_ELEMENTS 30
              = Ok (Some (Calculator.calculate_position Calculator.ATLAS_ELEMENTS 30))).
  { apply run_in_range. rewrite Rabs_right; lra. }
  split; [exact H|].
  exact (X24_distance_mirrored 30 _ H).
Defined.

(** ** The step size of [update_all_planets.py] *)

Section StepSize.

Lemma prefix_char (c a : ascii) (r : string) :
  String.prefix (String c "") (String a r) = Ascii.eqb a c.
Proof.
  cbn [String.prefix]. destruct (ascii_dec c a) as [->|Hne].
  - rewrite Ascii.eqb_refl. now destruct r.
  - destruct (Ascii.eqb_spec a c); [congruence | reflexivity].
Qed.

Lemma replace_char_absent (c : ascii) (s : string) :
  all_chars (fun a => negb (Ascii.eqb a c)) s = true ->
  replace (String c "") "" s = s
  /\ replace (String c "") "" (s ++ String c "") = s
  /\ contains (String c "") s = false
  /\ contains (String c "") (s ++ String c "") = true.
Proof.
  unfold replace. induction s as [|a s IH]; intros H.
  - cbn [append replace_from contains]. rewrite !prefix_char, Ascii.eqb_refl.
    cbn [String.length Nat.sub append replace_from orb]. auto.
  - cbn [all_chars] in H. apply andb_prop in H as [Ha Hs].
    apply negb_true_iff in Ha.
    destruct (IH Hs) as (E1 & E2 & E3 & E4).
    cbn [append replace_from]. rewrite !prefix_char, Ha.
    rewrite E1, E2. rewrite !contains_char_cons, Ha, E3, E4. auto.
Qed.

Lemma digits_without (c : ascii) (s : string) :
  is_digit c = false -> all_chars is_digit s = true ->
  all_chars (fun a => negb (Ascii.eqb a c)) s = true.
Proof.
  intros Hc. apply all_chars_impl. intros a Ha.
  destruct (Ascii.eqb_spec a c) as [->|]; [congruence | reflexivity].
Qed.

End StepSize.

(** X22: the step size in hours that [update_all_planets.py] gives to
    the planet fallback.  For a count written in the decimal digits 0 to
    9, n followed by d is 24 n hours, n followed by h is n hours, and n
    alone is n hours; the count is at most 4300 digits long, the longest
    that [int] reads in Python 3.11. *)
Theorem X22_step_hours (count : string)
        (Hdigits : isdigit count = true /\ all_chars is_digit count = true)
        (Hlength : String.length count <= 4300) :
  exists n,
    int_of_string count = Some n /\ (0 <= n)%Z
    /\ step_hours (count ++ "d") = Some (n * 24)%Z
    /\ step_hours (count ++ "h") = Some n
    /\ step_hours count = Some n.
Proof.
  destruct Hdigits as [Hd Ha].
  destruct (int_of_digits count Hd Ha) as (n & En & Hn).
  exists n. split; [exact En|]. split; [exact Hn|].
  destruct (replace_char_absent "d" count (digits_without "d" count eq_refl Ha))
    as (D1 & D2 & D3 & D4).
  destruct (replace_char_absent "h" count (digits_without "h" count eq_refl Ha))
    as (H1 & H2 & H3 & H4).
  assert (Hdh : contains "d" (count ++ "h") = false).
  { clear - D3. induction count as [|a s IH]; [reflexivity|].
    rewrite contains_char_cons in D3. apply orb_false_elim in D3 as [Ha Hs].
    change (String a s ++ "h") with (String a (s ++ "h")).
    rewrite contains_char_cons, Ha. now apply IH. }
  unfold step_hours.
  rewrite D4, D2, Hdh, H2, D3, H1, En. auto.
Qed.

Lemma X22_step_hours_witness :
  (isdigit "2" = true /\ all_chars is_digit "2" = true)
  /\ String.length "2" <= 4300
  /\ exists n,
      int_of_string "2" = Some n /\ (0 <= n)%Z
      /\ step_hours ("2" ++ "d") = Some (n * 24)%Z
      /\ step_hours ("2" ++ "h") = Some n
      /\ step_hours "2" = Some n.
Proof.
  split; [split; reflexivity|]. split; [cbn; lia|].
  apply (X22_step_hours "2"); [split; reflexivity | cbn; lia].
Defined.

(** ** The cache of the static data *)

(** X23: the cached file is used exactly when it was generated less than
    7 days before now, to the microsecond: at an age of exactly 7 days it
    is regenerated, and a file dated in the future is used.  A generation
    time that does not parse, or that is missing, answers "regenerate". *)
Theorem X23_cache_ttl (fromisoformat : string -> option datetime)
        (generated : string) (generated_time now : datetime)
        (Hparse : fromisoformat generated = Some generated_time) :
  (cache_valid fromisoformat (Some generated) now = true
   <-> (now < generated_time + timedelta_days 7)%Z)
  /\ cache_valid fromisoformat None now = false
  /\ (forall g, fromisoformat g = None ->
                cache_valid fromisoformat (Some g) now = false).
Proof.
  split; [|split].
  - unfold cache_valid, days_of. rewrite Hparse.
    unfold timedelta_days, us_per_day, us_per_second.
    rewrite Z.ltb_lt. split.
    + intros H.
      pose proof (Z.mul_succ_div_gt (now - generated_time) (86400 * 1000000)
                    ltac:(lia)) as Hgt.
      nia.
    + intros H. apply Z.div_lt_upper_bound; lia.
  - reflexivity.
  - intros g Hg. unfold cache_valid. now rewrite Hg.
Qed.

Lemma X23_cache_ttl_witness :
  PyDatetime.fromisoformat "2025-10-20" = Some 63896515200000000%Z
  /\ (cache_valid PyDatetime.fromisoformat (Some "2025-10-20") 63897120000000000%Z
      = true
      <-> (63897120000000000 < 63896515200000000 + timedelta_days 7)%Z)
  /\ cache_valid PyDatetime.fromisoformat None 63897120000000000%Z = false
  /\ (forall g, PyDatetime.fromisoformat g = None ->
                cache_valid PyDatetime.fromisoformat (Some g) 63897120000000000%Z
                = false).
Proof.
  assert (H : PyDatetime.fromisoformat "2025-10-20" = Some 63896515200000000%Z)
    by (vm_compute; reflexivity).
  split; [exact H|].
  exact (X23_cache_ttl PyDatetime.fromisoformat "2025-10-20"
           63896515200000000%Z 63897120000000000%Z H).
Defined.
